(** * The virtual-console manager (vc driver): a shallow embedding

    The C driver keeps a registry of console instances in process-wide
    variables, turns keyboard reports into ANSI byte sequences, and feeds
    them to the active console's FIFO.  The embedding below follows the C
    text function by function:

    - machine integers are [Z] with the wrap-around written out;
    - [vc_device_t] objects live in a heap indexed by address, the
      registry list holds addresses, [g_active_vc] is a nullable address;
    - a dereference of an address that is not live has no defined result,
      so every operation returns an [option];
    - calls that leave the driver (rendering, scrolling, the reboot
      channel) are appended to a trace of events. *)

From Stdlib Require Import ZArith Lia Ascii String QArith Qminmax Qround.
From stdpp Require Import base option list gmap.

#[local] Open Scope Z_scope.

(** ** C integers and characters *)

Definition wrap32 (z : Z) : Z := z mod 2 ^ 32.
Definition wrap64 (z : Z) : Z := z mod 2 ^ 64.
Definition wrap8 (z : Z) : Z := z mod 2 ^ 8.

(** A C scalar used as a condition. *)
Definition c_true (z : Z) : bool := negb (z =? 0).

(** The code of a character literal. *)
Definition chr (c : ascii) : Z := Z.of_nat (nat_of_ascii c).

(** ** Constants of headers that are taken as given

    [hid/usages.h] and [vc.h] supply the key codes, the modifier masks
    and the flag bits.  Their values are left open; what a theorem needs
    of them is stated where it is needed. *)

Class hid_usages := {
  HID_USAGE_KEY_ENTER : Z;
  HID_USAGE_KEY_ESC : Z;
  HID_USAGE_KEY_BACKSPACE : Z;
  HID_USAGE_KEY_TAB : Z;
  HID_USAGE_KEY_F1 : Z;
  HID_USAGE_KEY_F10 : Z;
  HID_USAGE_KEY_F11 : Z;
  HID_USAGE_KEY_HOME : Z;
  HID_USAGE_KEY_PAGEUP : Z;
  HID_USAGE_KEY_DELETE : Z;
  HID_USAGE_KEY_END : Z;
  HID_USAGE_KEY_PAGEDOWN : Z;
  HID_USAGE_KEY_RIGHT : Z;
  HID_USAGE_KEY_LEFT : Z;
  HID_USAGE_KEY_DOWN : Z;
  HID_USAGE_KEY_UP : Z;
  HID_USAGE_KEY_KP_ENTER : Z
}.

Class vc_header := {
  MOD_SHIFT : Z;
  MOD_ALT : Z;
  MOD_CTRL : Z;
  VC_FLAG_HASINPUT : Z;
  VC_FLAG_RESETSCROLL : Z;
  VC_FLAG_FULLSCREEN : Z
}.

(** The keymap tables and their lookup [hid_map_key] belong to the HID
    library; the translator only ever calls the lookup. *)
Class hid_keymaps := {
  keychar_t : Type;
  hid_map_key : Z -> bool -> keychar_t -> Z
}.

(** ** The HID-to-ANSI translator *)

Section Translator.
Context `{hid_usages, vc_header, hid_keymaps}.

(** [hid_key_to_ansi_code]: the buffer is a list of bytes, a store
    [buf[i] = x] is a list update, and the result pairs the returned
    length with the buffer as the function leaves it. *)
Definition hid_key_to_ansi_code (keycode modifiers : Z) (keymap : keychar_t)
    (buf : list Z) (buf_size : Z) : Z * list Z :=
  if negb (buf_size =? 4) then (0, buf) else
  let ch := wrap8 (hid_map_key keycode (c_true (Z.land modifiers MOD_SHIFT)) keymap) in
  if c_true ch then
    if c_true (Z.land modifiers MOD_CTRL) then
      let sub := if c_true (Z.land modifiers MOD_SHIFT) then chr "A" else chr "a" in
      (1, <[0%nat := wrap8 (ch - sub + 1)]> buf)
    else (1, <[0%nat := ch]> buf)
  else if (keycode =? HID_USAGE_KEY_ENTER) || (keycode =? HID_USAGE_KEY_KP_ENTER)
    then (1, <[0%nat := 10]> buf)
  else if keycode =? HID_USAGE_KEY_BACKSPACE then (1, <[0%nat := 8]> buf)
  else if keycode =? HID_USAGE_KEY_TAB then (1, <[0%nat := 9]> buf)
  else if keycode =? HID_USAGE_KEY_ESC then (1, <[0%nat := 27]> buf)
  else if keycode =? HID_USAGE_KEY_UP
    then (3, <[2%nat := 65]> (<[1%nat := chr "["]> (<[0%nat := 27]> buf)))
  else if keycode =? HID_USAGE_KEY_DOWN
    then (3, <[2%nat := 66]> (<[1%nat := chr "["]> (<[0%nat := 27]> buf)))
  else if keycode =? HID_USAGE_KEY_RIGHT
    then (3, <[2%nat := 67]> (<[1%nat := chr "["]> (<[0%nat := 27]> buf)))
  else if keycode =? HID_USAGE_KEY_LEFT
    then (3, <[2%nat := 68]> (<[1%nat := chr "["]> (<[0%nat := 27]> buf)))
  else if keycode =? HID_USAGE_KEY_HOME
    then (3, <[2%nat := chr "H"]> (<[1%nat := chr "["]> (<[0%nat := 27]> buf)))
  else if keycode =? HID_USAGE_KEY_END
    then (3, <[2%nat := chr "F"]> (<[1%nat := chr "["]> (<[0%nat := 27]> buf)))
  else if keycode =? HID_USAGE_KEY_DELETE
    then (4, <[3%nat := chr "~"]> (<[2%nat := chr "3"]>
               (<[1%nat := chr "["]> (<[0%nat := 27]> buf))))
  else if keycode =? HID_USAGE_KEY_PAGEUP
    then (4, <[3%nat := chr "~"]> (<[2%nat := chr "5"]>
               (<[1%nat := chr "["]> (<[0%nat := 27]> buf))))
  else if keycode =? HID_USAGE_KEY_PAGEDOWN
    then (4, <[3%nat := chr "~"]> (<[2%nat := chr "6"]>
               (<[1%nat := chr "["]> (<[0%nat := 27]> buf))))
  else (0, buf).

(** The labels of the translator's [switch]; C requires the labels of one
    [switch] to be pairwise different. *)
Definition ansi_switch_labels : list Z :=
  [ HID_USAGE_KEY_ENTER; HID_USAGE_KEY_KP_ENTER; HID_USAGE_KEY_BACKSPACE;
    HID_USAGE_KEY_TAB; HID_USAGE_KEY_ESC; HID_USAGE_KEY_UP;
    HID_USAGE_KEY_DOWN; HID_USAGE_KEY_RIGHT; HID_USAGE_KEY_LEFT;
    HID_USAGE_KEY_HOME; HID_USAGE_KEY_END; HID_USAGE_KEY_DELETE;
    HID_USAGE_KEY_PAGEUP; HID_USAGE_KEY_PAGEDOWN ].

(** The bytes a caller reads back: the first [length] bytes of its
    four-byte array, as [vc_handle_key_press] passes them on. *)
Definition ansi_bytes (keycode modifiers : Z) (keymap : keychar_t) (output : list Z) : list Z :=
  let '(len, out) := hid_key_to_ansi_code keycode modifiers keymap output 4 in
  take (Z.to_nat len) out.

End Translator.

(** ** Status codes and transfer results *)

Inductive mx_status_t :=
| NO_ERROR
| ERR_INVALID_ARGS
| ERR_SHOULD_WAIT
| ERR_NO_MEMORY
| ERR_IO.

#[export] Instance mx_status_eq_dec : EqDecision mx_status_t.
Proof. solve_decision. Defined.

(** An [ssize_t] result: a byte count, or a negative status. *)
Inductive ssize_result :=
| Bytes (n : Z)
| Status (e : mx_status_t).

(** ** The per-console FIFO *)

(** The HID library's FIFO ([mx_hid_fifo_t] and its functions) is not
    among the sources; the four definitions below follow the spec's
    section on the per-console FIFO.  The capacity is left open. *)
Class hid_fifo_capacity := { HID_FIFO_SIZE : Z }.

(** Modelled from the spec: [mx_hid_fifo_t] is missing.  The spec has a
    bounded byte queue of fixed capacity; it is kept as the list of queued
    bytes, oldest first. *)
Record mx_hid_fifo_t := { fifo_data : list Z }.

(** Modelled from the spec: [mx_hid_fifo_size] is missing; the number of
    bytes queued. *)
Definition mx_hid_fifo_size (f : mx_hid_fifo_t) : Z :=
  Z.of_nat (length (fifo_data f)).

(** The free space the spec speaks of: capacity less the bytes queued. *)
Definition mx_hid_fifo_free `{hid_fifo_capacity} (f : mx_hid_fifo_t) : Z :=
  HID_FIFO_SIZE - mx_hid_fifo_size f.

(** Modelled from the spec: [mx_hid_fifo_write] is missing.  The spec:
    attempt an atomic enqueue; if the free space is less than the sequence
    length, enqueue nothing and report WouldBlock, never truncate. *)
Definition mx_hid_fifo_write `{hid_fifo_capacity} (f : mx_hid_fifo_t)
    (buf : list Z) (len : Z) : ssize_result * mx_hid_fifo_t :=
  if mx_hid_fifo_free f <? len then (Status ERR_SHOULD_WAIT, f)
  else (Bytes len, {| fifo_data := fifo_data f ++ take (Z.to_nat len) buf |}).

(** Modelled from the spec: [mx_hid_fifo_read] is missing.  The spec:
    drain up to the requested count.  The result is the number of bytes
    taken, the bytes, and the FIFO that remains. *)
Definition mx_hid_fifo_read (f : mx_hid_fifo_t) (count : Z)
    : Z * list Z * mx_hid_fifo_t :=
  let got := take (Z.to_nat count) (fifo_data f) in
  (Z.of_nat (length got), got, {| fifo_data := drop (Z.to_nat count) (fifo_data f) |}).

(** ** Console instances, the registry and the trace *)

Section Console.
Context `{hid_usages, vc_header, hid_keymaps, hid_fifo_capacity}.

(** The fields of [vc_device_t] the driver file reads or writes.
    [readable] is the [DEV_STATE_READABLE] signal of the embedded device. *)
Record vc_device_t := {
  active : bool;
  flags : Z;
  fifo : mx_hid_fifo_t;
  keymap : keychar_t;
  readable : bool
}.

Definition set_active (b : bool) (d : vc_device_t) : vc_device_t :=
  {| active := b; flags := flags d; fifo := fifo d; keymap := keymap d;
     readable := readable d |}.

Definition set_flags (fl : Z) (d : vc_device_t) : vc_device_t :=
  {| active := active d; flags := fl; fifo := fifo d; keymap := keymap d;
     readable := readable d |}.

Definition set_fifo (f : mx_hid_fifo_t) (d : vc_device_t) : vc_device_t :=
  {| active := active d; flags := flags d; fifo := f; keymap := keymap d;
     readable := readable d |}.

Definition set_readable (b : bool) (d : vc_device_t) : vc_device_t :=
  {| active := active d; flags := flags d; fifo := fifo d; keymap := keymap d;
     readable := b |}.

(** Calls that leave this file, in the order they are made. *)
Inductive event :=
| ev_render (dev : nat)
| ev_set_fullscreen (dev : nat) (on : bool)
| ev_scroll_viewport (dev : option nat) (dy : Z)
| ev_reboot
| ev_write_status (dev : nat).

(** The process-wide variables, the live [vc_device_t] objects by address,
    and the trace. *)
Record vc_state := {
  heap : gmap nat vc_device_t;
  g_vc_list : list nat;
  g_vc_count : Z;
  g_active_vc : option nat;
  g_active_vc_index : Z;
  trace : list event
}.

Definition with_heap (h : gmap nat vc_device_t) (s : vc_state) : vc_state :=
  {| heap := h; g_vc_list := g_vc_list s; g_vc_count := g_vc_count s;
     g_active_vc := g_active_vc s; g_active_vc_index := g_active_vc_index s;
     trace := trace s |}.

Definition with_list (l : list nat) (n : Z) (s : vc_state) : vc_state :=
  {| heap := heap s; g_vc_list := l; g_vc_count := n;
     g_active_vc := g_active_vc s; g_active_vc_index := g_active_vc_index s;
     trace := trace s |}.

Definition with_active (a : option nat) (s : vc_state) : vc_state :=
  {| heap := heap s; g_vc_list := g_vc_list s; g_vc_count := g_vc_count s;
     g_active_vc := a; g_active_vc_index := g_active_vc_index s;
     trace := trace s |}.

Definition with_index (i : Z) (s : vc_state) : vc_state :=
  {| heap := heap s; g_vc_list := g_vc_list s; g_vc_count := g_vc_count s;
     g_active_vc := g_active_vc s; g_active_vc_index := i;
     trace := trace s |}.

Definition emit (e : event) (s : vc_state) : vc_state :=
  {| heap := heap s; g_vc_list := g_vc_list s; g_vc_count := g_vc_count s;
     g_active_vc := g_active_vc s; g_active_vc_index := g_active_vc_index s;
     trace := trace s ++ [e] |}.

(** The state the driver starts in. *)
Definition vc_initial : vc_state :=
  {| heap := ∅; g_vc_list := []; g_vc_count := 0; g_active_vc := None;
     g_active_vc_index := 0; trace := [] |}.

(** [vc_device_render(g_active_vc)]: the callee dereferences its argument. *)
Definition render_active (s : vc_state) : option vc_state :=
  a ← g_active_vc s; Some (emit (ev_render a) s).

(** *** The active-console state machine *)

Definition __vc_set_active (dev : nat) (index : Z) (s : vc_state) : option vc_state :=
  h1 ← match g_active_vc s with
       | Some a => d ← heap s !! a; Some (<[a := set_active false d]> (heap s))
       | None => Some (heap s)
       end;
  d ← h1 !! dev;
  let h2 := <[dev := set_active true d]> h1 in
  d' ← h2 !! dev;
  let h3 := <[dev := set_flags (Z.land (flags d') (Z.lnot VC_FLAG_HASINPUT)) d']> h2 in
  Some (with_index index (with_active (Some dev) (with_heap h3 s))).

(** The scan of [vc_set_console_to_active]: count entries up to [dev]. *)
Fixpoint scan_for_device (dev : nat) (l : list nat) (i : Z) : Z :=
  match l with
  | [] => i
  | device :: l' =>
      if decide (device = dev) then i else scan_for_device dev l' (wrap32 (i + 1))
  end.

Definition vc_set_console_to_active (dev : option nat) (s : vc_state)
    : option (mx_status_t * vc_state) :=
  match dev with
  | None => Some (ERR_INVALID_ARGS, s)
  | Some dev =>
      let i := scan_for_device dev (g_vc_list s) 0 in
      if i =? g_vc_count s then Some (ERR_INVALID_ARGS, s)
      else
        s1 ← __vc_set_active dev i s;
        s2 ← render_active s1;
        Some (NO_ERROR, s2)
  end.

(** The scan of [vc_set_active_console]: the entry reached when the
    counter equals [console].  Past the end of the list the cursor is not
    the address of a console. *)
Fixpoint scan_for_index (console : Z) (l : list nat) (i : Z) : option nat :=
  match l with
  | [] => None
  | device :: l' =>
      if i =? console then Some device else scan_for_index console l' (wrap32 (i + 1))
  end.

Definition vc_set_active_console (console : Z) (s : vc_state)
    : option (mx_status_t * vc_state) :=
  if g_vc_count s <=? console then Some (ERR_INVALID_ARGS, s)
  else
    device ← scan_for_index console (g_vc_list s) 0;
    if decide (Some device = g_active_vc s) then Some (NO_ERROR, s)
    else
      s1 ← __vc_set_active device console s;
      s2 ← render_active s1;
      Some (NO_ERROR, s2).

(** *** Closing a console *)

(** [list_delete(&vc->node)]: unlink the node of [vc]. *)
Fixpoint list_delete (vc : nat) (l : list nat) : list nat :=
  match l with
  | [] => []
  | d :: l' => if decide (d = vc) then l' else d :: list_delete vc l'
  end.

(** The fix-up scan of [vc_device_release] over the remaining entries,
    the counter starting at [i]. *)
Fixpoint release_fixup (l : list nat) (i : Z) (s : vc_state) : option vc_state :=
  match l with
  | [] => Some s
  | d :: l' =>
      match g_active_vc s with
      | Some a =>
          if decide (d = a) then Some (with_index i s)
          else release_fixup l' (wrap32 (i + 1)) s
      | None =>
          if i =? g_active_vc_index s then __vc_set_active d i s
          else release_fixup l' (wrap32 (i + 1)) s
      end
  end.

Definition vc_device_release (vc : nat) (s : vc_state)
    : option (mx_status_t * vc_state) :=
  d ← heap s !! vc;
  if decide (vc ∈ g_vc_list s) then
    let s1 := with_list (list_delete vc (g_vc_list s)) (wrap32 (g_vc_count s - 1)) s in
    let s2 :=
      if active d then
        let s' := with_active None s1 in
        if g_vc_count s' <=? g_active_vc_index s'
        then with_index (wrap32 (g_vc_count s' - 1)) s'
        else s'
      else s1 in
    s3 ← release_fixup (g_vc_list s2) 0 s2;
    let s4 := with_heap (delete vc (heap s3)) s3 in
    match g_active_vc s4 with
    | Some a => Some (NO_ERROR, emit (ev_render a) s4)
    | None => Some (NO_ERROR, s4)
    end
  else None.

(** *** Opening a console

    [alloc] is what [vc_device_alloc] hands back, a failure status or the
    address and initial contents of a new object; [parent] tells whether
    the call has a parent device, and [added] is the status of
    [device_add_instance]. *)
Definition vc_root_open (alloc : mx_status_t + nat * vc_device_t)
    (parent : bool) (added : mx_status_t) (s : vc_state)
    : option (mx_status_t * vc_state) :=
  match alloc with
  | inl status => Some (status, s)
  | inr (device, d0) =>
      let s0 := with_heap (<[device := d0]> (heap s)) s in
      if parent && negb (bool_decide (added = NO_ERROR))
      then Some (added, with_heap (delete device (heap s0)) s0)
      else
        let s1 := with_list (g_vc_list s0 ++ [device]) (wrap32 (g_vc_count s0 + 1)) s0 in
        match g_active_vc s1 with
        | None => '(_, s2) ← vc_set_active_console 0 s1; Some (NO_ERROR, s2)
        | Some a => Some (NO_ERROR, emit (ev_render a) s1)
        end
  end.

(** *** Device I/O *)

(** [vc_device_write], as far as it touches the flags: the text sink and
    the invalidation rectangle are not part of the state kept here. *)
Definition vc_device_write (vc : nat) (count : Z) (s : vc_state)
    : option (Z * vc_state) :=
  d ← heap s !! vc;
  if negb (active d) && negb (c_true (Z.land (flags d) VC_FLAG_HASINPUT)) then
    let d' := set_flags (Z.lor (flags d) VC_FLAG_HASINPUT) d in
    Some (count, emit (ev_write_status vc) (with_heap (<[vc := d']> (heap s)) s))
  else Some (count, s).

(** [vc_device_read]: the result, the bytes copied out, the new state. *)
Definition vc_device_read (dev : nat) (count : Z) (s : vc_state)
    : option (ssize_result * list Z * vc_state) :=
  vc ← heap s !! dev;
  let '(result, buf, f') := mx_hid_fifo_read (fifo vc) count in
  let vc1 := set_fifo f' vc in
  let vc2 := if mx_hid_fifo_size (fifo vc1) =? 0 then set_readable false vc1 else vc1 in
  let result' := if result =? 0 then Status ERR_SHOULD_WAIT else Bytes result in
  Some (result', buf, with_heap (<[dev := vc2]> (heap s)) s).

(** *** Key presses *)

(** [vc_device_rows] is defined with the console type, outside this file. *)
Variable vc_device_rows : vc_device_t -> Z.

(** [vc_handle_control_keys].  [dmctl] tells whether the [open] of the
    device-manager control file succeeds. *)
Definition vc_handle_control_keys (dmctl : bool) (keycode modifiers : Z)
    (s : vc_state) : option (bool * vc_state) :=
  if (HID_USAGE_KEY_F1 <=? keycode) && (keycode <=? HID_USAGE_KEY_F10) then
    if c_true (Z.land modifiers MOD_ALT) then
      '(_, s1) ← vc_set_active_console (wrap32 (keycode - HID_USAGE_KEY_F1)) s;
      Some (true, s1)
    else Some (false, s)
  else if keycode =? HID_USAGE_KEY_F11 then
    match g_active_vc s with
    | Some a =>
        if c_true (Z.land modifiers MOD_ALT) then
          d ← heap s !! a;
          Some (true, emit (ev_set_fullscreen a
                              (negb (c_true (Z.land (flags d) VC_FLAG_FULLSCREEN)))) s)
        else Some (false, s)
    | None => Some (false, s)
    end
  else if keycode =? HID_USAGE_KEY_TAB then
    if c_true (Z.land modifiers MOD_ALT) then
      let console :=
        if c_true (Z.land modifiers MOD_SHIFT) then
          if g_active_vc_index s =? 0 then wrap32 (g_vc_count s - 1)
          else wrap32 (g_active_vc_index s - 1)
        else
          if g_active_vc_index s =? wrap32 (g_vc_count s - 1) then 0
          else wrap32 (g_active_vc_index s + 1) in
      '(_, s1) ← vc_set_active_console console s;
      Some (true, s1)
    else Some (false, s)
  else if keycode =? HID_USAGE_KEY_UP then
    if c_true (Z.land modifiers MOD_ALT)
    then Some (true, emit (ev_scroll_viewport (g_active_vc s) (-1)) s)
    else Some (false, s)
  else if keycode =? HID_USAGE_KEY_DOWN then
    if c_true (Z.land modifiers MOD_ALT)
    then Some (true, emit (ev_scroll_viewport (g_active_vc s) 1) s)
    else Some (false, s)
  else if keycode =? HID_USAGE_KEY_PAGEUP then
    if c_true (Z.land modifiers MOD_SHIFT) then
      a ← g_active_vc s; d ← heap s !! a;
      Some (true, emit (ev_scroll_viewport (Some a) (- (vc_device_rows d ÷ 2))) s)
    else Some (false, s)
  else if keycode =? HID_USAGE_KEY_PAGEDOWN then
    if c_true (Z.land modifiers MOD_SHIFT) then
      a ← g_active_vc s; d ← heap s !! a;
      Some (true, emit (ev_scroll_viewport (Some a) (vc_device_rows d ÷ 2)) s)
    else Some (false, s)
  else if keycode =? HID_USAGE_KEY_DELETE then
    if c_true (Z.land modifiers MOD_CTRL) && c_true (Z.land modifiers MOD_ALT) then
      Some (true, if dmctl then emit ev_reboot s else s)
    else Some (false, s)
  else Some (false, s).

(** The labels of that [switch]: a range and seven single codes. *)
Definition control_switch_labels : list Z :=
  [ HID_USAGE_KEY_F11; HID_USAGE_KEY_TAB; HID_USAGE_KEY_UP; HID_USAGE_KEY_DOWN;
    HID_USAGE_KEY_PAGEUP; HID_USAGE_KEY_PAGEDOWN; HID_USAGE_KEY_DELETE ].

(** [char output[4]] starts out indeterminate; zeroes stand for it, and
    only bytes the translator has stored are read back. *)
Definition output_array : list Z := [0; 0; 0; 0].

Definition vc_handle_key_press (dmctl : bool) (keycode modifiers : Z)
    (s : vc_state) : option vc_state :=
  '(handled, s0) ← vc_handle_control_keys dmctl keycode modifiers s;
  if handled : bool then Some s0
  else
    a ← g_active_vc s0;
    d ← heap s0 !! a;
    let d1 :=
      if mx_hid_fifo_size (fifo d) =? 0
      then set_flags (Z.lor (flags d) VC_FLAG_RESETSCROLL) d else d in
    let '(length, output) :=
      hid_key_to_ansi_code keycode modifiers (keymap d1) output_array 4 in
    let d2 :=
      if 0 <? length then
        set_readable true
          (set_fifo (snd (mx_hid_fifo_write (fifo d1) output length)) d1)
      else d1 in
    Some (with_heap (<[a := d2]> (heap s0)) s0).

(** *** Runs of the driver

    One step is one call of an entry point.  [vc_device_alloc] hands out
    an address that is not live, with the object in the Inactive state,
    and fewer than 2^32 consoles exist at a time. *)
Inductive vc_step (s : vc_state) : vc_state -> Prop :=
| step_open device d0 parent added r s' :
    heap s !! device = None ->
    active d0 = false ->
    g_vc_count s + 1 < 2 ^ 32 ->
    vc_root_open (inr (device, d0)) parent added s = Some (r, s') ->
    vc_step s s'
| step_open_failed status parent added r s' :
    vc_root_open (inl status) parent added s = Some (r, s') ->
    vc_step s s'
| step_set_console_to_active dev r s' :
    vc_set_console_to_active dev s = Some (r, s') ->
    vc_step s s'
| step_set_active_console console r s' :
    0 <= console < 2 ^ 32 ->
    vc_set_active_console console s = Some (r, s') ->
    vc_step s s'
| step_release vc r s' :
    vc_device_release vc s = Some (r, s') ->
    vc_step s s'
| step_write vc count r s' :
    vc_device_write vc count s = Some (r, s') ->
    vc_step s s'
| step_read dev count r buf s' :
    vc_device_read dev count s = Some (r, buf, s') ->
    vc_step s s'
| step_key_press dmctl keycode modifiers s' :
    vc_handle_key_press dmctl keycode modifiers s = Some s' ->
    vc_step s s'.

Definition reachable (s : vc_state) : Prop := rtc vc_step vc_initial s.

(** The Active flag of the console at [p], if it is live. *)
Definition marked_active (s : vc_state) (p : nat) : Prop :=
  exists d, heap s !! p = Some d /\ active d = true.

(** The registry invariant in the words of the data model: without
    consoles nothing is active; with consoles exactly one registered
    console carries the Active flag, [g_active_vc] is its address, and the
    active index lies below the count. *)
Definition registry_invariant (s : vc_state) : Prop :=
  (g_vc_count s = 0 ->
     g_active_vc s = None /\ forall p, p ∈ g_vc_list s -> ~ marked_active s p) /\
  (0 < g_vc_count s ->
     exists a,
       g_active_vc s = Some a /\
       a ∈ g_vc_list s /\
       marked_active s a /\
       (forall p, p ∈ g_vc_list s -> marked_active s p -> p = a) /\
       0 <= g_active_vc_index s < g_vc_count s).

(** What the operations maintain, in the form the proofs carry along. *)
Record registry_consistent (s : vc_state) : Prop := {
  rc_nodup : NoDup (g_vc_list s);
  rc_live : forall p, p ∈ g_vc_list s -> is_Some (heap s !! p);
  rc_count : g_vc_count s = Z.of_nat (length (g_vc_list s));
  rc_bound : Z.of_nat (length (g_vc_list s)) < 2 ^ 32;
  rc_flag : forall p d, p ∈ g_vc_list s -> heap s !! p = Some d ->
            (active d = true <-> g_active_vc s = Some p);
  rc_index : match g_active_vc s with
             | None => g_vc_list s = []
             | Some a => 0 <= g_active_vc_index s /\
                         g_vc_list s !! Z.to_nat (g_active_vc_index s) = Some a
             end;
  rc_input : forall a d, g_active_vc s = Some a -> heap s !! a = Some d ->
             Z.land (flags d) VC_FLAG_HASINPUT = 0
}.

(** The state in the middle of an operation, just before
    [__vc_set_active] runs: a console that carries the Active flag is the
    one [g_active_vc] names, but [g_active_vc] may be null although
    consoles exist. *)
Record registry_settling (s : vc_state) : Prop := {
  rs_nodup : NoDup (g_vc_list s);
  rs_live : forall p, p ∈ g_vc_list s -> is_Some (heap s !! p);
  rs_count : g_vc_count s = Z.of_nat (length (g_vc_list s));
  rs_bound : Z.of_nat (length (g_vc_list s)) < 2 ^ 32;
  rs_flag : forall p d, p ∈ g_vc_list s -> heap s !! p = Some d ->
            active d = true -> g_active_vc s = Some p;
  rs_active : forall a, g_active_vc s = Some a -> a ∈ g_vc_list s
}.

(** A console as [__vc_set_active] leaves its target. *)
Definition activated (d : vc_device_t) : vc_device_t :=
  set_flags (Z.land (flags d) (Z.lnot VC_FLAG_HASINPUT)) (set_active true d).

End Console.

(** ** The repeat interval of the keyboard thread *)

Definition LOW_REPEAT_KEY_FREQUENCY_MICRO : Z := 250000000.
Definition HIGH_REPEAT_KEY_FREQUENCY_MICRO : Z := 50000000.

(** The two assignments of the [ERR_TIMED_OUT] branch, on a [uint64_t]. *)
Definition accelerate (repeat_interval : Z) : Z :=
  let repeat_interval := wrap64 (repeat_interval * 3) / 4 in
  if repeat_interval <? HIGH_REPEAT_KEY_FREQUENCY_MICRO
  then HIGH_REPEAT_KEY_FREQUENCY_MICRO else repeat_interval.

(** The same step as a plain reading of the spec has it: three quarters of
    the interval as a rational number, or the high-frequency value if
    that is larger. *)
Definition three_quarters_or_high (repeat_interval : Z) : Q :=
  Qmax (inject_Z repeat_interval * 0.75) (inject_Z HIGH_REPEAT_KEY_FREQUENCY_MICRO).

(** The loops over [keymask[0..n-1]] of a [hid_keys_t]. *)
Definition any_key (n : nat) (keymask : list Z) : bool :=
  existsb c_true (take n keymask).

(** What one turn of the thread's loop meets after the wait. *)
Inductive wakeup :=
| TimedOut
| ShortRead
| NoActiveVc
| Report (key_pressed key_released : list Z).

Section InputThread.
(** The timeout value that never expires, from the system headers. *)
Variable MX_TIME_INFINITE : Z.

(** [repeat_interval] after one turn of the loop of [vc_input_thread]. *)
Definition next_repeat_interval (repeat_enabled : bool) (w : wakeup)
    (repeat_interval : Z) : Z :=
  match w with
  | TimedOut => accelerate repeat_interval
  | ShortRead => MX_TIME_INFINITE
  | NoActiveVc => MX_TIME_INFINITE
  | Report key_pressed key_released =>
      if repeat_enabled then
        if any_key 8 key_released then MX_TIME_INFINITE
        else if any_key 7 key_pressed then LOW_REPEAT_KEY_FREQUENCY_MICRO
        else repeat_interval
      else repeat_interval
  end.

(** The values [repeat_interval] takes during a run: the wait is entered
    with the current value and expires only if that value is finite. *)
Inductive interval_held (repeat_enabled : bool) : Z -> Prop :=
| held_start : interval_held repeat_enabled MX_TIME_INFINITE
| held_turn w v :
    interval_held repeat_enabled v ->
    (w = TimedOut -> v <> MX_TIME_INFINITE) ->
    interval_held repeat_enabled (next_repeat_interval repeat_enabled w v).

End InputThread.

(** The interval after [n] consecutive timeouts that follow a key press. *)
Definition after_timeouts (n : nat) : Z :=
  Nat.iter n accelerate LOW_REPEAT_KEY_FREQUENCY_MICRO.

(** ** The battery poller *)

Inductive battery_state := UNKNOWN | ERROR | CHARGING | NOT_CHARGING.

Record vc_battery_info_t := { state : battery_state; pct : Z }.

Definition isspace (c : ascii) : bool :=
  let n := nat_of_ascii c in (n =? 32)%nat || ((9 <=? n)%nat && (n <=? 13)%nat).

Definition isdigit (c : ascii) : bool :=
  let n := nat_of_ascii c in (48 <=? n)%nat && (n <=? 57)%nat.

Fixpoint skip_space (s : string) : string :=
  match s with
  | String c s' => if isspace c then skip_space s' else s
  | EmptyString => s
  end.

Fixpoint digits_value (s : string) (acc : Z) : Z :=
  match s with
  | String c s' => if isdigit c then digits_value s' (10 * acc + (chr c - 48)) else acc
  | EmptyString => acc
  end.

(** A value as the 32-bit [int] that holds it, with wrap-around. *)
Definition as_int (z : Z) : Z := wrap32 (z + 2 ^ 31) - 2 ^ 31.

(** Modelled from the spec: [atoi] is the C library's and not among the
    sources.  The spec has the poller parse an integer percentage; this is
    the library's decimal conversion: white space, an optional sign, then
    digits up to the first other character (no digits give 0).  The
    result is an [int]: the library accumulates it in an [int], so a
    numeral beyond the range of [int] comes out reduced modulo 2^32. *)
Definition atoi (s : string) : Z :=
  as_int
    match skip_space s with
    | String "-" s' => - digits_value s' 0
    | String "+" s' => digits_value s' 0
    | s' => digits_value s' 0
    end.

(** The update of [g_battery_info] in [vc_battery_poll_thread]; [str] is
    the text in the buffer, [str[0]] of the empty text being the
    terminator. *)
Definition vc_battery_poll_update (str : string) : vc_battery_info_t :=
  match str with
  | String c rest =>
      if Ascii.eqb c "e" then {| state := ERROR; pct := -1 |}
      else if Ascii.eqb c "c" then {| state := CHARGING; pct := atoi rest |}
      else {| state := NOT_CHARGING; pct := atoi str |}
  | EmptyString => {| state := NOT_CHARGING; pct := atoi str |}
  end.

(** ** One choice of the open constants

    The key codes of the USB HID keyboard page, one bit per modifier key
    and per flag, a keymap table of (plain, shifted) characters indexed by
    key code, and a small FIFO.  The statements below hold for every
    choice; this one serves to evaluate them. *)

Definition usb_usages : hid_usages := {|
  HID_USAGE_KEY_ENTER := 40; HID_USAGE_KEY_ESC := 41;
  HID_USAGE_KEY_BACKSPACE := 42; HID_USAGE_KEY_TAB := 43;
  HID_USAGE_KEY_F1 := 58; HID_USAGE_KEY_F10 := 67; HID_USAGE_KEY_F11 := 68;
  HID_USAGE_KEY_HOME := 74; HID_USAGE_KEY_PAGEUP := 75;
  HID_USAGE_KEY_DELETE := 76; HID_USAGE_KEY_END := 77;
  HID_USAGE_KEY_PAGEDOWN := 78; HID_USAGE_KEY_RIGHT := 79;
  HID_USAGE_KEY_LEFT := 80; HID_USAGE_KEY_DOWN := 81; HID_USAGE_KEY_UP := 82;
  HID_USAGE_KEY_KP_ENTER := 88 |}.

Definition bit_masks : vc_header := {|
  MOD_SHIFT := 3; MOD_ALT := 12; MOD_CTRL := 48;
  VC_FLAG_HASINPUT := 1; VC_FLAG_RESETSCROLL := 2; VC_FLAG_FULLSCREEN := 4 |}.

Definition table_keymaps : hid_keymaps := {|
  keychar_t := list (Z * Z);
  hid_map_key usage shift km :=
    match km !! Z.to_nat usage with
    | Some (c, shift_c) => if shift then shift_c else c
    | None => 0
    end |}.

(** Key codes 4 to 29 are the letters; everything else has no character. *)
Definition letters_map : list (Z * Z) :=
  replicate 4 (0, 0) ++ map (fun i => (97 + Z.of_nat i, 65 + Z.of_nat i)) (seq 0 26).

Definition small_fifo : hid_fifo_capacity := {| HID_FIFO_SIZE := 8 |}.


(** Decimal numerals, to say what [atoi] returns on them. *)
Definition digit_char (d : nat) : ascii := ascii_of_nat (48 + d).

Fixpoint decimal_string (ds : list nat) : string :=
  match ds with
  | [] => EmptyString
  | d :: ds' => String (digit_char d) (decimal_string ds')
  end.

Definition decimal_value (ds : list nat) : Z :=
  fold_left (fun acc d => 10 * acc + Z.of_nat d) ds 0.

(** Sample consoles and states under that choice of constants. *)
Section Samples.
#[local] Existing Instance usb_usages.
#[local] Existing Instance bit_masks.
#[local] Existing Instance table_keymaps.
#[local] Existing Instance small_fifo.

Definition sample_console : vc_device_t :=
  {| active := false; flags := 0; fifo := {| fifo_data := [] |};
     keymap := letters_map; readable := false |}.

Definition sample_rows (d : vc_device_t) : Z := 24.

(** The state after a call that is known to succeed. *)
Definition after (op : vc_state -> option (mx_status_t * vc_state))
    (s : vc_state) : vc_state :=
  match op s with
  | Some (_, s') => s'
  | None => s
  end.

Definition open_console (p : nat) : vc_state -> vc_state :=
  after (vc_root_open (inr (p, sample_console)) false NO_ERROR).

(** One console, at address 1, Active. *)
Definition one_console : vc_state := open_console 1 vc_initial.

(** Consoles at addresses 1, 2, 3 opened in this order, the second one
    made Active. *)
Definition three_consoles : vc_state :=
  after (vc_set_active_console 1)
    (open_console 3 (open_console 2 one_console)).

(** The Active console with six of the eight FIFO bytes in use. *)
Definition nearly_full : vc_state :=
  with_heap (<[1%nat := set_fifo {| fifo_data := [1; 2; 3; 4; 5; 6] |}
                          (activated sample_console)]> (heap one_console))
            one_console.

End Samples.

(** ** Views of the state used to state what operations leave alone *)

Section Views.
Context `{hid_keymaps}.

(** The input side of the console at [p]: its FIFO and its readable
    signal, if the console is live. *)
Definition fifo_view (s : vc_state) (p : nat) : option (mx_hid_fifo_t * bool) :=
  (fun d => (fifo d, readable d)) <$> heap s !! p.



End Views.

(** ** Keyboard reports *)

(** The modifier key codes of [hid/usages.h] and the per-key modifier
    bits of [vc.h], taken as given like the other constants. *)
Class hid_modifier_usages := {
  HID_USAGE_KEY_LEFT_SHIFT : Z;
  HID_USAGE_KEY_RIGHT_SHIFT : Z;
  HID_USAGE_KEY_LEFT_ALT : Z;
  HID_USAGE_KEY_RIGHT_ALT : Z;
  HID_USAGE_KEY_LEFT_CTRL : Z;
  HID_USAGE_KEY_RIGHT_CTRL : Z
}.

Class vc_modifier_bits := {
  MOD_LSHIFT : Z;
  MOD_RSHIFT : Z;
  MOD_LALT : Z;
  MOD_RALT : Z;
  MOD_LCTRL : Z;
  MOD_RCTRL : Z
}.

(** The key-state type of the HID library and the functions on it that
    [vc_process_kb_report] calls; they are not among the sources and are
    left uninterpreted.  [hid_for_every_key] lists the key codes the
    macro of that name runs through, [keymask] the words of the array of
    that name, and [hid_keys_zeroed] is the value [memset] to 0 leaves. *)
Class hid_keyboard := {
  hid_keys_t : Type;
  hid_kbd_parse_report : list Z -> hid_keys_t;
  hid_kbd_pressed_keys : hid_keys_t -> hid_keys_t -> hid_keys_t;
  hid_kbd_released_keys : hid_keys_t -> hid_keys_t -> hid_keys_t;
  hid_for_every_key : hid_keys_t -> list Z;
  keymask : hid_keys_t -> list Z;
  hid_keys_zeroed : hid_keys_t
}.

Section Keyboard.
Context `{hid_usages, vc_header, hid_keymaps, hid_fifo_capacity}.
Context `{hid_modifier_usages, vc_modifier_bits, hid_keyboard}.
Variable vc_device_rows : vc_device_t -> Z.

Definition modifiers_from_keycode (keycode : Z) : Z :=
  if keycode =? HID_USAGE_KEY_LEFT_SHIFT then MOD_LSHIFT
  else if keycode =? HID_USAGE_KEY_RIGHT_SHIFT then MOD_RSHIFT
  else if keycode =? HID_USAGE_KEY_LEFT_ALT then MOD_LALT
  else if keycode =? HID_USAGE_KEY_RIGHT_ALT then MOD_RALT
  else if keycode =? HID_USAGE_KEY_LEFT_CTRL then MOD_LCTRL
  else if keycode =? HID_USAGE_KEY_RIGHT_CTRL then MOD_RCTRL
  else 0.

(** The labels of that [switch]. *)
Definition modifier_switch_labels : list Z :=
  [ HID_USAGE_KEY_LEFT_SHIFT; HID_USAGE_KEY_RIGHT_SHIFT; HID_USAGE_KEY_LEFT_ALT;
    HID_USAGE_KEY_RIGHT_ALT; HID_USAGE_KEY_LEFT_CTRL; HID_USAGE_KEY_RIGHT_CTRL ].

(** What a keyboard thread keeps between reports: the two snapshot
    generations with their indices, and the modifier mask. *)
Record kb_state := {
  key_state : list hid_keys_t;
  cur_idx : Z;
  prev_idx : Z;
  modifiers : Z
}.

(** Element [i] of a C array held as a list; an index outside it has no
    defined result. *)
Definition array_get {A} (l : list A) (i : Z) : option A :=
  if 0 <=? i then l !! Z.to_nat i else None.

Definition array_set {A} (l : list A) (i : Z) (x : A) : option (list A) :=
  if (0 <=? i) && (i <? Z.of_nat (length l)) then Some (<[Z.to_nat i := x]> l)
  else None.

(** The modifier bits of a list of keys, or-ed together. *)
Definition modifier_bits (keys : list Z) : Z :=
  fold_right (fun keycode bits => Z.lor (modifiers_from_keycode keycode) bits) 0 keys.

(** The first loop of [vc_process_kb_report]: every key of the delta adds
    its modifier bit and is then handled as a key press. *)
Fixpoint press_keys (dmctl : bool) (keys : list Z) (modifiers : Z) (s : vc_state)
    : option (Z * vc_state) :=
  match keys with
  | [] => Some (modifiers, s)
  | keycode :: keys' =>
      let modifiers := Z.lor modifiers (modifiers_from_keycode keycode) in
      s' ← vc_handle_key_press vc_device_rows dmctl keycode modifiers s;
      press_keys dmctl keys' modifiers s'
  end.

(** The second loop: every released key takes its modifier bit away. *)
Definition release_keys (keys : list Z) (modifiers : Z) : Z :=
  fold_left (fun m keycode => Z.land m (Z.lnot (modifiers_from_keycode keycode)))
            keys modifiers.

(** [vc_process_kb_report]: the new thread state, the two deltas that go
    to [key_pressed] and [key_released], and the new driver state. *)
Definition vc_process_kb_report (dmctl : bool) (report_buf : list Z)
    (kb : kb_state) (s : vc_state)
    : option (kb_state * hid_keys_t * hid_keys_t * vc_state) :=
  ks ← array_set (key_state kb) (cur_idx kb) (hid_kbd_parse_report report_buf);
  prev ← array_get ks (prev_idx kb);
  cur ← array_get ks (cur_idx kb);
  let key_pressed := hid_kbd_pressed_keys prev cur in
  '(modifiers1, s1) ← press_keys dmctl (hid_for_every_key key_pressed) (modifiers kb) s;
  let key_released := hid_kbd_released_keys prev cur in
  let modifiers2 := release_keys (hid_for_every_key key_released) modifiers1 in
  Some ({| key_state := ks; cur_idx := 1 - cur_idx kb; prev_idx := 1 - prev_idx kb;
           modifiers := modifiers2 |},
        key_pressed, key_released, s1).

(** The local variables of [vc_input_thread]. *)
Record input_thread := {
  previous_report_buf : list Z;
  report_buf : list Z;
  kb : kb_state;
  repeat_interval : Z
}.

(** What the wait and, if the descriptor is readable, the [read] of one
    turn bring: a timeout, or the result [r] of the read together with
    the contents it leaves in [report_buf]. *)
Inductive wait_result :=
| wait_timed_out
| wait_readable (r : Z) (data : list Z).

Inductive turn_result :=
| thread_continues (t : input_thread) (s : vc_state)
| thread_exits (s : vc_state).

Variable MX_TIME_INFINITE : Z.

(** One turn of the loop of [vc_input_thread]. *)
Definition vc_input_turn (repeat_enabled dmctl : bool) (w : wait_result)
    (t : input_thread) (s : vc_state) : option turn_result :=
  match w with
  | wait_timed_out =>
      '(kb1, _, _, s1) ← vc_process_kb_report dmctl (previous_report_buf t) (kb t) s;
      '(kb2, _, _, s2) ← vc_process_kb_report dmctl (report_buf t) kb1 s1;
      Some (thread_continues
              {| previous_report_buf := previous_report_buf t;
                 report_buf := report_buf t; kb := kb2;
                 repeat_interval := accelerate (repeat_interval t) |} s2)
  | wait_readable r data =>
      let previous := report_buf t in
      if r <? 0 then Some (thread_exits s)
      else if negb (r =? 8) then
        Some (thread_continues
                {| previous_report_buf := previous; report_buf := data;
                   kb := kb t; repeat_interval := MX_TIME_INFINITE |} s)
      else
        match g_active_vc s with
        | None =>
            Some (thread_continues
                    {| previous_report_buf := previous; report_buf := data;
                       kb := kb t; repeat_interval := MX_TIME_INFINITE |} s)
        | Some _ =>
            '(kb1, key_pressed, key_released, s1) ←
              vc_process_kb_report dmctl data (kb t) s;
            Some (thread_continues
                    {| previous_report_buf := previous; report_buf := data;
                       kb := kb1;
                       repeat_interval :=
                         next_repeat_interval MX_TIME_INFINITE repeat_enabled
                           (Report (keymask key_pressed) (keymask key_released))
                           (repeat_interval t) |} s1)
        end
  end.

(** The thread's variables when it enters the loop; the two report
    buffers are not initialised and hold whatever the stack held. *)
Definition vc_input_thread_start (previous report : list Z) : input_thread :=
  {| previous_report_buf := previous; report_buf := report;
     kb := {| key_state := [hid_keys_zeroed; hid_keys_zeroed];
              cur_idx := 0; prev_idx := 1; modifiers := 0 |};
     repeat_interval := MX_TIME_INFINITE |}.

(** The two indices name the two elements of [key_state], one each. *)
Definition generations_apart (k : kb_state) : Prop :=
  length (key_state k) = 2%nat /\
  ((cur_idx k = 0 /\ prev_idx k = 1) \/ (cur_idx k = 1 /\ prev_idx k = 0)).

(** The thread states of a run: the wait expires only if the interval is
    finite, and between two turns other threads may change the driver
    state at will. *)
Inductive thread_held (repeat_enabled : bool) : input_thread -> Prop :=
| thread_started previous report :
    thread_held repeat_enabled (vc_input_thread_start previous report)
| thread_turned dmctl w t s t' s' :
    thread_held repeat_enabled t ->
    (w = wait_timed_out -> repeat_interval t <> MX_TIME_INFINITE) ->
    vc_input_turn repeat_enabled dmctl w t s = Some (thread_continues t' s') ->
    thread_held repeat_enabled t'.

End Keyboard.

(** The modifier key codes of the USB HID keyboard page, one bit per
    modifier key as in [bit_masks], and a keyboard library that keeps the
    codes of the keys that are down: a report is a byte of modifier bits,
    a reserved byte and six key codes, and [keymask] has 8 words of 32
    bits.  Again for evaluation only. *)

Definition usb_modifier_usages : hid_modifier_usages := {|
  HID_USAGE_KEY_LEFT_CTRL := 224; HID_USAGE_KEY_LEFT_SHIFT := 225;
  HID_USAGE_KEY_LEFT_ALT := 226; HID_USAGE_KEY_RIGHT_CTRL := 228;
  HID_USAGE_KEY_RIGHT_SHIFT := 229; HID_USAGE_KEY_RIGHT_ALT := 230 |}.

Definition side_masks : vc_modifier_bits := {|
  MOD_LSHIFT := 1; MOD_RSHIFT := 2; MOD_LALT := 4; MOD_RALT := 8;
  MOD_LCTRL := 16; MOD_RCTRL := 32 |}.

Definition keys_down (report : list Z) : list Z :=
  match report with
  | bits :: _ :: codes =>
      filter (fun k => Z.testbit bits (k - 224) = true) (map Z.of_nat (seq 224 8))
      ++ filter (fun k => k <> 0) codes
  | _ => []
  end.

Definition keys_added (prev cur : list Z) : list Z :=
  filter (fun k => k ∉ prev) cur.

Definition keys_mask (keys : list Z) : list Z :=
  map (fun i => fold_right
                  (fun k word => if k / 32 =? Z.of_nat i
                                 then Z.lor (Z.shiftl 1 (k mod 32)) word else word)
                  0 keys)
      (seq 0 8).

Definition listing_keyboard : hid_keyboard := {|
  hid_keys_t := list Z;
  hid_kbd_parse_report := keys_down;
  hid_kbd_pressed_keys := keys_added;
  hid_kbd_released_keys prev cur := keys_added cur prev;
  hid_for_every_key keys := keys;
  keymask := keys_mask;
  hid_keys_zeroed := [] |}.

Section KeyboardSamples.
#[local] Existing Instance usb_usages.
#[local] Existing Instance bit_masks.
#[local] Existing Instance table_keymaps.
#[local] Existing Instance small_fifo.
#[local] Existing Instance usb_modifier_usages.
#[local] Existing Instance side_masks.
#[local] Existing Instance listing_keyboard.

(** The state after a list of key presses that are known to succeed. *)
Definition after_keys (keys : list Z) (modifiers : Z) (s : vc_state) : vc_state :=
  match press_keys sample_rows false keys modifiers s with
  | Some (_, s') => s'
  | None => s
  end.

(** Left Shift and the key of the letter a are down. *)
Definition shift_a_report : list Z := [2; 0; 4; 0; 0; 0; 0; 0].

(** A thread that has read [shift_a_report] as its first report, with
    one console open. *)
Definition shift_a_thread : input_thread :=
  {| previous_report_buf := []; report_buf := shift_a_report;
     kb := {| key_state := [[225; 4]; []]; cur_idx := 1; prev_idx := 0;
              modifiers := 1 |};
     repeat_interval := LOW_REPEAT_KEY_FREQUENCY_MICRO |}.

End KeyboardSamples.

(** ** Binding the driver to a display *)

(** Status codes as the integers they are, where the code compares them
    with 0 or passes on what a callee returned: the code of each status
    named above, and that of [ERR_NOT_SUPPORTED]. *)
Class mx_status_codes := {
  status_code : mx_status_t -> Z;
  ERR_NOT_SUPPORTED : Z
}.

(** The threads [vc_root_bind] starts; the log reader is handed the
    console it writes to. *)
Inductive vc_thread :=
| vc_inputdev_poll
| vc_log_reader (dev : nat)
| vc_misc_poll.

Section Bind.
Context `{hid_usages, vc_header, hid_keymaps, hid_fifo_capacity, mx_status_codes}.

(** The globals [vc_root_bind] sets, next to the registry: the
    initialised flag, the display device, whether the surface got the
    flush hook, and the threads started so far. *)
Record root_state := {
  g_vc_initialized : bool;
  g_fb_device : option nat;
  flush_hooked : bool;
  spawned : list vc_thread;
  consoles : vc_state
}.

(** What the calls out of the driver answer during one bind: the status
    of [device_get_protocol], [get_mode], [get_framebuffer],
    [gfx_init_surface], [device_create] and [device_add], whether the
    display has a flush operation, and what [vc_device_alloc] returns to
    [vc_root_open]. *)
Record bind_answers := {
  got_protocol : Z;
  got_mode : Z;
  got_framebuffer : Z;
  surface_initialized : Z;
  has_flush : bool;
  device_created : Z;
  device_added : Z;
  allocated : mx_status_t + nat * vc_device_t
}.

Definition spawn (t : vc_thread) (r : root_state) : root_state :=
  {| g_vc_initialized := g_vc_initialized r; g_fb_device := g_fb_device r;
     flush_hooked := flush_hooked r; spawned := spawned r ++ [t];
     consoles := consoles r |}.

(** The state before any bind. *)
Definition root_initial : root_state :=
  {| g_vc_initialized := false; g_fb_device := None; flush_hooked := false;
     spawned := []; consoles := vc_initial |}.

(** [vc_root_bind]; the results of the three [thrd_create_with_name]
    calls do not change what it does or returns. *)
Definition vc_root_bind (e : bind_answers) (dev : nat) (r : root_state)
    : option (Z * root_state) :=
  if g_vc_initialized r then Some (ERR_NOT_SUPPORTED, r)
  else if got_protocol e <? 0 then Some (got_protocol e, r)
  else if got_mode e <? 0 then Some (got_mode e, r)
  else if got_framebuffer e <? 0 then Some (got_framebuffer e, r)
  else if surface_initialized e <? 0 then Some (surface_initialized e, r)
  else
    let r1 :=
      {| g_vc_initialized := g_vc_initialized r; g_fb_device := Some dev;
         flush_hooked := if has_flush e then true else flush_hooked r;
         spawned := spawned r; consoles := consoles r |} in
    if negb (device_created e =? status_code NO_ERROR)
    then Some (device_created e, r1)
    else
      let r2 := spawn vc_inputdev_poll r1 in
      if negb (device_added e =? status_code NO_ERROR)
      then Some (device_added e, r2)
      else
        '(status, cs) ← vc_root_open (allocated e) false NO_ERROR (consoles r2);
        let r3 :=
          {| g_vc_initialized := true; g_fb_device := g_fb_device r2;
             flush_hooked := flush_hooked r2; spawned := spawned r2;
             consoles := cs |} in
        let r4 :=
          match status, allocated e with
          | NO_ERROR, inr (device, _) => spawn (vc_log_reader device) r3
          | _, _ => r3
          end in
        Some (status_code NO_ERROR, spawn vc_misc_poll r4).

End Bind.

Definition plain_codes : mx_status_codes := {|
  status_code st :=
    match st with
    | NO_ERROR => 0
    | ERR_INVALID_ARGS => -10
    | ERR_SHOULD_WAIT => -22
    | ERR_NO_MEMORY => -4
    | ERR_IO => -40
    end;
  ERR_NOT_SUPPORTED := -2 |}.

Section BindSamples.
#[local] Existing Instance usb_usages.
#[local] Existing Instance bit_masks.
#[local] Existing Instance table_keymaps.
#[local] Existing Instance small_fifo.
#[local] Existing Instance plain_codes.

(** A bind in which every call out of the driver succeeds and the log
    console is allocated at address 1. *)
Definition all_succeed : bind_answers :=
  {| got_protocol := 0; got_mode := 0; got_framebuffer := 0;
     surface_initialized := 0; has_flush := true; device_created := 0;
     device_added := 0; allocated := inr (1%nat, sample_console) |}.

(** The state after that bind, from the initial state, on display 9. *)
Definition bound_root : root_state :=
  match vc_root_bind all_succeed 9%nat root_initial with
  | Some (_, r') => r'
  | None => root_initial
  end.

End BindSamples.

(** ** The status line *)

Section StatusLine.
Context `{hid_usages, vc_header, hid_keymaps, hid_fifo_capacity}.

(** Fields of a console that no function above reads or writes, and the
    length of its scrollback, by the console's address: the bytes of
    [title] before the terminator, [vpy], and what
    [vc_device_get_scrollback_lines] returns. *)
Variable title : nat -> list Z.
Variable vpy : nat -> Z.
Variable vc_device_get_scrollback_lines : nat -> Z.

(** The characters of a string literal. *)
Definition literal (s : string) : list Z := map chr (list_ascii_of_string s).

Fixpoint decimal_digits (fuel : nat) (n : Z) (acc : list Z) : list Z :=
  match fuel with
  | O => acc
  | S fuel' =>
      let acc' := (chr "0" + n mod 10) :: acc in
      if n <? 10 then acc' else decimal_digits fuel' (n / 10) acc'
  end.

(** [%u] of a 32-bit value: at most ten digits. *)
Definition format_u (n : Z) : list Z := decimal_digits 10 n [].

(** What the format of [vc_get_status_line] expands to for one console. *)
Definition status_entry (device : nat) (d : vc_device_t) (i : Z) : list Z :=
  let lines := vc_device_get_scrollback_lines device in
  (if active d then 27 :: literal "[36m" ++ 27 :: literal "[1m" else [])
  ++ literal "[" ++ format_u i ++ literal "] "
  ++ title device
  ++ [if c_true (Z.land (flags d) VC_FLAG_HASINPUT) then chr "*" else chr " "]
  ++ literal "    "
  ++ [if (0 <? lines) && (- vpy device <? lines) then chr "<" else chr " "]
  ++ [if vpy device <? 0 then chr ">" else chr " "]
  ++ literal " " ++ 27 :: literal "[m".

(** [snprintf(ptr, n, ...)] for [n > 0], on the buffer [str] with [ptr]
    as an offset into it: at most [n - 1] characters of the text and a
    terminator are stored, and the length of the whole text is returned.
    A store outside the buffer has no defined result. *)
Definition snprintf (str : list Z) (ptr n : Z) (text : list Z)
    : option (list Z * Z) :=
  let stored := take (Z.to_nat (n - 1)) text ++ [0] in
  if (0 <=? ptr) && (ptr + Z.of_nat (length stored) <=? Z.of_nat (length str)) then
    Some (take (Z.to_nat ptr) str ++ stored
            ++ drop (Z.to_nat ptr + length stored) str,
          Z.of_nat (length text))
  else None.

(** The loop of [vc_get_status_line] over the rest of the list. *)
Fixpoint status_loop (devices : list nat) (s : vc_state) (str : list Z)
    (ptr n i : Z) : option (list Z) :=
  match devices with
  | [] => Some str
  | device :: devices' =>
      if n <=? 0 then Some str
      else
        d ← heap s !! device;
        '(str', chars) ← snprintf str ptr n (status_entry device d i);
        status_loop devices' s str' (ptr + chars) (n - chars) (wrap32 (i + 1))
  end.

(** [vc_get_status_line]: the buffer afterwards. *)
Definition vc_get_status_line (str : list Z) (n : Z) (s : vc_state)
    : option (list Z) :=
  status_loop (g_vc_list s) s str 0 n 0.

(** The entries of the consoles one after the other, without a limit. *)
Fixpoint status_text (devices : list nat) (s : vc_state) (i : Z) : list Z :=
  match devices with
  | [] => []
  | device :: devices' =>
      match heap s !! device with
      | Some d => status_entry device d i ++ status_text devices' s (wrap32 (i + 1))
      | None => []
      end
  end.

End StatusLine.

(** Titles for the examples: vc1, vc2, ... *)
Definition sample_title (p : nat) : list Z := literal "vc" ++ [chr "0" + Z.of_nat p].

(** ** New input devices *)

(** The protocol numbers of [ioctl_input_get_protocol], from the input
    headers. *)
Class input_protocols := {
  INPUT_PROTO_NONE : Z;
  INPUT_PROTO_KBD : Z
}.

(** What [vc_input_device_added] does to the outside: closing a
    descriptor, starting [vc_input_thread] on a descriptor under a name
    (or failing to), and detaching the thread handle. *)
Inductive input_event :=
| in_close (fd : Z)
| in_thread (fd : Z) (tname : list Z)
| in_thread_failed (tname : list Z)
| in_detach.

#[export] Instance input_event_eq_dec : EqDecision input_event.
Proof. solve_decision. Defined.

(** Whether an event starts a thread on the descriptor [fd]. *)
Definition thread_on (fd : Z) (e : input_event) : bool :=
  match e with
  | in_thread fd' _ => fd' =? fd
  | _ => false
  end.

Section InputDevices.
Context `{input_protocols}.

(** [vc_input_device_added].  [fd] is what [openat] returns, [rc] what
    the protocol query returns, [answer] the value the query stores in
    [proto] if it stores one, and [started] tells whether
    [thrd_create_with_name] returns [thrd_success]. *)
Definition vc_input_device_added (fd : Z) (fn : list Z) (rc : Z)
    (answer : option Z) (started : bool) : mx_status_t * list input_event :=
  if fd <? 0 then (NO_ERROR, [])
  else
    let proto := default INPUT_PROTO_NONE answer in
    if (0 <? rc) && negb (proto =? INPUT_PROTO_KBD) then (NO_ERROR, [in_close fd])
    else
      let tname := take 63 (literal "vc-input-" ++ fn) in
      if started then (NO_ERROR, [in_thread fd tname; in_detach])
      else (NO_ERROR, [in_thread_failed tname; in_close fd; in_detach]).

End InputDevices.

Definition boot_protocols : input_protocols :=
  {| INPUT_PROTO_NONE := 0; INPUT_PROTO_KBD := 1 |}.
(** * Properties *)

(** ** Small facts about the integer model *)

Lemma c_true_true z : c_true z = true <-> z <> 0.
Proof. unfold c_true. rewrite negb_true_iff, Z.eqb_neq. tauto. Qed.

Lemma c_true_false z : c_true z = false <-> z = 0.
Proof. unfold c_true. rewrite negb_false_iff, Z.eqb_eq. tauto. Qed.

Ltac split_labels :=
  repeat match goal with
  | H : NoDup (_ :: _) |- _ => apply NoDup_cons in H; destruct H as [? H]
  end;
  repeat match goal with
  | H : _ ∉ _ :: _ |- _ => apply not_elem_of_cons in H; destruct H as [? H]
  end.

Ltac decide_labels :=
  repeat match goal with
  | |- context [?a =? ?b] =>
      destruct (Z.eqb_spec a b); try congruence; cbn [orb andb negb]
  end.

(** ** The translator *)

Section TranslatorFacts.
Context `{hid_usages, vc_header, hid_keymaps}.

(** C10.  Whatever the key, the modifiers and the keymap, a call whose
    buffer size is not 4 stores nothing and returns length 0: the
    translator yields bytes only for a four-byte buffer. *)
Theorem hid_key_to_ansi_code_needs_four_bytes
    (keycode modifiers : Z) (keymap : keychar_t) (buf : list Z) (buf_size : Z) :
  buf_size <> 4 ->
  hid_key_to_ansi_code keycode modifiers keymap buf buf_size = (0, buf).
Proof.
  intros Hsize. unfold hid_key_to_ansi_code.
  destruct (Z.eqb_spec buf_size 4); [contradiction | reflexivity].
Qed.

(** C5.  With the four-byte array of the caller, whatever it held before:
    a key for which the keymap has a character [ch] gives one byte, the
    byte [ch - 'a' + 1] under CTRL without SHIFT, the byte [ch - 'A' + 1]
    under CTRL with SHIFT, and [ch] itself without CTRL; a key without a
    keymap character gives ESC [ A for Up, ESC [ 3 ~ for Delete (with no
    modifiers, and with any), and no byte at all when it is none of the
    special keys. *)
Theorem ansi_translator_table
    (keycode modifiers : Z) (keymap : keychar_t) (output : list Z) :
  length output = 4%nat ->
  NoDup ansi_switch_labels ->
  let shift := c_true (Z.land modifiers MOD_SHIFT) in
  let ctrl := c_true (Z.land modifiers MOD_CTRL) in
  let ch := wrap8 (hid_map_key keycode shift keymap) in
  (ch <> 0 -> ctrl = true -> shift = false ->
     ansi_bytes keycode modifiers keymap output = [wrap8 (ch - chr "a" + 1)]) /\
  (ch <> 0 -> ctrl = true -> shift = true ->
     ansi_bytes keycode modifiers keymap output = [wrap8 (ch - chr "A" + 1)]) /\
  (ch <> 0 -> ctrl = false ->
     ansi_bytes keycode modifiers keymap output = [ch]) /\
  (ch = 0 -> keycode = HID_USAGE_KEY_UP ->
     ansi_bytes keycode modifiers keymap output = [27; chr "["; chr "A"]) /\
  (ch = 0 -> keycode = HID_USAGE_KEY_DELETE ->
     ansi_bytes keycode modifiers keymap output = [27; chr "["; chr "3"; chr "~"]) /\
  (ch = 0 -> keycode ∉ ansi_switch_labels ->
     ansi_bytes keycode modifiers keymap output = []).
Proof.
  intros Hlen Hlabels shift ctrl ch.
  destruct output as [|b0 [|b1 [|b2 [|b3 [|]]]]]; try discriminate Hlen.
  unfold ansi_bytes, hid_key_to_ansi_code.
  change (negb (4 =? 4)) with false. cbv iota.
  fold shift. fold ch. fold ctrl.
  repeat split.
  - intros Hch Hctrl Hshift. apply c_true_true in Hch.
    rewrite Hch, Hctrl, Hshift. reflexivity.
  - intros Hch Hctrl Hshift. apply c_true_true in Hch.
    rewrite Hch, Hctrl, Hshift. reflexivity.
  - intros Hch Hctrl. apply c_true_true in Hch.
    rewrite Hch, Hctrl. reflexivity.
  - intros Hch ->. apply c_true_false in Hch. rewrite Hch.
    unfold ansi_switch_labels in Hlabels. split_labels.
    decide_labels. reflexivity.
  - intros Hch ->. apply c_true_false in Hch. rewrite Hch.
    unfold ansi_switch_labels in Hlabels. split_labels.
    decide_labels. reflexivity.
  - intros Hch Hnot. apply c_true_false in Hch. rewrite Hch.
    unfold ansi_switch_labels in Hnot. split_labels.
    decide_labels. reflexivity.
Qed.

End TranslatorFacts.

(** ** Key repeat *)

Lemma accelerate_in_range v :
  0 <= v -> v * 3 < 2 ^ 64 ->
  accelerate v = Z.max (v * 3 / 4) HIGH_REPEAT_KEY_FREQUENCY_MICRO.
Proof.
  intros Hlo Hhi. unfold accelerate, wrap64.
  rewrite Z.mod_small by lia.
  destruct (Z.ltb_spec (v * 3 / 4) HIGH_REPEAT_KEY_FREQUENCY_MICRO); lia.
Qed.

Lemma floor_three_quarters v : Qfloor (inject_Z v * 0.75) = v * 3 / 4.
Proof.
  unfold Qfloor, Qmult, inject_Z. cbn [Qnum Qden].
  change (Z.pos (1 * 100)) with (4 * 25).
  replace (v * 75) with (v * 3 * 25) by lia.
  apply Z.div_mul_cancel_r; lia.
Qed.

Lemma after_timeouts_S n : after_timeouts (S n) = accelerate (after_timeouts n).
Proof. reflexivity. Qed.

Lemma after_timeouts_range n :
  HIGH_REPEAT_KEY_FREQUENCY_MICRO <= after_timeouts n <= LOW_REPEAT_KEY_FREQUENCY_MICRO.
Proof.
  induction n as [|n IH].
  - vm_compute. split; discriminate.
  - rewrite after_timeouts_S.
    unfold LOW_REPEAT_KEY_FREQUENCY_MICRO, HIGH_REPEAT_KEY_FREQUENCY_MICRO in *.
    rewrite accelerate_in_range by lia.
    unfold HIGH_REPEAT_KEY_FREQUENCY_MICRO.
    assert (after_timeouts n * 3 / 4 <= after_timeouts n)
      by (apply Z.div_le_upper_bound; lia).
    lia.
Qed.

Lemma accelerate_high :
  accelerate HIGH_REPEAT_KEY_FREQUENCY_MICRO = HIGH_REPEAT_KEY_FREQUENCY_MICRO.
Proof. reflexivity. Qed.

Lemma after_timeouts_settled n :
  (6 <= n)%nat -> after_timeouts n = HIGH_REPEAT_KEY_FREQUENCY_MICRO.
Proof.
  induction 1 as [|n Hle IH].
  - reflexivity.
  - rewrite after_timeouts_S, IH. apply accelerate_high.
Qed.

(** A finite interval held by the thread is the low-frequency value after
    some number of timeouts. *)
Lemma interval_held_finite inf en v :
  interval_held inf en v -> v = inf \/ exists n, v = after_timeouts n.
Proof.
  induction 1 as [|w v Hheld IH Hfin].
  - left. reflexivity.
  - destruct w as [| | |key_pressed key_released]; simpl.
    + destruct IH as [->|[n ->]]; [exfalso; apply Hfin; reflexivity|].
      right. exists (S n). reflexivity.
    + left. reflexivity.
    + left. reflexivity.
    + destruct en; [|exact IH].
      destruct (any_key 8 key_released); [left; reflexivity|].
      destruct (any_key 7 key_pressed); [|exact IH].
      right. exists 0%nat. reflexivity.
Qed.

(** C7, as the code has it.  When the wait expires with the interval at
    [v], the new interval is three quarters of [v] rounded down to a whole
    number, or the high-frequency value if that is larger, and it is not
    above [v].  From the low-frequency value one timeout gives exactly
    three quarters of it; the intervals of further timeouts never grow,
    equal the high-frequency value from the sixth timeout on, and the
    high-frequency value is kept by a timeout. *)
Theorem repeat_acceleration (MX_TIME_INFINITE : Z) (repeat_enabled : bool) (v : Z) :
  interval_held MX_TIME_INFINITE repeat_enabled v ->
  v <> MX_TIME_INFINITE ->
  accelerate v
    = Z.max (Qfloor (inject_Z v * 0.75)) HIGH_REPEAT_KEY_FREQUENCY_MICRO /\
  accelerate v <= v /\
  (inject_Z (accelerate LOW_REPEAT_KEY_FREQUENCY_MICRO)
     == three_quarters_or_high LOW_REPEAT_KEY_FREQUENCY_MICRO)%Q /\
  (forall n, after_timeouts (S n) <= after_timeouts n) /\
  (forall n, (6 <= n)%nat -> after_timeouts n = HIGH_REPEAT_KEY_FREQUENCY_MICRO) /\
  accelerate HIGH_REPEAT_KEY_FREQUENCY_MICRO = HIGH_REPEAT_KEY_FREQUENCY_MICRO.
Proof.
  intros Hheld Hfin.
  assert (Hstep : forall n,
            accelerate (after_timeouts n)
              = Z.max (after_timeouts n * 3 / 4) HIGH_REPEAT_KEY_FREQUENCY_MICRO
            /\ accelerate (after_timeouts n) <= after_timeouts n).
  { intros n. pose proof (after_timeouts_range n) as Hr.
    unfold LOW_REPEAT_KEY_FREQUENCY_MICRO, HIGH_REPEAT_KEY_FREQUENCY_MICRO in Hr.
    rewrite accelerate_in_range by lia.
    split; [reflexivity|].
    unfold HIGH_REPEAT_KEY_FREQUENCY_MICRO.
    assert (after_timeouts n * 3 / 4 <= after_timeouts n)
      by (apply Z.div_le_upper_bound; lia).
    lia. }
  destruct (interval_held_finite _ _ _ Hheld) as [->|[n ->]]; [contradiction|].
  rewrite floor_three_quarters.
  split; [apply Hstep|]. split; [apply Hstep|].
  split; [reflexivity|].
  split; [intros m; rewrite after_timeouts_S; apply Hstep|].
  split; [apply after_timeouts_settled | apply accelerate_high].
Qed.

(** ** The registry *)

Section RegistryFacts.
Context `{hid_usages, vc_header, hid_keymaps, hid_fifo_capacity}.

(** *** The scans *)

Lemma scan_for_index_lookup (l : list nat) console i :
  0 <= i <= console -> i + Z.of_nat (length l) < 2 ^ 32 ->
  scan_for_index console l i = l !! Z.to_nat (console - i).
Proof.
  revert i. induction l as [|d l IH]; intros i Hi Hlen; [reflexivity|].
  cbn [scan_for_index]. cbn [length] in Hlen.
  destruct (Z.eqb_spec i console) as [->|Hne].
  - rewrite Z.sub_diag. reflexivity.
  - unfold wrap32. rewrite Z.mod_small by lia.
    rewrite IH by lia.
    assert (Hs : Z.to_nat (console - i) = S (Z.to_nat (console - (i + 1)))) by lia.
    rewrite Hs. reflexivity.
Qed.

Lemma scan_for_device_found (l : list nat) dev i :
  0 <= i -> i + Z.of_nat (length l) < 2 ^ 32 -> dev ∈ l ->
  exists j : nat,
    scan_for_device dev l i = i + Z.of_nat j /\ l !! j = Some dev /\
    (j < length l)%nat.
Proof.
  revert i. induction l as [|d l IH]; intros i Hi Hlen Hin.
  - inversion Hin.
  - cbn [scan_for_device]. cbn [length] in Hlen.
    destruct (decide (d = dev)) as [->|Hne].
    + exists 0%nat. split; [lia|]. split; [reflexivity | cbn; lia].
    + apply elem_of_cons in Hin as [Heq|Hin]; [congruence|].
      unfold wrap32. rewrite Z.mod_small by lia.
      destruct (IH (i + 1)) as (j & Hj & Hlook & Hlt); [lia | lia | exact Hin |].
      exists (S j). split; [lia|]. split; [exact Hlook | cbn; lia].
Qed.

Lemma scan_for_device_missing (l : list nat) dev i :
  0 <= i -> i + Z.of_nat (length l) < 2 ^ 32 -> dev ∉ l ->
  scan_for_device dev l i = i + Z.of_nat (length l).
Proof.
  revert i. induction l as [|d l IH]; intros i Hi Hlen Hin.
  - cbn. lia.
  - cbn [scan_for_device]. cbn [length] in *.
    apply not_elem_of_cons in Hin as [Hne Hin].
    destruct (decide (d = dev)) as [->|_]; [congruence|].
    unfold wrap32. rewrite Z.mod_small by lia.
    rewrite IH by (try lia; exact Hin). lia.
Qed.

(** *** Unlinking a node *)

Lemma elem_of_list_delete (l : list nat) vc p :
  NoDup l -> p ∈ list_delete vc l <-> p ∈ l /\ p <> vc.
Proof.
  induction 1 as [|d l Hd Hnd IH]; cbn [list_delete].
  - split; [inversion 1 | intros [Hin _]; inversion Hin].
  - destruct (decide (d = vc)) as [->|Hne].
    + rewrite elem_of_cons. split.
      * intros Hin. split; [right; exact Hin|]. intros ->. contradiction.
      * intros [[->|Hin] Hp]; [contradiction | exact Hin].
    + rewrite !elem_of_cons, IH. split.
      * intros [->|[Hin Hp]]; split; auto.
      * intros [[->|Hin] Hp]; auto.
Qed.

Lemma NoDup_list_delete (l : list nat) vc : NoDup l -> NoDup (list_delete vc l).
Proof.
  induction 1 as [|d l Hd Hnd IH]; cbn [list_delete]; [constructor|].
  destruct (decide (d = vc)); [exact Hnd|].
  constructor; [|exact IH].
  rewrite elem_of_list_delete by exact Hnd. tauto.
Qed.

Lemma length_list_delete (l : list nat) vc :
  vc ∈ l -> length l = S (length (list_delete vc l)).
Proof.
  induction l as [|d l IH]; intros Hin; [inversion Hin|].
  cbn [list_delete]. destruct (decide (d = vc)) as [->|Hne]; [reflexivity|].
  apply elem_of_cons in Hin as [Heq|Hin]; [congruence|].
  cbn [length]. rewrite (IH Hin). reflexivity.
Qed.

(** Entries before the unlinked node keep their place, entries after it
    move one place towards the head. *)
Lemma list_delete_lookup (l : list nat) vc (k : nat) :
  NoDup l -> l !! k = Some vc ->
  forall j : nat,
    list_delete vc l !! j = if (j <? k)%nat then l !! j else l !! S j.
Proof.
  intros Hnd. revert k. induction Hnd as [|d l Hd Hnd IH]; intros k Hk j.
  - discriminate Hk.
  - cbn [list_delete]. destruct k as [|k].
    + injection Hk as ->. rewrite decide_True by reflexivity. reflexivity.
    + cbn in Hk. destruct (decide (d = vc)) as [->|Hne].
      * exfalso. apply Hd. eapply list_elem_of_lookup_2. exact Hk.
      * destruct j as [|j]; [reflexivity|]. exact (IH k Hk j).
Qed.

(** *** [__vc_set_active] *)

Lemma land_clear_flag f m : Z.land (Z.land f (Z.lnot m)) m = 0.
Proof.
  rewrite <- Z.land_assoc, (Z.land_comm (Z.lnot m) m), Z.land_lnot_diag.
  apply Z.land_0_r.
Qed.

Lemma land_keep_flags f m : Z.land f m = 0 -> Z.land f (Z.lnot m) = f.
Proof.
  intros Hz. apply Z.bits_inj'. intros n Hn.
  rewrite Z.land_spec, Z.lnot_spec by exact Hn.
  assert (Hb : Z.testbit (Z.land f m) n = false) by (rewrite Hz; apply Z.bits_0).
  rewrite Z.land_spec in Hb.
  destruct (Z.testbit f n), (Z.testbit m n); simpl in *; congruence.
Qed.

Lemma __vc_set_active_defined dev index (s : vc_state) :
  (forall a, g_active_vc s = Some a -> is_Some (heap s !! a)) ->
  is_Some (heap s !! dev) ->
  exists s',
    __vc_set_active dev index s = Some s' /\
    g_vc_list s' = g_vc_list s /\
    g_vc_count s' = g_vc_count s /\
    trace s' = trace s /\
    g_active_vc s' = Some dev /\
    g_active_vc_index s' = index /\
    forall p,
      heap s' !! p =
        if decide (p = dev) then activated <$> heap s !! dev
        else if decide (g_active_vc s = Some p) then set_active false <$> heap s !! p
        else heap s !! p.
Proof.
  intros Hact [d Hd]. unfold __vc_set_active.
  destruct (g_active_vc s) as [a|] eqn:Ha.
  - destruct (Hact a eq_refl) as [da Hda]. rewrite Hda. cbn.
    destruct (decide (dev = a)) as [->|Hne].
    + rewrite lookup_insert_eq. cbn. rewrite lookup_insert_eq. cbn.
      eexists. split; [reflexivity|]. repeat split.
      intros p. cbn. destruct (decide (p = a)) as [Heq|Hp]; [rewrite Heq|].
      * rewrite lookup_insert_eq, ?Hda. reflexivity.
      * rewrite !lookup_insert_ne by congruence.
        rewrite decide_False by congruence. reflexivity.
    + rewrite lookup_insert_ne by congruence. rewrite Hd. cbn.
      rewrite lookup_insert_eq. cbn.
      eexists. split; [reflexivity|]. repeat split.
      intros p. cbn. destruct (decide (p = dev)) as [Heq|Hp]; [rewrite Heq|].
      * rewrite lookup_insert_eq, ?Hd. reflexivity.
      * rewrite !(lookup_insert_ne _ dev) by congruence.
        destruct (decide (Some a = Some p)) as [[= ->]|Hpa].
        -- rewrite lookup_insert_eq, ?Hda. reflexivity.
        -- rewrite lookup_insert_ne by congruence. reflexivity.
  - cbn. rewrite Hd. cbn. rewrite lookup_insert_eq. cbn.
    eexists. split; [reflexivity|]. repeat split.
    intros p. cbn. destruct (decide (p = dev)) as [Heq|Hp]; [rewrite Heq|].
    + rewrite lookup_insert_eq, ?Hd. reflexivity.
    + rewrite !lookup_insert_ne by congruence.
      rewrite decide_False by discriminate. reflexivity.
Qed.

Lemma consistent_settling (s : vc_state) :
  registry_consistent s -> registry_settling s.
Proof.
  intros Hc. split.
  - exact (rc_nodup _ Hc).
  - exact (rc_live _ Hc).
  - exact (rc_count _ Hc).
  - exact (rc_bound _ Hc).
  - intros p d Hin Hp Hact. apply (rc_flag _ Hc p d Hin Hp). exact Hact.
  - intros a Ha. pose proof (rc_index _ Hc) as Hidx. rewrite Ha in Hidx.
    eapply list_elem_of_lookup_2. apply Hidx.
Qed.

(** Run on a settling registry with the console found at position
    [index], [__vc_set_active] succeeds and leaves a consistent registry
    with that console Active. *)
Lemma __vc_set_active_consistent dev index (s : vc_state) :
  registry_settling s ->
  0 <= index -> g_vc_list s !! Z.to_nat index = Some dev ->
  exists s',
    __vc_set_active dev index s = Some s' /\
    registry_consistent s' /\
    g_vc_list s' = g_vc_list s /\
    trace s' = trace s /\
    g_active_vc s' = Some dev /\
    g_active_vc_index s' = index.
Proof.
  intros Hs Hidx Hdev.
  assert (Hin : dev ∈ g_vc_list s) by (eapply list_elem_of_lookup_2; exact Hdev).
  destruct (__vc_set_active_defined dev index s) as
    (s' & Hrun & Hl & Hc & Ht & Ha & Hi & Hheap).
  { intros a Ha. apply (rs_live _ Hs). apply (rs_active _ Hs). exact Ha. }
  { apply (rs_live _ Hs). exact Hin. }
  exists s'. split; [exact Hrun|]. split; [|auto].
  split.
  - rewrite Hl. exact (rs_nodup _ Hs).
  - intros p Hp. rewrite Hl in Hp. rewrite Hheap.
    destruct (rs_live _ Hs dev Hin) as [dd Hdd].
    destruct (rs_live _ Hs p Hp) as [dp Hdp].
    repeat case_decide; subst; rewrite ?Hdd, ?Hdp; cbn; eauto.
  - rewrite Hl, Hc. exact (rs_count _ Hs).
  - rewrite Hl. exact (rs_bound _ Hs).
  - intros p d Hp Hlook. rewrite Hl in Hp. rewrite Hheap in Hlook. rewrite Ha.
    destruct (decide (p = dev)) as [->|Hne].
    + destruct (heap s !! dev) as [dd|]; [|discriminate].
      injection Hlook as <-. cbn. tauto.
    + destruct (decide (g_active_vc s = Some p)) as [Hact|Hnact].
      * destruct (heap s !! p) as [dp|]; [|discriminate].
        injection Hlook as <-. cbn. split; [discriminate | congruence].
      * split; [|congruence]. intros Hflag. exfalso. apply Hnact.
        apply (rs_flag _ Hs p d Hp Hlook Hflag).
  - rewrite Ha, Hi, Hl. split; assumption.
  - intros a d Ha' Hlook. rewrite Ha in Ha'. injection Ha' as <-.
    rewrite Hheap, decide_True in Hlook by reflexivity.
    destruct (heap s !! dev) as [dd|]; [|discriminate].
    injection Hlook as <-. cbn. apply land_clear_flag.
Qed.

(** *** Changes that do not disturb the registry *)

Lemma consistent_emit e (s : vc_state) :
  registry_consistent s -> registry_consistent (emit e s).
Proof. intros [? ? ? ? ? ? ?]. split; assumption. Qed.

Lemma consistent_update p d d' (s : vc_state) :
  registry_consistent s ->
  heap s !! p = Some d ->
  active d' = active d ->
  (g_active_vc s = Some p -> Z.land (flags d') VC_FLAG_HASINPUT = 0) ->
  registry_consistent (with_heap (<[p := d']> (heap s)) s).
Proof.
  intros Hc Hp Hact Hin. split; cbn.
  - exact (rc_nodup _ Hc).
  - intros q Hq. destruct (decide (q = p)) as [->|Hne].
    + rewrite lookup_insert_eq. eauto.
    + rewrite lookup_insert_ne by congruence. exact (rc_live _ Hc q Hq).
  - exact (rc_count _ Hc).
  - exact (rc_bound _ Hc).
  - intros q dq Hq Hlook. destruct (decide (q = p)) as [->|Hne].
    + rewrite lookup_insert_eq in Hlook. injection Hlook as <-.
      rewrite Hact. exact (rc_flag _ Hc p d Hq Hp).
    + rewrite lookup_insert_ne in Hlook by congruence.
      exact (rc_flag _ Hc q dq Hq Hlook).
  - exact (rc_index _ Hc).
  - intros a da Ha Hlook. destruct (decide (a = p)) as [->|Hne].
    + rewrite lookup_insert_eq in Hlook. injection Hlook as <-. exact (Hin Ha).
    + rewrite lookup_insert_ne in Hlook by congruence.
      exact (rc_input _ Hc a da Ha Hlook).
Qed.

Lemma consistent_delete vc (s : vc_state) :
  registry_consistent s -> vc ∉ g_vc_list s ->
  registry_consistent (with_heap (delete vc (heap s)) s).
Proof.
  intros Hc Hvc. split; cbn.
  - exact (rc_nodup _ Hc).
  - intros q Hq. rewrite lookup_delete_ne by (intros ->; contradiction).
    exact (rc_live _ Hc q Hq).
  - exact (rc_count _ Hc).
  - exact (rc_bound _ Hc).
  - intros q dq Hq Hlook.
    rewrite lookup_delete_ne in Hlook by (intros ->; contradiction).
    exact (rc_flag _ Hc q dq Hq Hlook).
  - exact (rc_index _ Hc).
  - intros a da Ha Hlook. apply lookup_delete_Some in Hlook as [_ Hlook].
    exact (rc_input _ Hc a da Ha Hlook).
Qed.

Lemma consistent_initial : registry_consistent vc_initial.
Proof.
  split; cbn.
  - constructor.
  - intros p Hp. inversion Hp.
  - reflexivity.
  - reflexivity.
  - intros p d Hp. inversion Hp.
  - reflexivity.
  - intros a d Ha. discriminate Ha.
Qed.

(** *** Switching the active console *)

Lemma vc_set_active_console_consistent console (s : vc_state) :
  registry_consistent s -> 0 <= console ->
  exists r s',
    vc_set_active_console console s = Some (r, s') /\ registry_consistent s'.
Proof.
  intros Hc Hpos. unfold vc_set_active_console.
  destruct (Z.leb_spec (g_vc_count s) console) as [Hge|Hlt]; [eauto|].
  rewrite (rc_count _ Hc) in Hlt. pose proof (rc_bound _ Hc) as Hb.
  rewrite scan_for_index_lookup by lia. rewrite Z.sub_0_r.
  destruct (lookup_lt_is_Some_2 (g_vc_list s) (Z.to_nat console)) as [device Hdev];
    [lia|].
  rewrite Hdev. cbn.
  destruct (decide (Some device = g_active_vc s)); [eauto|].
  destruct (__vc_set_active_consistent device console s
              (consistent_settling _ Hc) Hpos Hdev)
    as (s1 & Hrun & Hc1 & _ & _ & Ha1 & _).
  rewrite Hrun. cbn. unfold render_active. rewrite Ha1. cbn.
  eexists _, _. split; [reflexivity|]. apply consistent_emit. exact Hc1.
Qed.

Lemma vc_set_console_to_active_consistent dev (s : vc_state) :
  registry_consistent s ->
  exists r s',
    vc_set_console_to_active dev s = Some (r, s') /\ registry_consistent s'.
Proof.
  intros Hc. destruct dev as [dev|]; cbn; [|eauto].
  pose proof (rc_bound _ Hc) as Hb.
  destruct (decide (dev ∈ g_vc_list s)) as [Hin|Hout].
  - destruct (scan_for_device_found (g_vc_list s) dev 0) as (j & Hj & Hlook & Hlt);
      [lia | lia | exact Hin |].
    rewrite Hj, (rc_count _ Hc).
    destruct (Z.eqb_spec (0 + Z.of_nat j) (Z.of_nat (length (g_vc_list s))));
      [lia|].
    destruct (__vc_set_active_consistent dev (0 + Z.of_nat j) s
                (consistent_settling _ Hc))
      as (s1 & Hrun & Hc1 & _ & _ & Ha1 & _); [lia | | ].
    { replace (Z.to_nat (0 + Z.of_nat j)) with j by lia. exact Hlook. }
    rewrite Hrun. cbn. unfold render_active. rewrite Ha1. cbn.
    eexists _, _. split; [reflexivity|]. apply consistent_emit. exact Hc1.
  - rewrite scan_for_device_missing by (try lia; exact Hout).
    rewrite (rc_count _ Hc), Z.add_0_l, Z.eqb_refl. eauto.
Qed.

(** *** Closing a console *)

Lemma release_fixup_follow (l : list nat) i a (s : vc_state) :
  g_active_vc s = Some a ->
  0 <= i -> i + Z.of_nat (length l) < 2 ^ 32 -> a ∈ l ->
  exists j : nat,
    l !! j = Some a /\ release_fixup l i s = Some (with_index (i + Z.of_nat j) s).
Proof.
  intros Ha. revert i. induction l as [|d l IH]; intros i Hi Hlen Hin.
  - inversion Hin.
  - cbn [release_fixup]. rewrite Ha. cbn [length] in Hlen.
    destruct (decide (d = a)) as [->|Hne].
    + exists 0%nat. split; [reflexivity|]. rewrite Z.add_0_r. reflexivity.
    + apply elem_of_cons in Hin as [Heq|Hin]; [congruence|].
      unfold wrap32. rewrite Z.mod_small by lia.
      destruct (IH (i + 1)) as (j & Hj & Hrun); [lia | lia | exact Hin |].
      exists (S j). split; [exact Hj|]. rewrite Hrun.
      f_equal. f_equal. lia.
Qed.

Lemma release_fixup_pick (l : list nat) i (s : vc_state) :
  g_active_vc s = None ->
  0 <= i <= g_active_vc_index s ->
  g_active_vc_index s < i + Z.of_nat (length l) ->
  i + Z.of_nat (length l) < 2 ^ 32 ->
  exists d,
    l !! Z.to_nat (g_active_vc_index s - i) = Some d /\
    release_fixup l i s = __vc_set_active d (g_active_vc_index s) s.
Proof.
  intros Ha. revert i. induction l as [|d l IH]; intros i Hi Hidx Hlen.
  - cbn [length] in Hidx. lia.
  - cbn [release_fixup]. rewrite Ha. cbn [length] in Hidx, Hlen.
    destruct (Z.eqb_spec i (g_active_vc_index s)) as [Heq|Hne].
    + exists d. rewrite Heq, Z.sub_diag. split; reflexivity.
    + unfold wrap32. rewrite Z.mod_small by lia.
      destruct (IH (i + 1)) as (d' & Hd' & Hrun); [lia | lia | lia |].
      exists d'. split; [|exact Hrun].
      assert (Hs : Z.to_nat (g_active_vc_index s - i)
                   = S (Z.to_nat (g_active_vc_index s - (i + 1)))) by lia.
      rewrite Hs. exact Hd'.
Qed.

(** The registry once the node of the Active console is unlinked and
    [g_active_vc] is cleared, whatever the index is set to. *)
Lemma settling_after_unlink vc d i (s : vc_state) :
  registry_consistent s -> vc ∈ g_vc_list s ->
  heap s !! vc = Some d -> active d = true ->
  registry_settling
    (with_index i (with_active None
       (with_list (list_delete vc (g_vc_list s))
                  (Z.of_nat (length (list_delete vc (g_vc_list s)))) s))).
Proof.
  intros Hc Hin Hd Hact.
  pose proof (rc_nodup _ Hc) as Hnd.
  split; cbn.
  - apply NoDup_list_delete. exact Hnd.
  - intros p Hp. apply elem_of_list_delete in Hp as [Hp _]; [|exact Hnd].
    exact (rc_live _ Hc p Hp).
  - reflexivity.
  - pose proof (rc_bound _ Hc). rewrite (length_list_delete _ vc Hin) in *. lia.
  - intros p dp Hp Hlook Hflag.
    apply elem_of_list_delete in Hp as [Hp Hne]; [|exact Hnd].
    apply (rc_flag _ Hc p dp Hp Hlook) in Hflag.
    apply (rc_flag _ Hc vc d Hin Hd) in Hact. congruence.
  - intros a Ha. discriminate Ha.
Qed.

(** The registry once the node of another console is unlinked, the index
    follows the Active console and the closed console is freed. *)
Lemma consistent_after_unlink vc a (j : nat) (s : vc_state) :
  registry_consistent s -> vc ∈ g_vc_list s ->
  g_active_vc s = Some a -> a <> vc ->
  list_delete vc (g_vc_list s) !! j = Some a ->
  registry_consistent
    (with_heap (delete vc (heap s))
       (with_index (Z.of_nat j)
          (with_list (list_delete vc (g_vc_list s))
                     (Z.of_nat (length (list_delete vc (g_vc_list s)))) s))).
Proof.
  intros Hc Hin Ha Hne Hj.
  pose proof (rc_nodup _ Hc) as Hnd.
  split; cbn.
  - apply NoDup_list_delete. exact Hnd.
  - intros p Hp. apply elem_of_list_delete in Hp as [Hp Hpv]; [|exact Hnd].
    rewrite lookup_delete_ne by congruence. exact (rc_live _ Hc p Hp).
  - reflexivity.
  - pose proof (rc_bound _ Hc). rewrite (length_list_delete _ vc Hin) in *. lia.
  - intros p dp Hp Hlook.
    apply elem_of_list_delete in Hp as [Hp Hpv]; [|exact Hnd].
    rewrite lookup_delete_ne in Hlook by congruence.
    exact (rc_flag _ Hc p dp Hp Hlook).
  - rewrite Ha. split; [lia|]. rewrite Nat2Z.id. exact Hj.
  - intros a' da Ha' Hlook. apply lookup_delete_Some in Hlook as [_ Hlook].
    exact (rc_input _ Hc a' da Ha' Hlook).
Qed.

(** Closing a registered console succeeds.  The list loses that console.
    If another console was Active it stays Active and is rendered.  If the
    closed console was Active and it was the last one, none is Active; if
    others remain, the console now found at the old active index, or the
    last one when the index is past the end, is Active and rendered. *)
Lemma vc_device_release_spec vc (s : vc_state) :
  registry_consistent s -> vc ∈ g_vc_list s ->
  exists s',
    vc_device_release vc s = Some (NO_ERROR, s') /\
    registry_consistent s' /\
    g_vc_list s' = list_delete vc (g_vc_list s) /\
    (g_active_vc s <> Some vc ->
       g_active_vc s' = g_active_vc s /\
       exists a, g_active_vc s = Some a /\ trace s' = trace s ++ [ev_render a]) /\
    (g_active_vc s = Some vc ->
       match g_vc_list s' with
       | [] => g_active_vc s' = None /\ trace s' = trace s
       | _ :: _ =>
           let k := Z.min (g_active_vc_index s)
                          (Z.of_nat (length (g_vc_list s')) - 1) in
           g_active_vc_index s' = k /\
           exists b, g_vc_list s' !! Z.to_nat k = Some b /\
                     g_active_vc s' = Some b /\
                     trace s' = trace s ++ [ev_render b]
       end).
Proof.
  intros Hc Hin.
  pose proof (rc_nodup _ Hc) as Hnd. pose proof (rc_bound _ Hc) as Hb.
  pose proof (length_list_delete _ vc Hin) as Hlen.
  destruct (rc_live _ Hc vc Hin) as [d Hd].
  unfold vc_device_release. rewrite Hd. cbn.
  rewrite decide_True by exact Hin.
  assert (Hcount : wrap32 (g_vc_count s - 1)
                   = Z.of_nat (length (list_delete vc (g_vc_list s)))).
  { rewrite (rc_count _ Hc), Hlen. unfold wrap32. rewrite Z.mod_small; lia. }
  rewrite Hcount.
  remember (list_delete vc (g_vc_list s)) as l' eqn:El'.
  pose proof (rc_index _ Hc) as Hidx.
  destruct (active d) eqn:Hact.
  - (* the closed console was Active *)
    assert (Ha : g_active_vc s = Some vc)
      by (apply (rc_flag _ Hc vc d Hin Hd); exact Hact).
    rewrite Ha in Hidx. destruct Hidx as [Hi0 Hi].
    assert (Hilt : g_active_vc_index s < Z.of_nat (length (g_vc_list s))).
    { apply lookup_lt_Some in Hi. lia. }
    cbn [g_vc_count g_active_vc_index with_active with_list].
    destruct l' as [|b0 l0].
    + (* it was the only one *)
      cbn [length] in *.
      destruct (Z.leb_spec (Z.of_nat 0) (g_active_vc_index s)) as [_|Hlt]; [|lia].
      cbn. eexists. split; [reflexivity|]. cbn. split; [|split; [reflexivity|]].
      * split; cbn.
        -- constructor.
        -- intros p Hp. inversion Hp.
        -- reflexivity.
        -- lia.
        -- intros p dp Hp. inversion Hp.
        -- reflexivity.
        -- intros a' da Ha'. discriminate Ha'.
      * split; [intros Hn; contradiction|]. intros _. split; reflexivity.
    + (* others remain *)
      set (k := Z.min (g_active_vc_index s) (Z.of_nat (length (b0 :: l0)) - 1)).
      assert (Hk : 0 <= k < Z.of_nat (length (b0 :: l0))) by (cbn [length] in *; lia).
      assert (Hs2 : forall s2,
                s2 = with_index k (with_active None
                       (with_list (b0 :: l0) (Z.of_nat (length (b0 :: l0))) s)) ->
                exists s',
                  (s3 ← release_fixup (g_vc_list s2) 0 s2;
                   match g_active_vc (with_heap (delete vc (heap s3)) s3) with
                   | Some a =>
                       Some (NO_ERROR, emit (ev_render a) (with_heap (delete vc (heap s3)) s3))
                   | None => Some (NO_ERROR, with_heap (delete vc (heap s3)) s3)
                   end) = Some (NO_ERROR, s') /\
                  registry_consistent s' /\
                  g_vc_list s' = b0 :: l0 /\
                  g_active_vc_index s' = k /\
                  exists b, (b0 :: l0) !! Z.to_nat k = Some b /\
                            g_active_vc s' = Some b /\
                            trace s' = trace s ++ [ev_render b]).
      { intros s2 ->.
        pose proof (settling_after_unlink vc d k s Hc Hin Hd Hact) as Hset.
        rewrite <- El' in Hset.
        destruct (release_fixup_pick (b0 :: l0) 0
                    (with_index k (with_active None
                       (with_list (b0 :: l0) (Z.of_nat (length (b0 :: l0))) s))))
          as (b & Hb0 & Hrun); [reflexivity | cbn; lia | cbn in *; lia | cbn in *; lia |].
        cbn [g_active_vc_index with_index] in Hb0, Hrun. rewrite Z.sub_0_r in Hb0.
        cbn [g_vc_list with_index with_active with_list]. rewrite Hrun.
        destruct (__vc_set_active_consistent b k _ Hset) as
          (s3 & Hrun3 & Hc3 & Hl3 & Ht3 & Ha3 & Hi3); [lia | exact Hb0 |].
        rewrite Hrun3. cbn. rewrite Ha3.
        eexists. split; [reflexivity|].
        cbn in Hl3, Ht3.
        split; [|split; [exact Hl3 | split; [exact Hi3|]]].
        - apply consistent_emit, consistent_delete; [exact Hc3|].
          rewrite Hl3, El'.
          rewrite elem_of_list_delete by exact Hnd. tauto.
        - exists b. split; [exact Hb0|]. split; [exact Ha3|].
          cbn. rewrite Ht3. reflexivity. }
      destruct (Z.leb_spec (Z.of_nat (length (b0 :: l0))) (g_active_vc_index s))
        as [Hge|Hlt].
      * assert (Hkk : wrap32 (Z.of_nat (length (b0 :: l0)) - 1) = k).
        { unfold wrap32, k. rewrite Z.mod_small; cbn [length] in *; lia. }
        cbn [g_vc_count with_active with_list]. rewrite Hkk.
        destruct (Hs2 _ eq_refl) as (s' & Hrun & Hc' & Hl' & Hi' & Hb').
        exists s'. split; [exact Hrun|]. split; [exact Hc'|]. split; [exact Hl'|].
        split; [intros Hn; contradiction|]. intros _. rewrite Hl'.
        split; [exact Hi'|]. exact Hb'.
      * assert (Hkk : g_active_vc_index s = k) by (unfold k; lia).
        assert (Hsame : with_active None
                          (with_list (b0 :: l0) (Z.of_nat (length (b0 :: l0))) s)
                        = with_index k (with_active None
                            (with_list (b0 :: l0) (Z.of_nat (length (b0 :: l0))) s))).
        { unfold with_index, with_active, with_list. cbn. f_equal. exact Hkk. }
        destruct (Hs2 _ Hsame) as (s' & Hrun & Hc' & Hl' & Hi' & Hb').
        exists s'. split; [exact Hrun|]. split; [exact Hc'|]. split; [exact Hl'|].
        split; [intros Hn; contradiction|]. intros _. rewrite Hl'.
        split; [exact Hi'|]. exact Hb'.
  - (* another console is Active *)
    assert (Hna : g_active_vc s <> Some vc).
    { intros Ha. apply (rc_flag _ Hc vc d Hin Hd) in Ha. congruence. }
    destruct (g_active_vc s) as [a|] eqn:Ha.
    2:{ rewrite Hidx in Hin. inversion Hin. }
    assert (Hav : a <> vc) by congruence.
    subst l'.
    assert (Hal : a ∈ list_delete vc (g_vc_list s)).
    { rewrite elem_of_list_delete by exact Hnd.
      split; [|exact Hav]. eapply list_elem_of_lookup_2. apply Hidx. }
    destruct (release_fixup_follow (list_delete vc (g_vc_list s)) 0 a
                (with_list (list_delete vc (g_vc_list s))
                   (Z.of_nat (length (list_delete vc (g_vc_list s)))) s))
      as (j & Hj & Hrun); [exact Ha | lia | lia | exact Hal |].
    cbn [g_vc_list with_list]. rewrite Hrun. cbn. rewrite Ha.
    eexists. split; [reflexivity|]. rewrite Z.add_0_l.
    split; [|split; [reflexivity|]].
    + apply consistent_emit.
      exact (consistent_after_unlink vc a j s Hc Hin Ha Hav Hj).
    + split; [|intros Hn; congruence].
      intros _. cbn. split; [exact Ha|]. exists a. split; reflexivity.
Qed.

(** *** Opening a console *)

#[local] Arguments __vc_set_active : simpl never.

Lemma consistent_alloc device d0 (s : vc_state) :
  registry_consistent s -> heap s !! device = None ->
  registry_consistent (with_heap (<[device := d0]> (heap s)) s).
Proof.
  intros Hc Hfresh.
  assert (Hout : forall p, p ∈ g_vc_list s -> p <> device).
  { intros p Hp ->. destruct (rc_live _ Hc device Hp) as [d Hd]. congruence. }
  split; cbn.
  - exact (rc_nodup _ Hc).
  - intros p Hp. rewrite lookup_insert_ne by (intros <-; exact (Hout _ Hp eq_refl)).
    exact (rc_live _ Hc p Hp).
  - exact (rc_count _ Hc).
  - exact (rc_bound _ Hc).
  - intros p d Hp Hlook.
    rewrite lookup_insert_ne in Hlook by (intros <-; exact (Hout _ Hp eq_refl)).
    exact (rc_flag _ Hc p d Hp Hlook).
  - exact (rc_index _ Hc).
  - intros a d Ha Hlook.
    assert (Hal : a ∈ g_vc_list s).
    { pose proof (rc_index _ Hc) as Hidx. rewrite Ha in Hidx.
      eapply list_elem_of_lookup_2. apply Hidx. }
    rewrite lookup_insert_ne in Hlook by (intros <-; exact (Hout _ Hal eq_refl)).
    exact (rc_input _ Hc a d Ha Hlook).
Qed.

Lemma vc_root_open_consistent alloc parent added (s : vc_state) :
  registry_consistent s ->
  match alloc with
  | inl _ => True
  | inr (device, d0) =>
      heap s !! device = None /\ active d0 = false /\ g_vc_count s + 1 < 2 ^ 32
  end ->
  exists r s',
    vc_root_open alloc parent added s = Some (r, s') /\ registry_consistent s'.
Proof.
  intros Hc Halloc. destruct alloc as [status|[device d0]]; cbn; [eauto|].
  destruct Halloc as (Hfresh & Hd0 & Hroom).
  assert (Hout : device ∉ g_vc_list s).
  { intros Hin. destruct (rc_live _ Hc device Hin) as [d Hd]. congruence. }
  pose proof (consistent_alloc device d0 s Hc Hfresh) as Hc0.
  destruct (parent && negb (bool_decide (added = NO_ERROR))).
  { eexists _, _. split; [reflexivity|].
    apply (consistent_delete device _ Hc0). exact Hout. }
  pose proof (rc_count _ Hc) as Hcount.
  assert (Hwrap : wrap32 (g_vc_count s + 1)
                  = Z.of_nat (length (g_vc_list s ++ [device]))).
  { rewrite length_app. cbn [length]. unfold wrap32.
    rewrite Z.mod_small; lia. }
  rewrite Hwrap.
  pose proof (rc_index _ Hc) as Hidx.
  destruct (g_active_vc s) as [a|] eqn:Ha.
  - (* a console is Active already *)
    eexists _, _. split; [reflexivity|]. apply consistent_emit.
    destruct Hidx as [Hi0 Hi].
    split; cbn.
    + apply NoDup_app. split; [exact (rc_nodup _ Hc)|]. split; [|apply NoDup_singleton].
      intros p Hp Hp'. apply list_elem_of_singleton in Hp'. congruence.
    + intros p Hp. apply elem_of_app in Hp as [Hp|Hp].
      * apply (rc_live _ Hc0). exact Hp.
      * apply list_elem_of_singleton in Hp as ->. rewrite lookup_insert_eq. eauto.
    + reflexivity.
    + rewrite length_app. cbn [length]. lia.
    + intros p d Hp Hlook. apply elem_of_app in Hp as [Hp|Hp].
      * exact (rc_flag _ Hc0 p d Hp Hlook).
      * apply list_elem_of_singleton in Hp as ->.
        rewrite lookup_insert_eq in Hlook. injection Hlook as <-.
        rewrite Hd0, Ha. split; [discriminate|]. intros [= ->].
        exfalso. apply Hout. eapply list_elem_of_lookup_2. exact Hi.
    + rewrite Ha. split; [exact Hi0|].
      rewrite lookup_app_l by (apply lookup_lt_Some in Hi; exact Hi). exact Hi.
    + intros a' d Ha' Hlook. apply (rc_input _ Hc0 a' d); cbn; congruence.
  - (* the first console *)
    rewrite Hidx in *. cbn [app length] in *.
    unfold vc_set_active_console. cbn.
    destruct (__vc_set_active_consistent device 0
                (with_list [device] (Z.of_nat 1)
                   (with_heap (<[device := d0]> (heap s)) s)))
      as (s1 & Hrun & Hc1 & _ & _ & Ha1 & _); [| lia | reflexivity |].
    { split; cbn.
      - apply NoDup_singleton.
      - intros p Hp. apply list_elem_of_singleton in Hp as ->.
        rewrite lookup_insert_eq. eauto.
      - reflexivity.
      - lia.
      - intros p d Hp Hlook Hflag. apply list_elem_of_singleton in Hp as ->.
        rewrite lookup_insert_eq in Hlook. congruence.
      - intros a Ha'. congruence. }
    rewrite Ha. rewrite decide_False by discriminate.
    rewrite Hrun. cbn. unfold render_active. rewrite Ha1. cbn.
    eexists _, _. split; [reflexivity|]. apply consistent_emit. exact Hc1.
Qed.

(** *** Device I/O *)

Lemma vc_device_write_consistent vc count (s : vc_state) r s' :
  registry_consistent s ->
  vc_device_write vc count s = Some (r, s') -> registry_consistent s'.
Proof.
  intros Hc. unfold vc_device_write.
  destruct (heap s !! vc) as [d|] eqn:Hd; cbn; [|discriminate].
  destruct (negb (active d)) eqn:Hact; cbn.
  2:{ intros [= _ <-]. exact Hc. }
  destruct (negb (c_true (Z.land (flags d) VC_FLAG_HASINPUT)));
    intros [= _ <-]; [|exact Hc].
  apply consistent_emit.
  apply (consistent_update vc d _ s Hc Hd); [reflexivity|].
  intros Ha. exfalso.
  assert (Hin : vc ∈ g_vc_list s).
  { pose proof (rc_index _ Hc) as Hidx. rewrite Ha in Hidx.
    eapply list_elem_of_lookup_2. apply Hidx. }
  apply (rc_flag _ Hc vc d Hin Hd) in Ha. rewrite Ha in Hact. discriminate.
Qed.

Lemma vc_device_read_consistent dev count (s : vc_state) r buf s' :
  registry_consistent s ->
  vc_device_read dev count s = Some (r, buf, s') -> registry_consistent s'.
Proof.
  intros Hc. unfold vc_device_read.
  destruct (heap s !! dev) as [d|] eqn:Hd; cbn; [|discriminate].
  intros [= _ _ <-].
  apply (consistent_update dev d _ s Hc Hd).
  - destruct (mx_hid_fifo_size _ =? 0); reflexivity.
  - intros Ha.
    destruct (mx_hid_fifo_size _ =? 0); cbn; exact (rc_input _ Hc dev d Ha Hd).
Qed.

(** *** Key presses *)

Variable vc_device_rows : vc_device_t -> Z.

#[local] Arguments hid_key_to_ansi_code : simpl never.
#[local] Arguments mx_hid_fifo_write : simpl never.

Lemma wrap32_nonneg z : 0 <= wrap32 z.
Proof. unfold wrap32. apply Z.mod_pos_bound. reflexivity. Qed.

Ltac switch_console Hc :=
  match goal with
  | |- context [vc_set_active_console ?c ?s] =>
      let r := fresh "r" in
      let s1 := fresh "s1" in
      let Hrun := fresh "Hrun" in
      let Hc1 := fresh "Hc1" in
      destruct (vc_set_active_console_consistent c s Hc) as (r & s1 & Hrun & Hc1);
      [ first [ apply wrap32_nonneg | reflexivity ]
      | rewrite Hrun; cbn; intros [= <- <-]; split; [exact Hc1 | discriminate] ]
  end.

Lemma vc_handle_control_keys_consistent dmctl keycode modifiers (s : vc_state) b s' :
  registry_consistent s ->
  vc_handle_control_keys vc_device_rows dmctl keycode modifiers s = Some (b, s') ->
  registry_consistent s' /\ (b = false -> s' = s).
Proof.
  intros Hc. unfold vc_handle_control_keys.
  assert (Hsame : Some (false, s) = Some (b, s') ->
                  registry_consistent s' /\ (b = false -> s' = s)).
  { intros [= <- <-]. split; [exact Hc | reflexivity]. }
  assert (Hemit : forall e, Some (true, emit e s) = Some (b, s') ->
                  registry_consistent s' /\ (b = false -> s' = s)).
  { intros e [= <- <-]. split; [apply consistent_emit; exact Hc | discriminate]. }
  destruct (_ && _).
  { destruct (c_true _); [|exact Hsame]. switch_console Hc. }
  destruct (keycode =? HID_USAGE_KEY_F11).
  { destruct (g_active_vc s) as [a|]; [|exact Hsame].
    destruct (c_true _); [|exact Hsame].
    destruct (heap s !! a); cbn; [apply Hemit | discriminate]. }
  destruct (keycode =? HID_USAGE_KEY_TAB).
  { destruct (c_true (Z.land modifiers MOD_ALT)); [|exact Hsame].
    destruct (c_true _).
    - destruct (_ =? _); switch_console Hc.
    - destruct (_ =? _); switch_console Hc. }
  destruct (keycode =? HID_USAGE_KEY_UP).
  { destruct (c_true _); [apply Hemit | exact Hsame]. }
  destruct (keycode =? HID_USAGE_KEY_DOWN).
  { destruct (c_true _); [apply Hemit | exact Hsame]. }
  destruct (keycode =? HID_USAGE_KEY_PAGEUP).
  { destruct (c_true _); [|exact Hsame].
    destruct (g_active_vc s) as [a|]; cbn; [|discriminate].
    destruct (heap s !! a); cbn; [apply Hemit | discriminate]. }
  destruct (keycode =? HID_USAGE_KEY_PAGEDOWN).
  { destruct (c_true _); [|exact Hsame].
    destruct (g_active_vc s) as [a|]; cbn; [|discriminate].
    destruct (heap s !! a); cbn; [apply Hemit | discriminate]. }
  destruct (keycode =? HID_USAGE_KEY_DELETE); [|exact Hsame].
  destruct (_ && _); [|exact Hsame].
  destruct dmctl; [apply Hemit|].
  intros [= <- <-]. split; [exact Hc | discriminate].
Qed.

(** The two flag bits are different bits. *)
Hypothesis flag_bits_differ : Z.land VC_FLAG_RESETSCROLL VC_FLAG_HASINPUT = 0.

Lemma vc_handle_key_press_consistent dmctl keycode modifiers (s s' : vc_state) :
  registry_consistent s ->
  vc_handle_key_press vc_device_rows dmctl keycode modifiers s = Some s' ->
  registry_consistent s'.
Proof.
  intros Hc. unfold vc_handle_key_press.
  destruct (vc_handle_control_keys _ _ _ _ _) as [[b s0]|] eqn:Hkeys; cbn;
    [|discriminate].
  destruct (vc_handle_control_keys_consistent _ _ _ _ _ _ Hc Hkeys) as [Hc0 Hs0].
  destruct b; [intros [= <-]; exact Hc0|].
  destruct (g_active_vc s0) as [a|] eqn:Ha; cbn; [|discriminate].
  destruct (heap s0 !! a) as [d|] eqn:Hd; cbn; [|discriminate].
  destruct (hid_key_to_ansi_code _ _ _ _ _) as [len output].
  intros [= <-].
  pose proof (rc_input _ Hc0 a d Ha Hd) as Hin.
  assert (Hfl : forall d1,
            d1 = (if mx_hid_fifo_size (fifo d) =? 0
                  then set_flags (Z.lor (flags d) VC_FLAG_RESETSCROLL) d else d) ->
            active d1 = active d /\ Z.land (flags d1) VC_FLAG_HASINPUT = 0).
  { intros d1 ->. destruct (_ =? 0); cbn; [|auto].
    split; [reflexivity|].
    rewrite Z.land_lor_distr_l, Hin, flag_bits_differ. reflexivity. }
  destruct (Hfl _ eq_refl) as [Hact Hflag].
  apply (consistent_update a d _ s0 Hc0 Hd).
  - destruct (0 <? len); cbn; exact Hact.
  - intros _. destruct (0 <? len); cbn; exact Hflag.
Qed.

(** *** Every run keeps the registry consistent *)

Lemma vc_step_consistent (s s' : vc_state) :
  registry_consistent s -> vc_step vc_device_rows s s' -> registry_consistent s'.
Proof.
  intros Hc Hstep. destruct Hstep as
    [ device d0 parent added r s' Hfresh Hd0 Hroom Hrun
    | status parent added r s' Hrun
    | dev r s' Hrun
    | console r s' Hrange Hrun
    | vc r s' Hrun
    | vc count r s' Hrun
    | dev count r buf s' Hrun
    | dmctl keycode modifiers s' Hrun ].
  - destruct (vc_root_open_consistent (inr (device, d0)) parent added s Hc)
      as (r' & s'' & Hrun' & Hc'); [auto|]. congruence.
  - cbn in Hrun. congruence.
  - destruct (vc_set_console_to_active_consistent dev s Hc)
      as (r' & s'' & Hrun' & Hc'). congruence.
  - destruct (vc_set_active_console_consistent console s Hc)
      as (r' & s'' & Hrun' & Hc'); [lia|]. congruence.
  - destruct (decide (vc ∈ g_vc_list s)) as [Hin|Hout].
    + destruct (vc_device_release_spec vc s Hc Hin) as (s'' & Hrun' & Hc' & _).
      congruence.
    + unfold vc_device_release in Hrun.
      destruct (heap s !! vc); cbn in Hrun; [|discriminate].
      rewrite decide_False in Hrun by exact Hout. discriminate.
  - exact (vc_device_write_consistent _ _ _ _ _ Hc Hrun).
  - exact (vc_device_read_consistent _ _ _ _ _ _ Hc Hrun).
  - exact (vc_handle_key_press_consistent _ _ _ _ _ Hc Hrun).
Qed.

Lemma reachable_consistent (s : vc_state) :
  reachable vc_device_rows s -> registry_consistent s.
Proof.
  unfold reachable. intros Hrun.
  apply (rtc_ind_r (R := vc_step vc_device_rows)
           (fun s => registry_consistent s) vc_initial); [| |exact Hrun].
  - apply consistent_initial.
  - intros s1 s2 _ Hstep IH. exact (vc_step_consistent _ _ IH Hstep).
Qed.

Lemma consistent_invariant (s : vc_state) :
  registry_consistent s -> registry_invariant s.
Proof.
  intros Hc. pose proof (rc_index _ Hc) as Hidx.
  pose proof (rc_count _ Hc) as Hcount.
  split.
  - intros Hzero. rewrite Hzero in Hcount.
    destruct (g_vc_list s) as [|p l] eqn:Hl; [|cbn in Hcount; lia].
    split.
    + destruct (g_active_vc s); [|reflexivity].
      destruct Hidx as [_ Hidx]. rewrite lookup_nil in Hidx. discriminate.
    + intros p Hp. inversion Hp.
  - intros Hpos.
    destruct (g_active_vc s) as [a|] eqn:Ha.
    2:{ rewrite Hidx in Hcount. cbn in Hcount. lia. }
    destruct Hidx as [Hi0 Hi].
    assert (Hin : a ∈ g_vc_list s) by (eapply list_elem_of_lookup_2; exact Hi).
    destruct (rc_live _ Hc a Hin) as [d Hd].
    exists a. split; [reflexivity|]. split; [exact Hin|].
    split; [|split].
    + exists d. split; [exact Hd|]. apply (rc_flag _ Hc a d Hin Hd). exact Ha.
    + intros p Hp (dp & Hdp & Hflag).
      apply (rc_flag _ Hc p dp Hp Hdp) in Hflag. congruence.
    + apply lookup_lt_Some in Hi. lia.
Qed.

(** C1.  In every state a run of the driver reaches - through opening a
    console, making a console active by handle or by index, closing a
    console, and also through reads, writes and key presses - the registry
    invariant holds: with a count of 0 no console is Active; with a
    positive count exactly one registered console carries the Active flag,
    [g_active_vc] is its address, and the active index lies in
    [0, count). *)
Theorem registry_invariant_reachable (s : vc_state) :
  reachable vc_device_rows s -> registry_invariant s.
Proof.
  intros Hrun. apply consistent_invariant, reachable_consistent. exact Hrun.
Qed.

(** *** The replacement policy *)

Lemma reachable_active_listed (s : vc_state) a :
  registry_consistent s -> g_active_vc s = Some a ->
  0 <= g_active_vc_index s /\
  g_vc_list s !! Z.to_nat (g_active_vc_index s) = Some a /\ a ∈ g_vc_list s.
Proof.
  intros Hc Ha. pose proof (rc_index _ Hc) as Hidx. rewrite Ha in Hidx.
  destruct Hidx as [Hi0 Hi]. split; [exact Hi0|]. split; [exact Hi|].
  eapply list_elem_of_lookup_2. exact Hi.
Qed.

Lemma consistent_marked (s : vc_state) a :
  registry_consistent s -> g_active_vc s = Some a -> marked_active s a.
Proof.
  intros Hc Ha. destruct (reachable_active_listed s a Hc Ha) as (_ & _ & Hin).
  destruct (rc_live _ Hc a Hin) as [d Hd].
  exists d. split; [exact Hd|]. apply (rc_flag _ Hc a d Hin Hd). exact Ha.
Qed.

Lemma release_active_general (s : vc_state) vc :
  registry_consistent s ->
  g_active_vc s = Some vc -> list_delete vc (g_vc_list s) <> [] ->
  exists s' b,
    vc_device_release vc s = Some (NO_ERROR, s') /\
    g_vc_list s' = list_delete vc (g_vc_list s) /\
    g_active_vc s' = Some b /\
    marked_active s' b /\
    (forall p, p ∈ g_vc_list s' -> marked_active s' p -> p = b) /\
    trace s' = trace s ++ [ev_render b] /\
    (g_active_vc_index s < Z.of_nat (length (g_vc_list s')) ->
       g_vc_list s' !! Z.to_nat (g_active_vc_index s) = Some b /\
       g_active_vc_index s' = g_active_vc_index s) /\
    (Z.of_nat (length (g_vc_list s')) <= g_active_vc_index s ->
       last (g_vc_list s') = Some b /\
       g_active_vc_index s' = g_vc_count s' - 1).
Proof.
  intros Hc Ha Hrest.
  destruct (reachable_active_listed s vc Hc Ha) as (Hi0 & Hi & Hin).
  destruct (vc_device_release_spec vc s Hc Hin) as (s' & Hrun & Hc' & Hl & _ & Hact).
  specialize (Hact Ha).
  destruct (g_vc_list s') as [|b0 l0] eqn:El; [congruence|].
  cbv zeta in Hact. destruct Hact as (Hk & b & Hb & Hab & Ht).
  exists s', b. split; [exact Hrun|]. split; [rewrite El; exact Hl|].
  split; [exact Hab|]. split; [exact (consistent_marked s' b Hc' Hab)|].
  split.
  { intros p Hp (dp & Hdp & Hflag).
    apply (rc_flag _ Hc' p dp Hp Hdp) in Hflag. congruence. }
  split; [exact Ht|].
  rewrite El. split.
  - intros Hlt. rewrite Z.min_l in Hk, Hb by lia. split; [exact Hb | exact Hk].
  - intros Hge. rewrite Z.min_r in Hk, Hb by lia.
    rewrite last_lookup. split.
    + replace (Nat.pred (length (b0 :: l0)))
        with (Z.to_nat (Z.of_nat (length (b0 :: l0)) - 1)) by (cbn [length]; lia).
      exact Hb.
    + rewrite Hk, (rc_count _ Hc'), El. reflexivity.
Qed.

(** C2.  With consoles [A; B; C] registered in this order and [B] Active,
    closing [B] leaves [A; C] with [C] - the entry now at index 1 - Active
    and rendered.  In general, closing the Active console while others
    remain makes Active the console that the remaining list holds at the
    old active index, or the last remaining console (index count - 1)
    when no entry has that index; that console is then rendered. *)
Theorem release_replacement_policy :
  (forall (s : vc_state) A B C,
     reachable vc_device_rows s ->
     g_vc_list s = [A; B; C] -> g_active_vc s = Some B ->
     g_active_vc_index s = 1 /\
     exists s',
       vc_device_release B s = Some (NO_ERROR, s') /\
       g_vc_list s' = [A; C] /\
       g_active_vc s' = Some C /\
       marked_active s' C /\
       g_active_vc_index s' = 1 /\
       trace s' = trace s ++ [ev_render C]) /\
  (forall (s : vc_state) vc,
     reachable vc_device_rows s ->
     g_active_vc s = Some vc -> list_delete vc (g_vc_list s) <> [] ->
     exists s' b,
       vc_device_release vc s = Some (NO_ERROR, s') /\
       g_vc_list s' = list_delete vc (g_vc_list s) /\
       g_active_vc s' = Some b /\
       marked_active s' b /\
       (forall p, p ∈ g_vc_list s' -> marked_active s' p -> p = b) /\
       trace s' = trace s ++ [ev_render b] /\
       (g_active_vc_index s < Z.of_nat (length (g_vc_list s')) ->
          g_vc_list s' !! Z.to_nat (g_active_vc_index s) = Some b /\
          g_active_vc_index s' = g_active_vc_index s) /\
       (Z.of_nat (length (g_vc_list s')) <= g_active_vc_index s ->
          last (g_vc_list s') = Some b /\
          g_active_vc_index s' = g_vc_count s' - 1)).
Proof.
  split.
  - intros s A B C Hrun Hl Ha.
    pose proof (reachable_consistent s Hrun) as Hc.
    destruct (reachable_active_listed s B Hc Ha) as (Hi0 & Hi & _).
    pose proof (rc_nodup _ Hc) as Hnd. rewrite Hl in Hnd, Hi.
    assert (Hone : Z.to_nat (g_active_vc_index s) = 1%nat).
    { apply (NoDup_lookup _ _ _ B Hnd Hi). reflexivity. }
    assert (Hidx : g_active_vc_index s = 1) by lia.
    split; [exact Hidx|].
    assert (HAB : A <> B).
    { apply NoDup_cons in Hnd as [Hnd _]. intros ->. apply Hnd. left. }
    assert (Hdel : list_delete B (g_vc_list s) = [A; C]).
    { rewrite Hl. cbn. rewrite decide_False by exact HAB.
      rewrite decide_True by reflexivity. reflexivity. }
    destruct (release_active_general s B Hc Ha) as
      (s' & b & Hrun' & Hl' & Hb & Hm & _ & Ht & Hlt & _); [rewrite Hdel; discriminate|].
    rewrite Hdel in Hl'. rewrite Hl', Hidx in Hlt.
    destruct Hlt as [Hlook Hidx']; [cbn; lia|].
    cbn in Hlook. injection Hlook as <-.
    exists s'. repeat split; assumption.
  - intros s vc Hrun. apply release_active_general.
    apply reachable_consistent. exact Hrun.
Qed.

(** *** Making the Active console active again *)

Lemma vc_state_eq (s s' : vc_state) :
  heap s' = heap s -> g_vc_list s' = g_vc_list s -> g_vc_count s' = g_vc_count s ->
  g_active_vc s' = g_active_vc s -> g_active_vc_index s' = g_active_vc_index s ->
  trace s' = trace s -> s' = s.
Proof. destruct s, s'. cbn. intros. subst. reflexivity. Qed.

Lemma activated_idle d :
  active d = true -> Z.land (flags d) VC_FLAG_HASINPUT = 0 -> activated d = d.
Proof.
  intros Hact Hfl. destruct d as [act fl ff km rd]. cbn in *. subst act.
  unfold activated, set_flags, set_active. cbn.
  rewrite (land_keep_flags _ _ Hfl). reflexivity.
Qed.

Lemma __vc_set_active_idle (s : vc_state) X :
  registry_consistent s -> g_active_vc s = Some X ->
  __vc_set_active X (g_active_vc_index s) s = Some s.
Proof.
  intros Hc Ha.
  destruct (reachable_active_listed s X Hc Ha) as (_ & _ & Hin).
  destruct (rc_live _ Hc X Hin) as [d Hd].
  destruct (__vc_set_active_defined X (g_active_vc_index s) s)
    as (s' & Hrun & Hl & Hn & Ht & Ha' & Hi & Hheap).
  { intros a Ha2. rewrite Ha in Ha2. injection Ha2 as <-. eauto. }
  { eauto. }
  rewrite Hrun. f_equal. apply vc_state_eq; try assumption; [|congruence].
  apply map_eq. intros p. rewrite Hheap.
  destruct (decide (p = X)) as [->|Hne].
  - rewrite Hd. cbn. f_equal. apply activated_idle.
    + apply (rc_flag _ Hc X d Hin Hd). exact Ha.
    + exact (rc_input _ Hc X d Ha Hd).
  - rewrite decide_False by congruence. reflexivity.
Qed.

(** The two entry points on the console [X] that is Active already:
    by index the call is a complete no-op - success, the state and the
    trace untouched; by handle it also succeeds and leaves every registry
    and console field as it was, but the renderer is called for [X]. *)
Lemma set_active_again (s : vc_state) X :
  reachable vc_device_rows s -> g_active_vc s = Some X ->
  vc_set_active_console (g_active_vc_index s) s = Some (NO_ERROR, s) /\
  vc_set_console_to_active (Some X) s = Some (NO_ERROR, emit (ev_render X) s).
Proof.
  intros Hrun Ha. pose proof (reachable_consistent s Hrun) as Hc.
  destruct (reachable_active_listed s X Hc Ha) as (Hi0 & Hi & Hin).
  pose proof (rc_bound _ Hc) as Hb. pose proof (rc_count _ Hc) as Hcount.
  pose proof (lookup_lt_Some _ _ _ Hi) as Hlt.
  split.
  - unfold vc_set_active_console.
    destruct (Z.leb_spec (g_vc_count s) (g_active_vc_index s)); [lia|].
    rewrite scan_for_index_lookup by lia. rewrite Z.sub_0_r, Hi. cbn.
    rewrite decide_True by congruence. reflexivity.
  - cbn.
    destruct (scan_for_device_found (g_vc_list s) X 0) as (j & Hj & Hlook & Hjlt);
      [lia | lia | exact Hin |].
    assert (Hsame : j = Z.to_nat (g_active_vc_index s))
      by exact (NoDup_lookup _ _ _ X (rc_nodup _ Hc) Hlook Hi).
    rewrite Hj.
    destruct (Z.eqb_spec (0 + Z.of_nat j) (g_vc_count s)); [lia|].
    replace (0 + Z.of_nat j) with (g_active_vc_index s) by lia.
    rewrite (__vc_set_active_idle s X Hc Ha). cbn.
    unfold render_active. rewrite Ha. reflexivity.
Qed.

End RegistryFacts.

(** ** The FIFO, key presses and reads *)

Section KeyFacts.
Context `{hid_usages, vc_header, hid_keymaps, hid_fifo_capacity}.
Variable vc_device_rows : vc_device_t -> Z.

Lemma hid_key_to_ansi_code_length keycode modifiers (keymap : keychar_t) buf :
  length buf = 4%nat ->
  0 <= fst (hid_key_to_ansi_code keycode modifiers keymap buf 4) <= 4 /\
  length (snd (hid_key_to_ansi_code keycode modifiers keymap buf 4)) = 4%nat.
Proof.
  intros Hlen. unfold hid_key_to_ansi_code.
  change (negb (4 =? 4)) with false. cbv iota zeta.
  repeat match goal with
  | |- context [if ?c then _ else _] => destruct c
  end; cbn [fst snd]; rewrite ?length_insert; split; (lia || exact Hlen).
Qed.

Lemma ansi_bytes_length keycode modifiers (keymap : keychar_t) buf :
  length buf = 4%nat ->
  Z.of_nat (length (ansi_bytes keycode modifiers keymap buf))
    = fst (hid_key_to_ansi_code keycode modifiers keymap buf 4).
Proof.
  intros Hlen. unfold ansi_bytes.
  pose proof (hid_key_to_ansi_code_length keycode modifiers keymap buf Hlen) as [Hr Hl].
  destruct (hid_key_to_ansi_code keycode modifiers keymap buf 4) as [len out].
  cbn [fst snd] in *. rewrite length_take. lia.
Qed.

Lemma mx_hid_fifo_write_full (f : mx_hid_fifo_t) buf len :
  mx_hid_fifo_free f < len ->
  mx_hid_fifo_write f buf len = (Status ERR_SHOULD_WAIT, f).
Proof.
  intros Hfull. unfold mx_hid_fifo_write.
  destruct (Z.ltb_spec (mx_hid_fifo_free f) len); [reflexivity | lia].
Qed.

Lemma mx_hid_fifo_write_room (f : mx_hid_fifo_t) buf len :
  len <= mx_hid_fifo_free f ->
  mx_hid_fifo_write f buf len
    = (Bytes len, {| fifo_data := fifo_data f ++ take (Z.to_nat len) buf |}).
Proof.
  intros Hroom. unfold mx_hid_fifo_write.
  destruct (Z.ltb_spec (mx_hid_fifo_free f) len); [lia | reflexivity].
Qed.

Lemma vc_handle_control_keys_passes dmctl keycode modifiers (s s' : vc_state) :
  vc_handle_control_keys vc_device_rows dmctl keycode modifiers s = Some (false, s') ->
  s' = s.
Proof.
  unfold vc_handle_control_keys.
  repeat (match goal with
  | |- context [if ?c then _ else _] => destruct c
  | |- context [match g_active_vc s with _ => _ end] => destruct (g_active_vc s)
  | |- context [mbind _ ?o] => destruct o as [[? ?]|]
  | |- context [mbind _ ?o] => destruct o as [?|]
  end; cbn [mbind option_bind]);
  intros E; simplify_eq; reflexivity.
Qed.

(** C3.  A write into the FIFO is all or nothing: with less free space
    than the sequence is long, nothing is enqueued and the FIFO is as
    before - so for three bytes into a FIFO with two free bytes; otherwise
    the whole sequence is appended.  A key press that goes to the active
    console leaves its FIFO either untouched or extended by the complete
    byte sequence of the key, never by a part of it; no other console
    changes. *)
Theorem keystroke_write_all_or_nothing :
  (forall (f : mx_hid_fifo_t) buf len,
     0 <= len <= Z.of_nat (length buf) ->
     (mx_hid_fifo_free f < len ->
        snd (mx_hid_fifo_write f buf len) = f /\
        fst (mx_hid_fifo_write f buf len) = Status ERR_SHOULD_WAIT) /\
     (len <= mx_hid_fifo_free f ->
        fifo_data (snd (mx_hid_fifo_write f buf len))
          = fifo_data f ++ take (Z.to_nat len) buf /\
        mx_hid_fifo_size (snd (mx_hid_fifo_write f buf len))
          = mx_hid_fifo_size f + len)) /\
  (forall (f : mx_hid_fifo_t) b0 b1 b2,
     mx_hid_fifo_free f = 2 ->
     snd (mx_hid_fifo_write f [b0; b1; b2] 3) = f) /\
  (forall dmctl keycode modifiers (s s0 : vc_state) a d,
     vc_handle_control_keys vc_device_rows dmctl keycode modifiers s = Some (false, s0) ->
     g_active_vc s = Some a -> heap s !! a = Some d ->
     let sequence := ansi_bytes keycode modifiers (keymap d) output_array in
     exists d',
       vc_handle_key_press vc_device_rows dmctl keycode modifiers s
         = Some (with_heap (<[a := d']> (heap s)) s) /\
       (mx_hid_fifo_free (fifo d) < Z.of_nat (length sequence) ->
          fifo d' = fifo d) /\
       (Z.of_nat (length sequence) <= mx_hid_fifo_free (fifo d) ->
          fifo_data (fifo d') = fifo_data (fifo d) ++ sequence)).
Proof.
  split; [|split].
  - intros f buf len Hlen. split.
    + intros Hfull. rewrite mx_hid_fifo_write_full by exact Hfull. split; reflexivity.
    + intros Hroom. rewrite mx_hid_fifo_write_room by exact Hroom. cbn [snd].
      split; [reflexivity|].
      unfold mx_hid_fifo_size. cbn [fifo_data].
      rewrite length_app, length_take. lia.
  - intros f b0 b1 b2 Hfree. rewrite mx_hid_fifo_write_full by lia. reflexivity.
  - intros dmctl keycode modifiers s s0 a d Hkeys Ha Hd sequence.
    pose proof (vc_handle_control_keys_passes _ _ _ _ _ Hkeys) as ->.
    unfold vc_handle_key_press. rewrite Hkeys. cbn [mbind option_bind].
    rewrite Ha. cbn [mbind option_bind]. rewrite Hd. cbn [mbind option_bind].
    set (d1 := if mx_hid_fifo_size (fifo d) =? 0
               then set_flags (Z.lor (flags d) VC_FLAG_RESETSCROLL) d else d).
    assert (Hd1 : fifo d1 = fifo d /\ keymap d1 = keymap d).
    { unfold d1. destruct (_ =? 0); split; reflexivity. }
    destruct Hd1 as [Hf1 Hk1].
    pose proof (ansi_bytes_length keycode modifiers (keymap d) output_array eq_refl)
      as Hseq.
    fold sequence in Hseq. unfold sequence, ansi_bytes in *. rewrite Hk1.
    destruct (hid_key_to_ansi_code keycode modifiers (keymap d) output_array 4)
      as [len out]. cbn [fst] in Hseq. rewrite Hseq.
    eexists. split; [reflexivity|].
    destruct (Z.ltb_spec 0 len) as [Hpos|Hzero].
    + cbn [fifo set_readable set_fifo]. rewrite Hf1. split.
      * intros Hfull. rewrite mx_hid_fifo_write_full by exact Hfull. reflexivity.
      * intros Hroom. rewrite mx_hid_fifo_write_room by exact Hroom. reflexivity.
    + rewrite Hf1. split; [reflexivity|]. intros _.
      assert (Hnil : take (Z.to_nat len) out = []).
      { apply length_zero_iff_nil. lia. }
      rewrite Hnil, app_nil_r. reflexivity.
Qed.

(** C6, as the code has it.  Delete with CTRL and ALT both held is taken
    by the interceptor: the key press returns straight after it, no
    console and no FIFO changes, and the reboot request is written to the
    control channel whenever that channel could be opened. *)
Theorem ctrl_alt_delete_intercepted dmctl modifiers (s : vc_state) :
  Z.land modifiers MOD_CTRL <> 0 ->
  Z.land modifiers MOD_ALT <> 0 ->
  NoDup control_switch_labels ->
  ~ (HID_USAGE_KEY_F1 <= HID_USAGE_KEY_DELETE <= HID_USAGE_KEY_F10) ->
  vc_handle_control_keys vc_device_rows dmctl HID_USAGE_KEY_DELETE modifiers s
    = Some (true, if dmctl then emit ev_reboot s else s) /\
  vc_handle_key_press vc_device_rows dmctl HID_USAGE_KEY_DELETE modifiers s
    = Some (if dmctl then emit ev_reboot s else s).
Proof.
  intros Hctrl Halt Hlabels Hrange.
  assert (Hkeys :
    vc_handle_control_keys vc_device_rows dmctl HID_USAGE_KEY_DELETE modifiers s
      = Some (true, if dmctl then emit ev_reboot s else s)).
  { assert (Hout : (HID_USAGE_KEY_F1 <=? HID_USAGE_KEY_DELETE)
                   && (HID_USAGE_KEY_DELETE <=? HID_USAGE_KEY_F10) = false).
    { destruct (Z.leb_spec HID_USAGE_KEY_F1 HID_USAGE_KEY_DELETE),
               (Z.leb_spec HID_USAGE_KEY_DELETE HID_USAGE_KEY_F10);
        cbn [andb]; try reflexivity. exfalso. apply Hrange. split; assumption. }
    unfold vc_handle_control_keys.
    apply c_true_true in Hctrl, Halt. rewrite Hctrl, Halt, Hout.
    unfold control_switch_labels in Hlabels. split_labels.
    decide_labels; reflexivity. }
  split; [exact Hkeys|].
  unfold vc_handle_key_press. rewrite Hkeys. reflexivity.
Qed.

(** C9.  A read on a live console takes the first [min count size] bytes
    off its FIFO - never more than [count] - and leaves the rest queued;
    if the FIFO is empty afterwards the readable signal is cleared,
    otherwise it is left alone; a read that takes no byte, as on an empty
    FIFO, returns [ERR_SHOULD_WAIT] and not 0, any other read returns the
    number of bytes taken.  Nothing else changes. *)
Theorem vc_device_read_drains dev count (s : vc_state) vc :
  heap s !! dev = Some vc -> 0 <= count ->
  exists result buf vc',
    vc_device_read dev count s
      = Some (result, buf, with_heap (<[dev := vc']> (heap s)) s) /\
    fifo_data (fifo vc) = buf ++ fifo_data (fifo vc') /\
    Z.of_nat (length buf) = Z.min count (mx_hid_fifo_size (fifo vc)) /\
    Z.of_nat (length buf) <= count /\
    (mx_hid_fifo_size (fifo vc') = 0 -> readable vc' = false) /\
    (mx_hid_fifo_size (fifo vc') <> 0 -> readable vc' = readable vc) /\
    (buf = [] -> result = Status ERR_SHOULD_WAIT) /\
    (buf <> [] -> result = Bytes (Z.of_nat (length buf))) /\
    (mx_hid_fifo_size (fifo vc) = 0 -> result = Status ERR_SHOULD_WAIT) /\
    active vc' = active vc /\ flags vc' = flags vc /\ keymap vc' = keymap vc.
Proof.
  intros Hdev Hcount. unfold vc_device_read. rewrite Hdev.
  cbn [mbind option_bind mx_hid_fifo_read].
  set (buf := take (Z.to_nat count) (fifo_data (fifo vc))).
  set (rest := drop (Z.to_nat count) (fifo_data (fifo vc))).
  assert (Hlen : Z.of_nat (length buf) = Z.min count (mx_hid_fifo_size (fifo vc))).
  { unfold buf, mx_hid_fifo_size. rewrite length_take. lia. }
  assert (Hcat : fifo_data (fifo vc) = buf ++ rest)
    by (symmetry; apply take_drop).
  cbn [fifo set_fifo].
  change (mx_hid_fifo_size {| fifo_data := rest |}) with (Z.of_nat (length rest)).
  assert (Hres : (if Z.of_nat (length buf) =? 0
                  then Status ERR_SHOULD_WAIT else Bytes (Z.of_nat (length buf)))
                 = match buf with
                   | [] => Status ERR_SHOULD_WAIT
                   | _ :: _ => Bytes (Z.of_nat (length buf))
                   end).
  { destruct buf; reflexivity. }
  rewrite Hres.
  destruct (Z.eqb_spec (Z.of_nat (length rest)) 0) as [Hz|Hnz];
    (eexists _, buf, _; split; [reflexivity|]);
    cbn [fifo set_fifo set_readable fifo_data readable active flags keymap];
    change (mx_hid_fifo_size {| fifo_data := rest |}) with (Z.of_nat (length rest)).
  - split; [exact Hcat|]. split; [exact Hlen|]. split; [lia|].
    split; [reflexivity|]. split; [intros Hne; contradiction|].
    split; [intros ->; reflexivity|].
    split; [intros Hne; destruct buf; [contradiction | reflexivity]|].
    split; [|repeat split].
    intros Hempty. rewrite Hempty in Hlen.
    destruct buf; [reflexivity | cbn [length] in Hlen; lia].
  - split; [exact Hcat|]. split; [exact Hlen|]. split; [lia|].
    split; [intros Hz; contradiction|]. split; [reflexivity|].
    split; [intros ->; reflexivity|].
    split; [intros Hne; destruct buf; [contradiction | reflexivity]|].
    split; [|repeat split].
    intros Hempty. rewrite Hempty in Hlen.
    destruct buf; [reflexivity | cbn [length] in Hlen; lia].
Qed.

End KeyFacts.

(** ** The battery poller *)

Lemma digit_char_digit d :
  (d < 10)%nat -> isdigit (digit_char d) = true /\ chr (digit_char d) - 48 = Z.of_nat d.
Proof.
  intros Hd. do 10 (destruct d as [|d]; [split; reflexivity|]). lia.
Qed.

Lemma digits_value_decimal ds acc :
  Forall (fun d => (d < 10)%nat) ds ->
  digits_value (decimal_string ds) acc
    = fold_left (fun acc d => 10 * acc + Z.of_nat d) ds acc.
Proof.
  intros Hds. revert acc. induction Hds as [|d ds Hd Hds IH]; intros acc.
  - reflexivity.
  - cbn [decimal_string digits_value fold_left].
    destruct (digit_char_digit d Hd) as [Hdig Hval].
    rewrite Hdig, Hval. apply IH.
Qed.

Lemma decimal_fold_nonneg ds : forall acc,
  0 <= acc -> 0 <= fold_left (fun acc d => 10 * acc + Z.of_nat d) ds acc.
Proof.
  induction ds as [|d ds IH]; intros acc Hacc; cbn [fold_left].
  - exact Hacc.
  - apply IH. lia.
Qed.

Lemma decimal_value_nonneg ds : 0 <= decimal_value ds.
Proof. unfold decimal_value. apply decimal_fold_nonneg. lia. Qed.

Lemma as_int_small z : - 2 ^ 31 <= z < 2 ^ 31 -> as_int z = z.
Proof. intros Hz. unfold as_int, wrap32. rewrite Z.mod_small; lia. Qed.

Lemma atoi_decimal ds :
  Forall (fun d => (d < 10)%nat) ds ->
  atoi (decimal_string ds) = as_int (decimal_value ds).
Proof.
  intros Hds. unfold decimal_value.
  rewrite <- (digits_value_decimal ds 0 Hds).
  destruct Hds as [|d ds Hd Hds]; [reflexivity|].
  unfold atoi. cbn [decimal_string skip_space].
  do 10 (destruct d as [|d]; [reflexivity|]). lia.
Qed.

(** C8.  The poller looks at the first character of the text it read:
    'e' gives the error state with percentage -1; 'c' gives charging with
    the percentage parsed from the rest of the text; anything else gives
    not-charging with the percentage parsed from the text.  So "c42" is
    charging at 42, "e" is error at -1, "67" is not-charging at 67.  The
    parse of a decimal numeral is its value as an [int]: the value itself
    if it is below 2^31, as every percentage is, and the value reduced
    modulo 2^32 into the range of [int] otherwise. *)
Theorem battery_parse :
  vc_battery_poll_update "c42" = {| state := CHARGING; pct := 42 |} /\
  vc_battery_poll_update "e" = {| state := ERROR; pct := -1 |} /\
  vc_battery_poll_update "67" = {| state := NOT_CHARGING; pct := 67 |} /\
  (forall rest,
     vc_battery_poll_update (String "e" rest) = {| state := ERROR; pct := -1 |}) /\
  (forall rest,
     vc_battery_poll_update (String "c" rest)
       = {| state := CHARGING; pct := atoi rest |}) /\
  (forall c rest, c <> "e"%char -> c <> "c"%char ->
     vc_battery_poll_update (String c rest)
       = {| state := NOT_CHARGING; pct := atoi (String c rest) |}) /\
  (forall ds, Forall (fun d => (d < 10)%nat) ds ->
     atoi (decimal_string ds) = as_int (decimal_value ds) /\
     - 2 ^ 31 <= atoi (decimal_string ds) < 2 ^ 31 /\
     (decimal_value ds < 2 ^ 31 -> atoi (decimal_string ds) = decimal_value ds)).
Proof.
  repeat lazymatch goal with |- _ /\ _ => split end; try reflexivity.
  - intros c rest He Hc. unfold vc_battery_poll_update.
    destruct (Ascii.eqb_spec c "e"); [contradiction|].
    destruct (Ascii.eqb_spec c "c"); [contradiction|]. reflexivity.
  - intros ds Hds. rewrite (atoi_decimal ds Hds).
    split; [reflexivity|]. split.
    + unfold as_int, wrap32.
      pose proof (Z.mod_pos_bound (decimal_value ds + 2 ^ 31) (2 ^ 32)). lia.
    + intros Hsmall. apply as_int_small.
      pose proof (decimal_value_nonneg ds). lia.
Qed.

(** * Further properties of the driver *)

(** ** Switching consoles *)

Section SwitchFacts.
Context `{hid_usages, vc_header, hid_keymaps, hid_fifo_capacity}.

#[local] Arguments __vc_set_active : simpl never.

Lemma vc_set_active_console_outcome console (s : vc_state) :
  registry_consistent s -> 0 <= console ->
  (g_vc_count s <= console ->
     vc_set_active_console console s = Some (ERR_INVALID_ARGS, s)) /\
  (console < g_vc_count s ->
     exists device s',
       g_vc_list s !! Z.to_nat console = Some device /\
       vc_set_active_console console s = Some (NO_ERROR, s') /\
       registry_consistent s' /\
       g_vc_list s' = g_vc_list s /\
       g_vc_count s' = g_vc_count s /\
       g_active_vc s' = Some device /\
       g_active_vc_index s' = console /\
       trace s' = trace s ++
         (if decide (g_active_vc s = Some device) then [] else [ev_render device])).
Proof.
  intros Hc Hpos. unfold vc_set_active_console. split.
  - intros Hge. destruct (Z.leb_spec (g_vc_count s) console); [reflexivity | lia].
  - intros Hlt. destruct (Z.leb_spec (g_vc_count s) console) as [|_]; [lia|].
    pose proof (rc_count _ Hc) as Hcount. pose proof (rc_bound _ Hc) as Hb.
    rewrite scan_for_index_lookup by lia. rewrite Z.sub_0_r.
    destruct (lookup_lt_is_Some_2 (g_vc_list s) (Z.to_nat console)) as [device Hdev];
      [lia|].
    rewrite Hdev. cbn [mbind option_bind].
    exists device.
    destruct (decide (Some device = g_active_vc s)) as [Hact|Hnact].
    + exists s. rewrite decide_True by congruence. rewrite app_nil_r.
      destruct (reachable_active_listed s device Hc (eq_sym Hact)) as (Hi0 & Hi & _).
      assert (Hsame : Z.to_nat (g_active_vc_index s) = Z.to_nat console)
        by exact (NoDup_lookup _ _ _ device (rc_nodup _ Hc) Hi Hdev).
      split; [reflexivity|]. split; [reflexivity|]. split; [exact Hc|].
      split; [reflexivity|]. split; [reflexivity|].
      split; [congruence|]. split; [lia | reflexivity].
    + destruct (__vc_set_active_consistent device console s
                  (consistent_settling _ Hc) Hpos Hdev)
        as (s1 & Hrun & Hc1 & Hl1 & Ht1 & Ha1 & Hi1).
      rewrite Hrun. cbn [mbind option_bind]. unfold render_active. rewrite Ha1.
      cbn [mbind option_bind].
      exists (emit (ev_render device) s1).
      rewrite decide_False by congruence.
      split; [reflexivity|]. split; [reflexivity|].
      split; [apply consistent_emit; exact Hc1|].
      split; [exact Hl1|].
      split; [cbn; rewrite (rc_count _ Hc1), Hl1; symmetry; exact Hcount|].
      split; [exact Ha1|]. split; [exact Hi1|].
      cbn. rewrite Ht1. reflexivity.
Qed.

Lemma vc_set_console_to_active_outcome dev (s : vc_state) :
  registry_consistent s ->
  (dev = None -> vc_set_console_to_active dev s = Some (ERR_INVALID_ARGS, s)) /\
  (forall p, dev = Some p -> p ∉ g_vc_list s ->
     vc_set_console_to_active dev s = Some (ERR_INVALID_ARGS, s)) /\
  (forall p, dev = Some p -> p ∈ g_vc_list s ->
     exists s',
       vc_set_console_to_active dev s = Some (NO_ERROR, s') /\
       registry_consistent s' /\
       g_vc_list s' = g_vc_list s /\
       g_active_vc s' = Some p /\
       0 <= g_active_vc_index s' /\
       g_vc_list s !! Z.to_nat (g_active_vc_index s') = Some p /\
       trace s' = trace s ++ [ev_render p]).
Proof.
  intros Hc. pose proof (rc_bound _ Hc) as Hb. pose proof (rc_count _ Hc) as Hcount.
  split; [intros ->; reflexivity|]. split.
  - intros p -> Hout. cbn.
    rewrite scan_for_device_missing by (try lia; exact Hout).
    rewrite Hcount, Z.add_0_l, Z.eqb_refl. reflexivity.
  - intros p -> Hin. cbn.
    destruct (scan_for_device_found (g_vc_list s) p 0) as (j & Hj & Hlook & Hlt);
      [lia | lia | exact Hin |].
    rewrite Hj, Hcount.
    destruct (Z.eqb_spec (0 + Z.of_nat j) (Z.of_nat (length (g_vc_list s))));
      [lia|].
    assert (Hto : Z.to_nat (0 + Z.of_nat j) = j) by lia.
    destruct (__vc_set_active_consistent p (0 + Z.of_nat j) s
                (consistent_settling _ Hc))
      as (s1 & Hrun & Hc1 & Hl1 & Ht1 & Ha1 & Hi1); [lia | rewrite Hto; exact Hlook |].
    rewrite Hrun. cbn [mbind option_bind]. unfold render_active. rewrite Ha1.
    cbn [mbind option_bind].
    exists (emit (ev_render p) s1).
    split; [reflexivity|]. split; [apply consistent_emit; exact Hc1|].
    split; [exact Hl1|]. split; [exact Ha1|].
    cbn. rewrite Hi1, Hto, Ht1. split; [lia|]. split; [exact Hlook | reflexivity].
Qed.

(** [vc_set_active_console]: an index at or past the count is refused and
    nothing changes; an index below the count makes the console at that
    place of the registration order Active, with that index, and renders
    it unless it was Active already. *)
Theorem vc_set_active_console_selects console (s : vc_state) :
  registry_consistent s -> 0 <= console ->
  (g_vc_count s <= console ->
     vc_set_active_console console s = Some (ERR_INVALID_ARGS, s)) /\
  (console < g_vc_count s ->
     exists device s',
       g_vc_list s !! Z.to_nat console = Some device /\
       vc_set_active_console console s = Some (NO_ERROR, s') /\
       registry_consistent s' /\
       g_vc_list s' = g_vc_list s /\
       g_vc_count s' = g_vc_count s /\
       g_active_vc s' = Some device /\
       g_active_vc_index s' = console /\
       trace s' = trace s ++
         (if decide (g_active_vc s = Some device) then [] else [ev_render device])).
Proof. intros Hc Hpos. exact (vc_set_active_console_outcome console s Hc Hpos). Qed.

(** [vc_set_console_to_active]: a null handle and a handle that is not
    registered are refused and nothing changes; a registered console
    becomes Active with its place in the registration order as index, and
    is rendered. *)
Theorem vc_set_console_to_active_selects dev (s : vc_state) :
  registry_consistent s ->
  (dev = None -> vc_set_console_to_active dev s = Some (ERR_INVALID_ARGS, s)) /\
  (forall p, dev = Some p -> p ∉ g_vc_list s ->
     vc_set_console_to_active dev s = Some (ERR_INVALID_ARGS, s)) /\
  (forall p, dev = Some p -> p ∈ g_vc_list s ->
     exists s',
       vc_set_console_to_active dev s = Some (NO_ERROR, s') /\
       registry_consistent s' /\
       g_vc_list s' = g_vc_list s /\
       g_active_vc s' = Some p /\
       0 <= g_active_vc_index s' /\
       g_vc_list s !! Z.to_nat (g_active_vc_index s') = Some p /\
       trace s' = trace s ++ [ev_render p]).
Proof. intros Hc. exact (vc_set_console_to_active_outcome dev s Hc). Qed.

End SwitchFacts.

(** ** Console keys *)

Section NavigationFacts.
Context `{hid_usages, vc_header, hid_keymaps, hid_fifo_capacity}.
Variable vc_device_rows : vc_device_t -> Z.
Hypothesis flag_bits_differ : Z.land VC_FLAG_RESETSCROLL VC_FLAG_HASINPUT = 0.

#[local] Arguments __vc_set_active : simpl never.
#[local] Arguments vc_set_active_console : simpl never.
#[local] Arguments hid_key_to_ansi_code : simpl never.
#[local] Arguments mx_hid_fifo_write : simpl never.

Lemma reachable_step (s s' : vc_state) :
  reachable vc_device_rows s -> vc_step vc_device_rows s s' ->
  reachable vc_device_rows s'.
Proof. unfold reachable. intros Hrun Hstep. eapply rtc_r; eassumption. Qed.

Lemma out_of_range_false lo hi k :
  ~ (lo <= k <= hi) -> (lo <=? k) && (k <=? hi) = false.
Proof.
  intros Hout. destruct (Z.leb_spec lo k), (Z.leb_spec k hi); cbn [andb];
    try reflexivity. exfalso. apply Hout. split; assumption.
Qed.

(** What Tab with ALT hands to [vc_set_active_console]. *)
Lemma tab_target (s : vc_state) shift :
  registry_consistent s -> g_active_vc s <> None ->
  (if shift : bool then
     if g_active_vc_index s =? 0 then wrap32 (g_vc_count s - 1)
     else wrap32 (g_active_vc_index s - 1)
   else
     if g_active_vc_index s =? wrap32 (g_vc_count s - 1) then 0
     else wrap32 (g_active_vc_index s + 1))
  = (g_active_vc_index s + (if shift then -1 else 1)) mod g_vc_count s /\
  0 <= g_active_vc_index s < g_vc_count s.
Proof.
  intros Hc Ha. destruct (g_active_vc s) as [a|] eqn:Hact; [|contradiction].
  destruct (reachable_active_listed s a Hc Hact) as (Hi0 & Hi & _).
  apply lookup_lt_Some in Hi.
  pose proof (rc_count _ Hc) as Hcount. pose proof (rc_bound _ Hc) as Hb.
  assert (Hrange : 0 <= g_active_vc_index s < g_vc_count s) by lia.
  split; [|exact Hrange].
  unfold wrap32.
  rewrite (Z.mod_small (g_vc_count s - 1)) by lia.
  destruct shift.
  - destruct (Z.eqb_spec (g_active_vc_index s) 0) as [Hz|Hnz].
    + apply (Z.mod_unique _ _ (-1)); [left; lia | lia].
    + rewrite !Z.mod_small by lia. reflexivity.
  - destruct (Z.eqb_spec (g_active_vc_index s) (g_vc_count s - 1)) as [Hlast|Hnl].
    + replace (g_active_vc_index s + 1) with (g_vc_count s) by lia.
      rewrite Z.mod_same by lia. reflexivity.
    + rewrite !Z.mod_small by lia. reflexivity.
Qed.

Lemma tab_cycle_step dmctl modifiers (s : vc_state) :
  reachable vc_device_rows s -> g_active_vc s <> None ->
  Z.land modifiers MOD_ALT <> 0 ->
  ~ (HID_USAGE_KEY_F1 <= HID_USAGE_KEY_TAB <= HID_USAGE_KEY_F10) ->
  HID_USAGE_KEY_TAB <> HID_USAGE_KEY_F11 ->
  let next := (g_active_vc_index s
               + (if c_true (Z.land modifiers MOD_SHIFT) then -1 else 1))
              mod g_vc_count s in
  exists s',
    vc_handle_key_press vc_device_rows dmctl HID_USAGE_KEY_TAB modifiers s = Some s' /\
    reachable vc_device_rows s' /\
    g_vc_list s' = g_vc_list s /\
    g_vc_count s' = g_vc_count s /\
    g_active_vc_index s' = next /\
    g_active_vc s' = g_vc_list s !! Z.to_nat next /\
    g_active_vc s' <> None /\
    vc_set_active_console next s = Some (NO_ERROR, s').
Proof.
  intros Hrun Ha Halt Hrange Hf11 next.
  pose proof (reachable_consistent vc_device_rows flag_bits_differ s Hrun) as Hc.
  destruct (tab_target s (c_true (Z.land modifiers MOD_SHIFT)) Hc Ha)
    as [Htarget Hidx].
  fold next in Htarget.
  assert (Hnext : 0 <= next < g_vc_count s)
    by (unfold next; apply Z.mod_pos_bound; lia).
  destruct (vc_set_active_console_outcome next s Hc) as [_ Hsel]; [lia|].
  destruct Hsel as (device & s' & Hdev & Hset & Hc' & Hl & Hn & Hact & Hi & _);
    [lia|].
  assert (Hpress : vc_handle_key_press vc_device_rows dmctl HID_USAGE_KEY_TAB
                     modifiers s = Some s').
  { unfold vc_handle_key_press, vc_handle_control_keys.
    rewrite (out_of_range_false _ _ _ Hrange).
    destruct (Z.eqb_spec HID_USAGE_KEY_TAB HID_USAGE_KEY_F11); [contradiction|].
    rewrite Z.eqb_refl.
    apply c_true_true in Halt. rewrite Halt, Htarget, Hset. reflexivity. }
  exists s'. split; [exact Hpress|].
  split; [eapply reachable_step; [exact Hrun | eapply step_key_press; exact Hpress]|].
  split; [exact Hl|]. split; [exact Hn|]. split; [exact Hi|].
  split; [rewrite Hact, Hdev; reflexivity|].
  split; [rewrite Hact; discriminate | exact Hset].
Qed.

(** Tab with ALT followed by Tab with ALT and SHIFT brings the focus back
    to the console it started from. *)
Theorem alt_tab_there_and_back dmctl dmctl' forward backward (s : vc_state) :
  reachable vc_device_rows s -> g_active_vc s <> None ->
  Z.land forward MOD_ALT <> 0 -> Z.land forward MOD_SHIFT = 0 ->
  Z.land backward MOD_ALT <> 0 -> Z.land backward MOD_SHIFT <> 0 ->
  ~ (HID_USAGE_KEY_F1 <= HID_USAGE_KEY_TAB <= HID_USAGE_KEY_F10) ->
  HID_USAGE_KEY_TAB <> HID_USAGE_KEY_F11 ->
  exists s1 s2,
    vc_handle_key_press vc_device_rows dmctl HID_USAGE_KEY_TAB forward s = Some s1 /\
    vc_handle_key_press vc_device_rows dmctl' HID_USAGE_KEY_TAB backward s1 = Some s2 /\
    g_vc_list s2 = g_vc_list s /\
    g_active_vc_index s2 = g_active_vc_index s /\
    g_active_vc s2 = g_active_vc s.
Proof.
  intros Hrun Ha Hfa Hfs Hba Hbs Hrange Hf11.
  pose proof (reachable_consistent vc_device_rows flag_bits_differ s Hrun) as Hc.
  destruct (tab_target s false Hc Ha) as [_ Hidx].
  destruct (tab_cycle_step dmctl forward s Hrun Ha Hfa Hrange Hf11)
    as (s1 & Hp1 & Hrun1 & Hl1 & Hn1 & Hi1 & _ & Ha1 & _).
  destruct (tab_cycle_step dmctl' backward s1 Hrun1 Ha1 Hba Hrange Hf11)
    as (s2 & Hp2 & _ & Hl2 & _ & Hi2 & Hact2 & _ & _).
  apply c_true_false in Hfs. apply c_true_true in Hbs.
  rewrite Hfs in Hi1. rewrite Hbs, Hi1, Hn1 in Hi2, Hact2.
  assert (Hback : ((g_active_vc_index s + 1) mod g_vc_count s + -1) mod g_vc_count s
                  = g_active_vc_index s).
  { rewrite Zplus_mod_idemp_l.
    replace (g_active_vc_index s + 1 + -1) with (g_active_vc_index s) by lia.
    apply Z.mod_small. exact Hidx. }
  rewrite Hback in Hi2, Hact2.
  exists s1, s2. split; [exact Hp1|]. split; [exact Hp2|].
  split; [congruence|]. split; [exact Hi2|].
  rewrite Hact2, Hl1.
  destruct (g_active_vc s) as [a|] eqn:Hact; [|contradiction].
  destruct (reachable_active_listed s a Hc Hact) as (_ & Hi & _). exact Hi.
Qed.

(** A function key F1..F10 with ALT is always consumed.  If its number,
    counted from F1 as 0, is below the count, the console at that place
    of the registration order becomes Active; otherwise nothing changes
    at all. *)
Theorem alt_function_key_selects dmctl keycode modifiers (s : vc_state) :
  reachable vc_device_rows s ->
  HID_USAGE_KEY_F1 <= keycode <= HID_USAGE_KEY_F10 ->
  0 <= HID_USAGE_KEY_F1 -> keycode < 256 ->
  Z.land modifiers MOD_ALT <> 0 ->
  (keycode - HID_USAGE_KEY_F1 < g_vc_count s ->
     exists device s',
       g_vc_list s !! Z.to_nat (keycode - HID_USAGE_KEY_F1) = Some device /\
       vc_handle_key_press vc_device_rows dmctl keycode modifiers s = Some s' /\
       g_vc_list s' = g_vc_list s /\
       g_active_vc s' = Some device /\
       g_active_vc_index s' = keycode - HID_USAGE_KEY_F1) /\
  (g_vc_count s <= keycode - HID_USAGE_KEY_F1 ->
     vc_handle_key_press vc_device_rows dmctl keycode modifiers s = Some s).
Proof.
  intros Hrun Hkey Hf1 Hbyte Halt.
  pose proof (reachable_consistent vc_device_rows flag_bits_differ s Hrun) as Hc.
  assert (Hin : (HID_USAGE_KEY_F1 <=? keycode) && (keycode <=? HID_USAGE_KEY_F10)
                = true).
  { destruct (Z.leb_spec HID_USAGE_KEY_F1 keycode), (Z.leb_spec keycode HID_USAGE_KEY_F10);
      cbn [andb]; (reflexivity || lia). }
  assert (Hwrap : wrap32 (keycode - HID_USAGE_KEY_F1) = keycode - HID_USAGE_KEY_F1).
  { unfold wrap32. apply Z.mod_small. lia. }
  apply c_true_true in Halt.
  destruct (vc_set_active_console_outcome (keycode - HID_USAGE_KEY_F1) s Hc)
    as [Hrefuse Hsel]; [lia|].
  split.
  - intros Hlt.
    destruct (Hsel Hlt) as (device & s' & Hdev & Hset & _ & Hl & _ & Hact & Hi & _).
    exists device, s'. split; [exact Hdev|].
    split; [|auto].
    unfold vc_handle_key_press, vc_handle_control_keys.
    rewrite Hin, Halt, Hwrap, Hset. reflexivity.
  - intros Hge.
    unfold vc_handle_key_press, vc_handle_control_keys.
    rewrite Hin, Halt, Hwrap, (Hrefuse Hge). reflexivity.
Qed.

End NavigationFacts.

(** ** Keys and the FIFOs *)

Section QueueFacts.
Context `{hid_usages, vc_header, hid_keymaps, hid_fifo_capacity}.
Variable vc_device_rows : vc_device_t -> Z.
Hypothesis flag_bits_differ : Z.land VC_FLAG_RESETSCROLL VC_FLAG_HASINPUT = 0.

#[local] Arguments hid_key_to_ansi_code : simpl never.
#[local] Arguments mx_hid_fifo_write : simpl never.

Lemma view_insert (h : gmap nat vc_device_t) k d d' p :
  h !! k = Some d -> fifo d' = fifo d -> readable d' = readable d ->
  (fun d => (fifo d, readable d)) <$> <[k := d']> h !! p
  = (fun d => (fifo d, readable d)) <$> h !! p.
Proof.
  intros Hk Hf Hr. destruct (decide (p = k)) as [->|Hne].
  - rewrite lookup_insert_eq, Hk. cbn. rewrite Hf, Hr. reflexivity.
  - rewrite lookup_insert_ne by congruence. reflexivity.
Qed.

Lemma __vc_set_active_fifos dev index (s s' : vc_state) :
  __vc_set_active dev index s = Some s' ->
  g_vc_list s' = g_vc_list s /\ g_vc_count s' = g_vc_count s /\
  trace s' = trace s /\ forall p, fifo_view s' p = fifo_view s p.
Proof.
  unfold __vc_set_active. intros Hrun.
  assert (Hgen : forall h1 : gmap nat vc_device_t,
            (forall p, (fun d => (fifo d, readable d)) <$> h1 !! p = fifo_view s p) ->
            (d ← h1 !! dev;
             let h2 := <[dev := set_active true d]> h1 in
             d' ← h2 !! dev;
             let h3 := <[dev := set_flags (Z.land (flags d') (Z.lnot VC_FLAG_HASINPUT)) d']> h2 in
             Some (with_index index (with_active (Some dev) (with_heap h3 s))))
            = Some s' ->
            g_vc_list s' = g_vc_list s /\ g_vc_count s' = g_vc_count s /\
            trace s' = trace s /\ forall p, fifo_view s' p = fifo_view s p).
  { intros h1 Hview. destruct (h1 !! dev) as [d|] eqn:Hd; cbn; [|discriminate].
    rewrite lookup_insert_eq. cbn. intros [= <-]. repeat split.
    intros p. unfold fifo_view at 1. cbn.
    rewrite (view_insert _ dev (set_active true d) _ p), (view_insert _ dev d _ p);
      try reflexivity; [apply Hview | exact Hd | apply lookup_insert_eq]. }
  destruct (g_active_vc s) as [a|].
  - destruct (heap s !! a) as [da|] eqn:Hda; [|discriminate Hrun].
    apply (Hgen (<[a := set_active false da]> (heap s)));
      [|exact Hrun].
    intros p. unfold fifo_view.
    rewrite (view_insert _ a da _ p Hda); reflexivity.
  - apply (Hgen (heap s)); [intros p; reflexivity | exact Hrun].
Qed.

Lemma vc_set_active_console_fifos console (s s' : vc_state) r :
  vc_set_active_console console s = Some (r, s') ->
  g_vc_list s' = g_vc_list s /\ g_vc_count s' = g_vc_count s /\
  forall p, fifo_view s' p = fifo_view s p.
Proof.
  unfold vc_set_active_console.
  destruct (g_vc_count s <=? console); [intros [= _ <-]; auto|].
  destruct (scan_for_index _ _ _) as [device|]; cbn; [|discriminate].
  destruct (decide _); [intros [= _ <-]; auto|].
  destruct (__vc_set_active device console s) as [s1|] eqn:Hset; cbn; [|discriminate].
  destruct (__vc_set_active_fifos _ _ _ _ Hset) as (Hl & Hn & _ & Hv).
  unfold render_active. destruct (g_active_vc s1); cbn; [|discriminate].
  intros [= _ <-]. auto.
Qed.

Lemma vc_handle_control_keys_fifos dmctl keycode modifiers (s s' : vc_state) b :
  vc_handle_control_keys vc_device_rows dmctl keycode modifiers s = Some (b, s') ->
  g_vc_list s' = g_vc_list s /\ g_vc_count s' = g_vc_count s /\
  forall p, fifo_view s' p = fifo_view s p.
Proof.
  unfold vc_handle_control_keys.
  assert (Hsame : forall e, Some (true, emit e s) = Some (b, s') ->
            g_vc_list s' = g_vc_list s /\ g_vc_count s' = g_vc_count s /\
            forall p, fifo_view s' p = fifo_view s p).
  { intros e [= _ <-]. auto. }
  assert (Hswitch : forall c,
            ('(_, s1) ← vc_set_active_console c s; Some (true, s1)) = Some (b, s') ->
            g_vc_list s' = g_vc_list s /\ g_vc_count s' = g_vc_count s /\
            forall p, fifo_view s' p = fifo_view s p).
  { intros c. destruct (vc_set_active_console c s) as [[r s1]|] eqn:Hset; cbn;
      [|discriminate].
    intros [= _ <-]. exact (vc_set_active_console_fifos _ _ _ _ Hset). }
  repeat (match goal with
  | |- ('(_, s1) ← vc_set_active_console _ s; Some (true, s1)) = _ -> _ =>
      apply Hswitch
  | |- Some (true, emit _ s) = _ -> _ => apply Hsame
  | |- context [if ?c then _ else _] => destruct c
  | |- context [match g_active_vc s with _ => _ end] => destruct (g_active_vc s)
  | |- context [mbind _ ?o] => destruct o as [?|]
  end; cbn [mbind option_bind]);
  try discriminate; intros E; simplify_eq; auto.
Qed.

(** The interceptor never touches a FIFO: whatever the key, the modifiers
    and the state, and whether or not it takes the key, every console has
    the same queued bytes and the same readable signal afterwards, and
    the list of consoles is the same. *)
Theorem control_keys_leave_fifos dmctl keycode modifiers (s s' : vc_state) b :
  vc_handle_control_keys vc_device_rows dmctl keycode modifiers s = Some (b, s') ->
  g_vc_list s' = g_vc_list s /\ g_vc_count s' = g_vc_count s /\
  forall p, fifo_view s' p = fifo_view s p.
Proof. exact (vc_handle_control_keys_fifos dmctl keycode modifiers s s' b). Qed.

(** Tab with ALT moves the focus one console on, and with SHIFT as well
    one console back, in registration order and around the ends: the new
    active index is the old one plus or minus one modulo the count, and
    the console at that place is Active.  The key is consumed: no
    console's FIFO or readable signal changes. *)
Theorem alt_tab_cycles dmctl modifiers (s : vc_state) :
  reachable vc_device_rows s -> g_active_vc s <> None ->
  Z.land modifiers MOD_ALT <> 0 ->
  ~ (HID_USAGE_KEY_F1 <= HID_USAGE_KEY_TAB <= HID_USAGE_KEY_F10) ->
  HID_USAGE_KEY_TAB <> HID_USAGE_KEY_F11 ->
  let next := (g_active_vc_index s
               + (if c_true (Z.land modifiers MOD_SHIFT) then -1 else 1))
              mod g_vc_count s in
  exists s',
    vc_handle_key_press vc_device_rows dmctl HID_USAGE_KEY_TAB modifiers s = Some s' /\
    reachable vc_device_rows s' /\
    g_vc_list s' = g_vc_list s /\
    g_vc_count s' = g_vc_count s /\
    g_active_vc_index s' = next /\
    g_active_vc s' = g_vc_list s !! Z.to_nat next /\
    g_active_vc s' <> None /\
    forall p, fifo_view s' p = fifo_view s p.
Proof.
  intros Hrun Ha Halt Hrange Hf11 next.
  destruct (tab_cycle_step vc_device_rows flag_bits_differ dmctl modifiers s
              Hrun Ha Halt Hrange Hf11)
    as (s' & Hpress & Hrun' & Hl & Hn & Hi & Hact & Hsome & Hset).
  exists s'. split; [exact Hpress|]. split; [exact Hrun'|].
  split; [exact Hl|]. split; [exact Hn|]. split; [exact Hi|].
  split; [exact Hact|]. split; [exact Hsome|].
  exact (proj2 (proj2 (vc_set_active_console_fifos _ _ _ _ Hset))).
Qed.

Lemma vc_handle_control_keys_defined dmctl keycode modifiers (s : vc_state) :
  registry_consistent s -> g_active_vc s <> None ->
  is_Some (vc_handle_control_keys vc_device_rows dmctl keycode modifiers s).
Proof.
  intros Hc Ha. destruct (g_active_vc s) as [a|] eqn:Hact; [|contradiction].
  destruct (reachable_active_listed s a Hc Hact) as (_ & _ & Hin).
  destruct (rc_live _ Hc a Hin) as [d Hd].
  assert (Hswitch : forall c, 0 <= c ->
            is_Some ('(_, s1) ← vc_set_active_console c s; Some (true, s1))).
  { intros c Hpos.
    destruct (vc_set_active_console_consistent c s Hc Hpos) as (r & s1 & Hrun & _).
    rewrite Hrun. cbn. eauto. }
  unfold vc_handle_control_keys. rewrite Hact. cbn [mbind option_bind].
  rewrite Hd. cbn [mbind option_bind].
  repeat match goal with
  | |- is_Some ('(_, s1) ← vc_set_active_console _ s; Some (true, s1)) =>
      apply Hswitch; first [apply wrap32_nonneg | reflexivity]
  | |- context [if ?c then _ else _] => destruct c
  end; eauto.
Qed.

Lemma vc_handle_key_press_defined dmctl keycode modifiers (s : vc_state) :
  registry_consistent s -> g_active_vc s <> None ->
  is_Some (vc_handle_key_press vc_device_rows dmctl keycode modifiers s).
Proof.
  intros Hc Ha.
  destruct (vc_handle_control_keys_defined dmctl keycode modifiers s Hc Ha)
    as [[b s0] Hkeys].
  unfold vc_handle_key_press. rewrite Hkeys. cbn [mbind option_bind].
  destruct b; [eauto|].
  pose proof (vc_handle_control_keys_passes _ _ _ _ _ _ Hkeys) as ->.
  destruct (g_active_vc s) as [a|] eqn:Hact; [|contradiction].
  destruct (reachable_active_listed s a Hc Hact) as (_ & _ & Hin).
  destruct (rc_live _ Hc a Hin) as [d Hd].
  cbn [mbind option_bind]. rewrite Hd. cbn [mbind option_bind].
  destruct (hid_key_to_ansi_code _ _ _ _ _). eauto.
Qed.

Lemma vc_handle_key_press_keeps_console dmctl keycode m (s s' : vc_state) :
  registry_consistent s ->
  vc_handle_key_press vc_device_rows dmctl keycode m s = Some s' ->
  g_active_vc s <> None -> g_active_vc s' <> None.
Proof.
  intros Hc Hpress Hact Hnone.
  assert (Hc' : registry_consistent s') by (eapply vc_handle_key_press_consistent; eassumption).
  pose proof (rc_index _ Hc') as Hi'. rewrite Hnone in Hi'.
  assert (Hlist : g_vc_list s' = g_vc_list s).
  { revert Hpress. unfold vc_handle_key_press.
    destruct (vc_handle_control_keys _ _ _ _ _) as [[b s0]|] eqn:Hkeys;
      cbn [mbind option_bind]; [|discriminate].
    destruct (vc_handle_control_keys_fifos _ _ _ _ _ _ Hkeys)
      as (Hl & _ & _).
    destruct b; [intros [= <-]; exact Hl|].
    destruct (g_active_vc s0); cbn [mbind option_bind]; [|discriminate].
    destruct (heap s0 !! _); cbn [mbind option_bind]; [|discriminate].
    destruct (hid_key_to_ansi_code _ _ _ _ _). intros [= <-]. exact Hl. }
  pose proof (rc_index _ Hc) as Hi.
  destruct (g_active_vc s) as [a|]; [|contradiction].
  destruct Hi as [_ Hi]. rewrite <- Hlist, Hi' in Hi. rewrite lookup_nil in Hi.
  discriminate.
Qed.

(** A key press needs an Active console.  In every state a run reaches
    with a console Active, a key press has a defined outcome whatever the
    key and the modifiers, and the state it leaves is again one a run
    reaches, with a console Active; with no console Active, a key that
    the interceptor passes on has no defined outcome ([g_active_vc] is
    dereferenced unchecked). *)
Theorem key_press_needs_active_console dmctl keycode modifiers (s : vc_state) :
  (reachable vc_device_rows s -> g_active_vc s <> None ->
     exists s', vc_handle_key_press vc_device_rows dmctl keycode modifiers s = Some s' /\
                reachable vc_device_rows s' /\
                g_active_vc s' <> None) /\
  (g_active_vc s = None ->
   vc_handle_control_keys vc_device_rows dmctl keycode modifiers s = Some (false, s) ->
     vc_handle_key_press vc_device_rows dmctl keycode modifiers s = None).
Proof.
  split.
  - intros Hrun Ha.
    pose proof (reachable_consistent vc_device_rows flag_bits_differ s Hrun) as Hc.
    destruct (vc_handle_key_press_defined dmctl keycode modifiers s Hc Ha)
      as [s' Hpress].
    exists s'. split; [exact Hpress|]. split.
    + unfold reachable in *. eapply rtc_r; [exact Hrun|].
      eapply step_key_press. exact Hpress.
    + exact (vc_handle_key_press_keeps_console dmctl keycode modifiers s s'
               Hc Hpress Ha).
  - intros Hnone Hkeys. unfold vc_handle_key_press.
    rewrite Hkeys. cbn [mbind option_bind]. rewrite Hnone. reflexivity.
Qed.

Lemma key_press_effect dmctl keycode modifiers (s s0 : vc_state) a d :
  vc_handle_control_keys vc_device_rows dmctl keycode modifiers s = Some (false, s0) ->
  g_active_vc s = Some a -> heap s !! a = Some d ->
  let sequence := ansi_bytes keycode modifiers (keymap d) output_array in
  exists d',
    vc_handle_key_press vc_device_rows dmctl keycode modifiers s
      = Some (with_heap (<[a := d']> (heap s)) s) /\
    (sequence <> [] -> readable d' = true) /\
    (sequence = [] -> readable d' = readable d /\ fifo d' = fifo d) /\
    (Z.of_nat (length sequence) <= mx_hid_fifo_free (fifo d) ->
       fifo_data (fifo d') = fifo_data (fifo d) ++ sequence) /\
    (mx_hid_fifo_free (fifo d) < Z.of_nat (length sequence) -> fifo d' = fifo d) /\
    flags d' = (if mx_hid_fifo_size (fifo d) =? 0
                then Z.lor (flags d) VC_FLAG_RESETSCROLL else flags d) /\
    active d' = active d /\ keymap d' = keymap d.
Proof.
  intros Hkeys Ha Hd sequence.
  pose proof (vc_handle_control_keys_passes _ _ _ _ _ _ Hkeys) as ->.
  unfold vc_handle_key_press. rewrite Hkeys. cbn [mbind option_bind].
  rewrite Ha. cbn [mbind option_bind]. rewrite Hd. cbn [mbind option_bind].
  set (d1 := if mx_hid_fifo_size (fifo d) =? 0
             then set_flags (Z.lor (flags d) VC_FLAG_RESETSCROLL) d else d).
  assert (Hd1 : fifo d1 = fifo d /\ keymap d1 = keymap d /\
                readable d1 = readable d /\ active d1 = active d /\
                flags d1 = (if mx_hid_fifo_size (fifo d) =? 0
                            then Z.lor (flags d) VC_FLAG_RESETSCROLL else flags d)).
  { unfold d1. destruct (_ =? 0); repeat split; reflexivity. }
  destruct Hd1 as (Hf1 & Hk1 & Hr1 & Ha1 & Hfl1).
  pose proof (ansi_bytes_length keycode modifiers (keymap d) output_array eq_refl)
    as Hseq.
  fold sequence in Hseq. unfold sequence, ansi_bytes in *. rewrite Hk1.
  destruct (hid_key_to_ansi_code keycode modifiers (keymap d) output_array 4)
    as [len out]. cbn [fst] in Hseq.
  eexists. split; [reflexivity|].
  destruct (Z.ltb_spec 0 len) as [Hpos|Hzero].
  - cbn [readable fifo flags active keymap set_readable set_fifo].
    rewrite Hf1, Hfl1, Ha1, Hk1.
    split; [reflexivity|]. split.
    { intros Hnil. rewrite Hnil in Hseq. cbn in Hseq. lia. }
    split.
    { intros Hroom. rewrite Hseq in Hroom.
      rewrite mx_hid_fifo_write_room by exact Hroom. reflexivity. }
    split; [|auto].
    intros Hfull. rewrite Hseq in Hfull.
    rewrite mx_hid_fifo_write_full by exact Hfull. reflexivity.
  - assert (Hnil : take (Z.to_nat len) out = [])
      by (apply length_zero_iff_nil; lia).
    rewrite Hnil, Hr1, Hf1, Hfl1, Ha1, Hk1.
    split; [intros Hne; contradiction|]. split; [auto|].
    split; [intros _; rewrite app_nil_r; reflexivity|]. auto.
Qed.

Lemma vc_device_read_run dev count (s : vc_state) vc :
  heap s !! dev = Some vc ->
  let buf := take (Z.to_nat count) (fifo_data (fifo vc)) in
  let rest := {| fifo_data := drop (Z.to_nat count) (fifo_data (fifo vc)) |} in
  vc_device_read dev count s
  = Some (if Z.of_nat (length buf) =? 0
          then Status ERR_SHOULD_WAIT else Bytes (Z.of_nat (length buf)),
          buf,
          with_heap (<[dev := if mx_hid_fifo_size rest =? 0
                              then set_readable false (set_fifo rest vc)
                              else set_fifo rest vc]> (heap s)) s).
Proof. intros Hdev. unfold vc_device_read. rewrite Hdev. reflexivity. Qed.

(** Keys reach the reader in order.  After a key that is passed on and
    fits, a read returns the first [count] bytes of what was queued
    before followed by the key's bytes; in particular, on a FIFO that was
    empty, a read of at least the length of the key's sequence returns
    exactly that sequence, empties the FIFO and clears the readable
    signal. *)
Theorem key_press_then_read dmctl keycode modifiers (s s0 : vc_state) a d count :
  vc_handle_control_keys vc_device_rows dmctl keycode modifiers s = Some (false, s0) ->
  g_active_vc s = Some a -> heap s !! a = Some d ->
  0 <= count ->
  let sequence := ansi_bytes keycode modifiers (keymap d) output_array in
  Z.of_nat (length sequence) <= mx_hid_fifo_free (fifo d) ->
  exists s1 result s2,
    vc_handle_key_press vc_device_rows dmctl keycode modifiers s = Some s1 /\
    vc_device_read a count s1
      = Some (result, take (Z.to_nat count) (fifo_data (fifo d) ++ sequence), s2) /\
    (fifo <$> heap s2 !! a)
      = Some {| fifo_data := drop (Z.to_nat count) (fifo_data (fifo d) ++ sequence) |} /\
    (fifo_data (fifo d) = [] -> sequence <> [] ->
     Z.of_nat (length sequence) <= count ->
       vc_device_read a count s1
         = Some (Bytes (Z.of_nat (length sequence)), sequence, s2) /\
       fifo_view s2 a = Some ({| fifo_data := [] |}, false)).
Proof.
  intros Hkeys Ha Hd Hcount sequence Hroom.
  destruct (key_press_effect dmctl keycode modifiers s s0 a d Hkeys Ha Hd)
    as (d' & Hpress & _ & _ & Hfits & _).
  fold sequence in Hfits. specialize (Hfits Hroom).
  pose proof (vc_device_read_run a count (with_heap (<[a := d']> (heap s)) s) d')
    as Hread.
  cbn [heap with_heap] in Hread. rewrite lookup_insert_eq in Hread.
  specialize (Hread eq_refl). cbv zeta in Hread. rewrite Hfits in Hread.
  eexists _, _, _. split; [exact Hpress|]. split; [exact Hread|].
  split.
  { cbn [heap with_heap]. rewrite lookup_insert_eq. cbn [fmap option_fmap option_map].
    f_equal. destruct (mx_hid_fifo_size _ =? 0); reflexivity. }
  intros Hnil Hseq Hall.
  rewrite Hnil in *. cbn [app] in *.
  assert (Htake : take (Z.to_nat count) sequence = sequence)
    by (apply take_ge; lia).
  assert (Hdrop : drop (Z.to_nat count) sequence = [])
    by (apply drop_ge; lia).
  rewrite Htake, Hdrop in *.
  assert (Hpos : (Z.of_nat (length sequence) =? 0) = false).
  { apply Z.eqb_neq. destruct sequence; [contradiction | cbn; lia]. }
  rewrite Hpos in Hread.
  split; [exact Hread|].
  unfold fifo_view. cbn [heap with_heap]. rewrite lookup_insert_eq. reflexivity.
Qed.

(** A key that is passed on and translates to at least one byte raises
    the readable signal of the active console even when its bytes do not
    fit and are dropped; a key without translation leaves FIFO and signal
    alone.  Either way the reset-scroll flag is set exactly if the FIFO
    was empty at the press, and no other flag and no other console
    changes. *)
Theorem key_press_signals dmctl keycode modifiers (s s0 : vc_state) a d :
  vc_handle_control_keys vc_device_rows dmctl keycode modifiers s = Some (false, s0) ->
  g_active_vc s = Some a -> heap s !! a = Some d ->
  let sequence := ansi_bytes keycode modifiers (keymap d) output_array in
  exists d',
    vc_handle_key_press vc_device_rows dmctl keycode modifiers s
      = Some (with_heap (<[a := d']> (heap s)) s) /\
    (sequence <> [] -> readable d' = true) /\
    (sequence = [] -> readable d' = readable d /\ fifo d' = fifo d) /\
    (mx_hid_fifo_free (fifo d) < Z.of_nat (length sequence) -> fifo d' = fifo d) /\
    flags d' = (if mx_hid_fifo_size (fifo d) =? 0
                then Z.lor (flags d) VC_FLAG_RESETSCROLL else flags d) /\
    active d' = active d /\ keymap d' = keymap d.
Proof.
  intros Hkeys Ha Hd sequence.
  destruct (key_press_effect dmctl keycode modifiers s s0 a d Hkeys Ha Hd)
    as (d' & Hpress & Hsig & Hnone & _ & Hfull & Hrest).
  exists d'. auto.
Qed.

End QueueFacts.

(** ** Output, opening and closing *)

Section LifecycleFacts.
Context `{hid_usages, vc_header, hid_keymaps, hid_fifo_capacity}.
Variable vc_device_rows : vc_device_t -> Z.
Hypothesis flag_bits_differ : Z.land VC_FLAG_RESETSCROLL VC_FLAG_HASINPUT = 0.

#[local] Arguments __vc_set_active : simpl never.
#[local] Arguments vc_set_active_console : simpl never.


Lemma vc_root_open_outcome device d0 parent (s : vc_state) :
  registry_consistent s ->
  heap s !! device = None -> active d0 = false -> g_vc_count s + 1 < 2 ^ 32 ->
  exists s',
    vc_root_open (inr (device, d0)) parent NO_ERROR s = Some (NO_ERROR, s') /\
    registry_consistent s' /\
    g_vc_list s' = g_vc_list s ++ [device] /\
    g_vc_count s' = g_vc_count s + 1 /\
    (g_active_vc s = None ->
       g_active_vc s' = Some device /\ g_active_vc_index s' = 0 /\
       trace s' = trace s ++ [ev_render device]) /\
    (forall a, g_active_vc s = Some a ->
       g_active_vc s' = Some a /\ g_active_vc_index s' = g_active_vc_index s /\
       trace s' = trace s ++ [ev_render a] /\
       heap s' = <[device := d0]> (heap s)).
Proof.
  intros Hc Hfresh Hd0 Hroom.
  destruct (vc_root_open_consistent (inr (device, d0)) parent NO_ERROR s Hc)
    as (r & s' & Hrun & Hc'); [auto|].
  revert Hrun. cbn [vc_root_open].
  rewrite bool_decide_eq_true_2 by reflexivity. cbn [negb]. rewrite andb_false_r.
  pose proof (rc_count _ Hc) as Hcount.
  assert (Hwrap : wrap32 (g_vc_count s + 1) = g_vc_count s + 1).
  { unfold wrap32. apply Z.mod_small. lia. }
  cbn [g_vc_count g_vc_list g_active_vc with_heap with_list]. rewrite Hwrap.
  destruct (g_active_vc s) as [a|] eqn:Ha.
  - intros [= <- <-]. eexists. split; [reflexivity|]. split; [exact Hc'|].
    cbn [emit g_vc_list g_vc_count g_active_vc g_active_vc_index trace heap
         with_list with_heap].
    split; [reflexivity|]. split; [reflexivity|].
    split; [intros Hn; discriminate Hn|].
    intros a' Ha'. injection Ha' as <-. auto.
  - pose proof (rc_index _ Hc) as Hidx. rewrite Ha in Hidx.
    rewrite Hidx. cbn [app].
    remember (with_list [device] (g_vc_count s + 1)
                (with_heap (<[device := d0]> (heap s)) s)) as s1 eqn:Es1.
    assert (Hn1 : g_vc_count s1 = g_vc_count s + 1) by (subst s1; reflexivity).
    assert (Hl1 : g_vc_list s1 = [device]) by (subst s1; reflexivity).
    assert (Ha1 : g_active_vc s1 = None) by (subst s1; exact Ha).
    assert (Ht1 : trace s1 = trace s) by (subst s1; reflexivity).
    assert (Hs1 : registry_settling s1).
    { split; rewrite ?Hl1, ?Hn1, ?Ha1.
      - apply NoDup_singleton.
      - intros p Hp. apply list_elem_of_singleton in Hp as ->.
        subst s1. cbn. rewrite lookup_insert_eq. eauto.
      - rewrite Hcount, Hidx. reflexivity.
      - cbn. lia.
      - intros p d Hp Hlook Hflag. apply list_elem_of_singleton in Hp as ->.
        subst s1. cbn in Hlook. rewrite lookup_insert_eq in Hlook. congruence.
      - intros a Ha'. discriminate Ha'. }
    assert (Hlook : g_vc_list s1 !! Z.to_nat 0 = Some device)
      by (rewrite Hl1; reflexivity).
    destruct (__vc_set_active_consistent device 0 s1 Hs1 (Z.le_refl 0) Hlook)
      as (s3 & Hrun3 & Hc3 & Hl3 & Ht3 & Ha3 & Hi3).
    unfold vc_set_active_console. rewrite Hn1, Hl1, Ha1.
    destruct (Z.leb_spec (g_vc_count s + 1) 0) as [|_]; [lia|].
    cbn [scan_for_index]. change (0 =? 0) with true. cbn [mbind option_bind].
    rewrite decide_False by discriminate.
    rewrite Hrun3. cbn [mbind option_bind]. unfold render_active. rewrite Ha3.
    cbn [mbind option_bind]. intros [= <- <-].
    eexists. split; [reflexivity|]. split; [exact Hc'|].
    cbn [emit g_vc_list g_vc_count g_active_vc g_active_vc_index trace].
    split; [rewrite Hl3, Hl1; reflexivity|].
    split; [rewrite (rc_count _ Hc3), Hl3, Hl1, Hcount, Hidx; reflexivity|].
    split; [|intros a' Ha'; discriminate Ha'].
    intros _. rewrite Ht3, Ht1. auto.
Qed.

(** Opening a console appends it to the registry.  The first console
    becomes Active at index 0 and is rendered; any later one is added
    Inactive while the Active console, its index and every other console
    stay as they were, and the Active console is rendered again. *)
Theorem vc_root_open_appends device d0 parent (s : vc_state) :
  reachable vc_device_rows s ->
  heap s !! device = None -> active d0 = false -> g_vc_count s + 1 < 2 ^ 32 ->
  exists s',
    vc_root_open (inr (device, d0)) parent NO_ERROR s = Some (NO_ERROR, s') /\
    reachable vc_device_rows s' /\
    g_vc_list s' = g_vc_list s ++ [device] /\
    g_vc_count s' = g_vc_count s + 1 /\
    (g_active_vc s = None ->
       g_active_vc s' = Some device /\ g_active_vc_index s' = 0 /\
       trace s' = trace s ++ [ev_render device]) /\
    (forall a, g_active_vc s = Some a ->
       g_active_vc s' = Some a /\ g_active_vc_index s' = g_active_vc_index s /\
       trace s' = trace s ++ [ev_render a] /\
       heap s' = <[device := d0]> (heap s)).
Proof.
  intros Hrun Hfresh Hd0 Hroom.
  pose proof (reachable_consistent vc_device_rows flag_bits_differ s Hrun) as Hc.
  destruct (vc_root_open_outcome device d0 parent s Hc Hfresh Hd0 Hroom)
    as (s' & Hopen & _ & Hrest).
  exists s'. split; [exact Hopen|]. split; [|exact Hrest].
  unfold reachable in *. eapply rtc_r; [exact Hrun|].
  eapply step_open; eassumption.
Qed.

(** A failed open leaves no trace: if the allocation fails its status is
    returned, and if adding the instance to its parent fails that status
    is returned and the new object is freed again; in both cases the
    state is exactly as before. *)
Theorem vc_root_open_failure_restores parent added device d0 status (s : vc_state) :
  vc_root_open (inl status) parent added s = Some (status, s) /\
  (heap s !! device = None -> added <> NO_ERROR ->
     vc_root_open (inr (device, d0)) true added s = Some (added, s)).
Proof.
  split; [reflexivity|].
  intros Hfresh Hadded. cbn [vc_root_open].
  rewrite bool_decide_eq_false_2 by exact Hadded. cbn [negb andb].
  cbn [heap with_heap]. rewrite delete_insert_id by exact Hfresh.
  f_equal. f_equal. destruct s. reflexivity.
Qed.

Lemma list_delete_snoc (l : list nat) vc :
  vc ∉ l -> list_delete vc (l ++ [vc]) = l.
Proof.
  induction l as [|d l IH]; intros Hout; cbn.
  - rewrite decide_True by reflexivity. reflexivity.
  - apply not_elem_of_cons in Hout as [Hne Hout].
    rewrite decide_False by congruence. rewrite (IH Hout). reflexivity.
Qed.

Lemma release_inactive_outcome vc a (s : vc_state) :
  registry_consistent s -> vc ∈ g_vc_list s ->
  g_active_vc s = Some a -> a <> vc ->
  exists (j k : nat) s',
    g_vc_list s !! k = Some vc /\
    list_delete vc (g_vc_list s) !! j = Some a /\
    Z.of_nat j = (if g_active_vc_index s <? Z.of_nat k
                  then g_active_vc_index s else g_active_vc_index s - 1) /\
    vc_device_release vc s = Some (NO_ERROR, s') /\
    registry_consistent s' /\
    g_vc_list s' = list_delete vc (g_vc_list s) /\
    g_vc_count s' = g_vc_count s - 1 /\
    g_active_vc s' = Some a /\
    g_active_vc_index s' = Z.of_nat j /\
    heap s' = delete vc (heap s) /\
    trace s' = trace s ++ [ev_render a].
Proof.
  intros Hc Hin Ha Hav.
  pose proof (rc_nodup _ Hc) as Hnd. pose proof (rc_bound _ Hc) as Hb.
  pose proof (rc_count _ Hc) as Hcount.
  pose proof (length_list_delete _ vc Hin) as Hlen.
  destruct (rc_live _ Hc vc Hin) as [d Hd].
  destruct (reachable_active_listed s a Hc Ha) as (Hi0 & Hi & Hal).
  assert (Hact : active d = false).
  { destruct (active d) eqn:E; [|reflexivity].
    apply (rc_flag _ Hc vc d Hin Hd) in E. congruence. }
  apply list_elem_of_lookup_1 in Hin as Hk. destruct Hk as [k Hk].
  assert (Hal' : a ∈ list_delete vc (g_vc_list s)).
  { rewrite elem_of_list_delete by exact Hnd. auto. }
  assert (Hcount' : wrap32 (g_vc_count s - 1)
                    = Z.of_nat (length (list_delete vc (g_vc_list s)))).
  { rewrite Hcount, Hlen. unfold wrap32. rewrite Z.mod_small; lia. }
  destruct (release_fixup_follow (list_delete vc (g_vc_list s)) 0 a
              (with_list (list_delete vc (g_vc_list s))
                 (Z.of_nat (length (list_delete vc (g_vc_list s)))) s))
    as (j & Hj & Hrun); [exact Ha | lia | lia | exact Hal' |].
  exists j, k. eexists. split; [exact Hk|]. split; [exact Hj|].
  split.
  { pose proof (list_delete_lookup _ vc k Hnd Hk j) as Hshift.
    rewrite Hj in Hshift.
    assert (Hkne : k <> Z.to_nat (g_active_vc_index s)).
    { intros ->. rewrite Hi in Hk. congruence. }
    destruct (Nat.ltb_spec j k) as [Hlt|Hge].
    - assert (Hsame : j = Z.to_nat (g_active_vc_index s))
        by exact (NoDup_lookup _ _ _ a Hnd (eq_sym Hshift) Hi).
      destruct (Z.ltb_spec (g_active_vc_index s) (Z.of_nat k)); lia.
    - assert (Hsame : S j = Z.to_nat (g_active_vc_index s))
        by exact (NoDup_lookup _ _ _ a Hnd (eq_sym Hshift) Hi).
      destruct (Z.ltb_spec (g_active_vc_index s) (Z.of_nat k)); lia. }
  split.
  { unfold vc_device_release. rewrite Hd. cbn [mbind option_bind].
    rewrite decide_True by exact Hin. rewrite Hact, Hcount'.
    cbn [g_vc_list with_list]. rewrite Hrun. cbn [mbind option_bind].
    cbn [g_active_vc with_heap with_index with_list]. rewrite Ha. reflexivity. }
  rewrite Z.add_0_l.
  split; [apply consistent_emit;
          exact (consistent_after_unlink vc a j s Hc Hin Ha Hav Hj)|].
  cbn. repeat split; try assumption. lia.
Qed.

(** Closing a console other than the Active one keeps the Active console
    Active and renders it; the active index goes down by one exactly when
    the closed console was registered before the Active one, so that it
    still names the Active console's place. *)
Theorem release_inactive_keeps_focus vc a (s : vc_state) :
  reachable vc_device_rows s -> vc ∈ g_vc_list s ->
  g_active_vc s = Some a -> a <> vc ->
  exists (k : nat) s',
    g_vc_list s !! k = Some vc /\
    vc_device_release vc s = Some (NO_ERROR, s') /\
    g_vc_list s' = list_delete vc (g_vc_list s) /\
    g_vc_count s' = g_vc_count s - 1 /\
    g_active_vc s' = Some a /\
    g_active_vc_index s' = (if g_active_vc_index s <? Z.of_nat k
                            then g_active_vc_index s else g_active_vc_index s - 1) /\
    g_vc_list s' !! Z.to_nat (g_active_vc_index s') = Some a /\
    heap s' = delete vc (heap s) /\
    trace s' = trace s ++ [ev_render a].
Proof.
  intros Hrun Hin Ha Hav.
  pose proof (reachable_consistent vc_device_rows flag_bits_differ s Hrun) as Hc.
  destruct (release_inactive_outcome vc a s Hc Hin Ha Hav)
    as (j & k & s' & Hk & Hj & Hjk & Hrel & _ & Hl & Hn & Ha' & Hi' & Hh & Ht).
  exists k, s'. split; [exact Hk|]. split; [exact Hrel|]. split; [exact Hl|].
  split; [exact Hn|]. split; [exact Ha'|]. split; [congruence|].
  split; [|auto]. rewrite Hi', Nat2Z.id, Hl. exact Hj.
Qed.

(** Opening a console while another one is Active and closing it again
    brings back the registry as it was: the same list, count, Active
    console, active index and console objects; only the two renders of
    the Active console remain in the trace. *)
Theorem open_then_close_restores device d0 parent a (s : vc_state) :
  reachable vc_device_rows s -> g_active_vc s = Some a ->
  heap s !! device = None -> active d0 = false -> g_vc_count s + 1 < 2 ^ 32 ->
  exists s1 s2,
    vc_root_open (inr (device, d0)) parent NO_ERROR s = Some (NO_ERROR, s1) /\
    vc_device_release device s1 = Some (NO_ERROR, s2) /\
    heap s2 = heap s /\
    g_vc_list s2 = g_vc_list s /\
    g_vc_count s2 = g_vc_count s /\
    g_active_vc s2 = g_active_vc s /\
    g_active_vc_index s2 = g_active_vc_index s /\
    trace s2 = trace s ++ [ev_render a; ev_render a].
Proof.
  intros Hrun Ha Hfresh Hd0 Hroom.
  pose proof (reachable_consistent vc_device_rows flag_bits_differ s Hrun) as Hc.
  destruct (reachable_active_listed s a Hc Ha) as (Hi0 & Hi & Hal).
  assert (Hout : device ∉ g_vc_list s).
  { intros Hin. destruct (rc_live _ Hc device Hin) as [d Hd]. congruence. }
  destruct (vc_root_open_outcome device d0 parent s Hc Hfresh Hd0 Hroom)
    as (s1 & Hopen & Hc1 & Hl1 & Hn1 & _ & Hkeep).
  destruct (Hkeep a Ha) as (Ha1 & Hi1 & Ht1 & Hh1).
  assert (Hin1 : device ∈ g_vc_list s1).
  { rewrite Hl1. apply elem_of_app. right. apply list_elem_of_singleton. reflexivity. }
  assert (Hne : a <> device) by (intros ->; contradiction).
  destruct (release_inactive_outcome device a s1 Hc1 Hin1 Ha1 Hne)
    as (j & k & s2 & _ & Hj & _ & Hrel & Hc2 & Hl2 & Hn2 & Ha2 & Hi2 & Hh2 & Ht2).
  rewrite Hl1, list_delete_snoc in Hl2, Hj by exact Hout.
  exists s1, s2. split; [exact Hopen|]. split; [exact Hrel|].
  split; [rewrite Hh2, Hh1; apply delete_insert_id; exact Hfresh|].
  split; [exact Hl2|]. split; [lia|]. split; [congruence|].
  split.
  - assert (Hsame : j = Z.to_nat (g_active_vc_index s))
      by exact (NoDup_lookup _ _ _ a (rc_nodup _ Hc) Hj Hi).
    lia.
  - rewrite Ht2, Ht1, <- app_assoc. reflexivity.
Qed.

(** Closing the only console empties the registry: no console is Active,
    the count is 0 and the unsigned active index has wrapped to 2^32 - 1;
    nothing is rendered.  The registry recovers: the next console opened
    becomes Active at index 0. *)
Theorem release_last_console vc device d0 parent (s : vc_state) :
  reachable vc_device_rows s -> g_vc_list s = [vc] ->
  heap s !! device = None -> active d0 = false ->
  exists s1 s2,
    vc_device_release vc s = Some (NO_ERROR, s1) /\
    g_vc_list s1 = [] /\ g_vc_count s1 = 0 /\ g_active_vc s1 = None /\
    g_active_vc_index s1 = 2 ^ 32 - 1 /\
    heap s1 = delete vc (heap s) /\
    trace s1 = trace s /\
    vc_root_open (inr (device, d0)) parent NO_ERROR s1 = Some (NO_ERROR, s2) /\
    g_vc_list s2 = [device] /\ g_active_vc s2 = Some device /\
    g_active_vc_index s2 = 0.
Proof.
  intros Hrun Hl Hfresh Hd0.
  pose proof (reachable_consistent vc_device_rows flag_bits_differ s Hrun) as Hc.
  assert (Hin : vc ∈ g_vc_list s) by (rewrite Hl; left).
  destruct (rc_live _ Hc vc Hin) as [d Hd].
  pose proof (rc_count _ Hc) as Hcount. rewrite Hl in Hcount. cbn in Hcount.
  pose proof (rc_index _ Hc) as Hidx.
  destruct (g_active_vc s) as [a|] eqn:Ha; [|rewrite Hl in Hidx; discriminate].
  destruct Hidx as [Hi0 Hi]. rewrite Hl in Hi.
  assert (Hz : g_active_vc_index s = 0).
  { apply lookup_lt_Some in Hi. cbn in Hi. lia. }
  rewrite Hz in Hi. cbn in Hi. injection Hi as <-.
  assert (Hact : active d = true) by (apply (rc_flag _ Hc vc d Hin Hd); exact Ha).
  assert (Hrel : vc_device_release vc s
                 = Some (NO_ERROR,
                         with_heap (delete vc (heap s))
                           (with_index (2 ^ 32 - 1)
                              (with_active None (with_list [] 0 s))))).
  { unfold vc_device_release. rewrite Hd. cbn [mbind option_bind].
    rewrite decide_True by exact Hin. rewrite Hact, Hl, Hcount.
    cbn [list_delete]. rewrite decide_True by reflexivity.
    change (wrap32 (1 - 1)) with 0.
    cbn [g_vc_count g_active_vc_index with_active with_list]. rewrite Hz.
    change (0 <=? 0) with true. cbv iota.
    change (wrap32 (0 - 1)) with (2 ^ 32 - 1). reflexivity. }
  assert (Hrun1 : reachable vc_device_rows
                    (with_heap (delete vc (heap s))
                       (with_index (2 ^ 32 - 1)
                          (with_active None (with_list [] 0 s))))).
  { unfold reachable in *. eapply rtc_r; [exact Hrun|].
    eapply step_release. exact Hrel. }
  pose proof (reachable_consistent vc_device_rows flag_bits_differ _ Hrun1) as Hc1.
  destruct (vc_root_open_outcome device d0 parent _ Hc1)
    as (s2 & Hopen & _ & Hl2 & _ & Hfirst & _);
    [ cbn; apply lookup_delete_None; auto | exact Hd0 | cbn; lia |].
  destruct (Hfirst eq_refl) as (Ha2 & Hi2 & _).
  eexists _, s2. split; [exact Hrel|]. cbn.
  repeat split; try assumption.
Qed.

End LifecycleFacts.

(** ** More on the repeat interval and the translator *)

(** The repeat interval is always the infinite timeout or a value between
    the high-frequency and the low-frequency constant. *)
Theorem repeat_interval_bounds inf repeat_enabled v :
  interval_held inf repeat_enabled v ->
  v = inf \/
  HIGH_REPEAT_KEY_FREQUENCY_MICRO <= v <= LOW_REPEAT_KEY_FREQUENCY_MICRO.
Proof.
  intros Hheld. destruct (interval_held_finite _ _ _ Hheld) as [->|[n ->]].
  - left. reflexivity.
  - right. apply after_timeouts_range.
Qed.

(** With key repeat switched off the interval never leaves the infinite
    timeout, whatever reports arrive: the wait never expires and no key
    is ever repeated. *)
Theorem repeat_disabled_never_fires inf v :
  interval_held inf false v -> v = inf.
Proof.
  induction 1 as [|w v Hheld IH Hfin]; [reflexivity|].
  destruct w; cbn; auto. exfalso. apply Hfin; auto.
Qed.

Section TranslatorTable.
Context `{hid_usages, vc_header, hid_keymaps}.

Lemma ansi_bytes_special keycode modifiers (keymap : keychar_t) output :
  length output = 4%nat ->
  wrap8 (hid_map_key keycode (c_true (Z.land modifiers MOD_SHIFT)) keymap) = 0 ->
  ansi_bytes keycode modifiers keymap output
  = snd (fold_right
           (fun '(label, bytes) '(found, result) =>
              if keycode =? label then (true, bytes) else (found, result))
           (false, [])
           [ (HID_USAGE_KEY_ENTER, [10]); (HID_USAGE_KEY_KP_ENTER, [10]);
             (HID_USAGE_KEY_BACKSPACE, [8]); (HID_USAGE_KEY_TAB, [9]);
             (HID_USAGE_KEY_ESC, [27]);
             (HID_USAGE_KEY_UP, [27; chr "["; chr "A"]);
             (HID_USAGE_KEY_DOWN, [27; chr "["; chr "B"]);
             (HID_USAGE_KEY_RIGHT, [27; chr "["; chr "C"]);
             (HID_USAGE_KEY_LEFT, [27; chr "["; chr "D"]);
             (HID_USAGE_KEY_HOME, [27; chr "["; chr "H"]);
             (HID_USAGE_KEY_END, [27; chr "["; chr "F"]);
             (HID_USAGE_KEY_DELETE, [27; chr "["; chr "3"; chr "~"]);
             (HID_USAGE_KEY_PAGEUP, [27; chr "["; chr "5"; chr "~"]);
             (HID_USAGE_KEY_PAGEDOWN, [27; chr "["; chr "6"; chr "~"]) ]).
Proof.
  intros Hlen Hch.
  destruct output as [|b0 [|b1 [|b2 [|b3 [|]]]]]; try discriminate Hlen.
  unfold ansi_bytes, hid_key_to_ansi_code.
  change (negb (4 =? 4)) with false. cbv iota. cbv zeta.
  rewrite Hch. change (c_true 0) with false. cbv iota.
  cbn [fold_right snd].
  repeat match goal with
  | |- context [keycode =? ?b] => destruct (keycode =? b); cbn [orb snd fst]
  end; reflexivity.
Qed.

(** The special keys.  A key for which the keymap has no character is
    translated by its key code alone, whatever the modifiers: Enter and
    keypad Enter to LF, Backspace to BS, Tab to HT, Escape to ESC, the
    arrows to ESC [ A/B/C/D for Up/Down/Right/Left, Home and End to
    ESC [ H and ESC [ F, Delete, PageUp and PageDown to ESC [ 3 ~,
    ESC [ 5 ~ and ESC [ 6 ~. *)
Theorem ansi_special_keys modifiers (keymap : keychar_t) output keycode :
  length output = 4%nat ->
  NoDup ansi_switch_labels ->
  wrap8 (hid_map_key keycode (c_true (Z.land modifiers MOD_SHIFT)) keymap) = 0 ->
  forall bytes,
    (keycode, bytes) ∈
      [ (HID_USAGE_KEY_ENTER, [10]); (HID_USAGE_KEY_KP_ENTER, [10]);
        (HID_USAGE_KEY_BACKSPACE, [8]); (HID_USAGE_KEY_TAB, [9]);
        (HID_USAGE_KEY_ESC, [27]);
        (HID_USAGE_KEY_UP, [27; chr "["; chr "A"]);
        (HID_USAGE_KEY_DOWN, [27; chr "["; chr "B"]);
        (HID_USAGE_KEY_RIGHT, [27; chr "["; chr "C"]);
        (HID_USAGE_KEY_LEFT, [27; chr "["; chr "D"]);
        (HID_USAGE_KEY_HOME, [27; chr "["; chr "H"]);
        (HID_USAGE_KEY_END, [27; chr "["; chr "F"]);
        (HID_USAGE_KEY_DELETE, [27; chr "["; chr "3"; chr "~"]);
        (HID_USAGE_KEY_PAGEUP, [27; chr "["; chr "5"; chr "~"]);
        (HID_USAGE_KEY_PAGEDOWN, [27; chr "["; chr "6"; chr "~"]) ] ->
    ansi_bytes keycode modifiers keymap output = bytes.
Proof.
  intros Hlen Hlabels Hch bytes Hin.
  rewrite (ansi_bytes_special keycode modifiers keymap output Hlen Hch).
  unfold ansi_switch_labels in Hlabels. split_labels.
  cbn [fold_right].
  repeat (apply elem_of_cons in Hin as [Hin|Hin];
          [injection Hin as -> ->; decide_labels; reflexivity|]).
  inversion Hin.
Qed.

(** CTRL with a keymap character.  Without SHIFT a lower-case letter
    gives the control codes 1 to 26 (CTRL-a is 1, CTRL-z is 26), and with
    SHIFT an upper-case letter gives the same codes.  The subtraction is
    done for every character: one below the base letter wraps around
    and comes out as a byte from 160 upwards. *)
Theorem ctrl_codes keycode modifiers (keymap : keychar_t) output :
  length output = 4%nat ->
  Z.land modifiers MOD_CTRL <> 0 ->
  let shift := c_true (Z.land modifiers MOD_SHIFT) in
  let base := if shift then chr "A" else chr "a" in
  let ch := wrap8 (hid_map_key keycode shift keymap) in
  ch <> 0 ->
  (base <= ch <= base + 25 ->
     ansi_bytes keycode modifiers keymap output = [ch - base + 1] /\
     1 <= ch - base + 1 <= 26) /\
  (ch < base - 1 ->
     ansi_bytes keycode modifiers keymap output = [ch - base + 257] /\
     160 <= ch - base + 257 < 256).
Proof.
  intros Hlen Hctrl shift base ch Hch.
  destruct output as [|b0 [|b1 [|b2 [|b3 [|]]]]]; try discriminate Hlen.
  assert (Hbyte : 0 <= ch < 256) by (apply Z.mod_pos_bound; reflexivity).
  assert (Hrun : ansi_bytes keycode modifiers keymap [b0; b1; b2; b3]
                 = [wrap8 (ch - base + 1)]).
  { unfold ansi_bytes, hid_key_to_ansi_code.
    change (negb (4 =? 4)) with false. cbv iota.
    fold shift. fold ch.
    apply c_true_true in Hch, Hctrl. rewrite Hch, Hctrl.
    unfold base. destruct shift; reflexivity. }
  assert (Hbase : base = 65 \/ base = 97) by (unfold base; destruct shift; auto).
  rewrite Hrun. unfold wrap8. split.
  - intros Hletter. rewrite Z.mod_small by lia. split; [reflexivity | lia].
  - intros Hlow. split; [|lia]. f_equal.
    symmetry. apply (Z.mod_unique _ _ (-1)); [left; lia | lia].
Qed.

(** The translator reports between 0 and 4 bytes and stores exactly the
    bytes it reports: the rest of the caller's array is left as it was,
    and the reported bytes do not depend on what the array held. *)
Theorem translator_stores_what_it_reports keycode modifiers (keymap : keychar_t)
    output output' :
  length output = 4%nat -> length output' = 4%nat ->
  let '(len, out) := hid_key_to_ansi_code keycode modifiers keymap output 4 in
  0 <= len <= 4 /\
  len <> 2 /\
  length out = 4%nat /\
  drop (Z.to_nat len) out = drop (Z.to_nat len) output /\
  ansi_bytes keycode modifiers keymap output
    = ansi_bytes keycode modifiers keymap output'.
Proof.
  intros Hlen Hlen'.
  destruct output as [|b0 [|b1 [|b2 [|b3 [|]]]]]; try discriminate Hlen.
  destruct output' as [|c0 [|c1 [|c2 [|c3 [|]]]]]; try discriminate Hlen'.
  unfold ansi_bytes, hid_key_to_ansi_code.
  change (negb (4 =? 4)) with false. cbv iota zeta.
  repeat match goal with
  | |- context [if ?c then _ else _] => destruct c
  end; repeat split; (lia || reflexivity || discriminate).
Qed.

End TranslatorTable.

(** ** Keyboard reports *)

Section KeyboardFacts.
Context `{hid_usages, vc_header, hid_keymaps, hid_fifo_capacity}.
Context `{hid_modifier_usages, vc_modifier_bits, hid_keyboard}.
Variable vc_device_rows : vc_device_t -> Z.
Hypothesis flag_bits_differ : Z.land VC_FLAG_RESETSCROLL VC_FLAG_HASINPUT = 0.
Variable MX_TIME_INFINITE : Z.

#[local] Arguments vc_handle_key_press : simpl never.
#[local] Arguments vc_handle_control_keys : simpl never.

Lemma modifiers_from_keycode_other keycode :
  keycode ∉ modifier_switch_labels -> modifiers_from_keycode keycode = 0.
Proof.
  intros Hout. unfold modifiers_from_keycode.
  repeat match goal with
  | |- context [?a =? ?b] =>
      destruct (Z.eqb_spec a b) as [Heq|_];
      [exfalso; apply Hout; rewrite Heq; unfold modifier_switch_labels;
       repeat (first [apply list_elem_of_here | apply list_elem_of_further])|]
  end.
  reflexivity.
Qed.

Lemma modifier_bits_none keys :
  Forall (fun keycode => keycode ∉ modifier_switch_labels) keys ->
  modifier_bits keys = 0.
Proof.
  induction 1 as [|k keys Hk _ IH]; [reflexivity|].
  cbn [modifier_bits fold_right]. fold (modifier_bits keys).
  rewrite IH, modifiers_from_keycode_other by exact Hk. reflexivity.
Qed.

Lemma press_keys_modifiers dmctl keys : forall m (s : vc_state) m' s',
  press_keys vc_device_rows dmctl keys m s = Some (m', s') ->
  m' = Z.lor m (modifier_bits keys).
Proof.
  induction keys as [|k keys IH]; intros m s m' s' Hp; cbn [press_keys] in Hp.
  - injection Hp as <- _. cbn. rewrite Z.lor_0_r. reflexivity.
  - destruct (vc_handle_key_press _ _ _ _ _) as [s1|]; cbn [mbind option_bind] in Hp;
      [|discriminate].
    apply IH in Hp. rewrite Hp. cbn [modifier_bits fold_right].
    fold (modifier_bits keys). rewrite Z.lor_assoc. reflexivity.
Qed.

Lemma release_keys_modifiers keys : forall m,
  release_keys keys m = Z.land m (Z.lnot (modifier_bits keys)).
Proof.
  unfold release_keys.
  induction keys as [|k keys IH]; intros m; cbn [fold_left modifier_bits fold_right].
  - change (Z.lnot 0) with (-1). rewrite Z.land_m1_r. reflexivity.
  - fold (modifier_bits keys). rewrite IH, Z.lnot_lor, Z.land_assoc. reflexivity.
Qed.

(** [vc_process_kb_report] with the array accesses resolved. *)
Lemma vc_process_kb_report_run dmctl report (k : kb_state) (s : vc_state) :
  generations_apart k ->
  exists old,
    array_get (key_state k) (prev_idx k) = Some old /\
    vc_process_kb_report vc_device_rows dmctl report k s =
      ('(m1, s1) ← press_keys vc_device_rows dmctl
                     (hid_for_every_key
                        (hid_kbd_pressed_keys old (hid_kbd_parse_report report)))
                     (modifiers k) s;
       Some ({| key_state := <[Z.to_nat (cur_idx k) := hid_kbd_parse_report report]>
                               (key_state k);
                cur_idx := prev_idx k; prev_idx := cur_idx k;
                modifiers :=
                  release_keys
                    (hid_for_every_key
                       (hid_kbd_released_keys old (hid_kbd_parse_report report)))
                    m1 |},
             hid_kbd_pressed_keys old (hid_kbd_parse_report report),
             hid_kbd_released_keys old (hid_kbd_parse_report report), s1)).
Proof.
  destruct k as [ks c p m]. unfold generations_apart. cbn.
  intros [Hlen Hidx].
  destruct ks as [|a [|b [|]]]; try discriminate Hlen.
  destruct Hidx as [[-> ->]|[-> ->]].
  - exists b. split; [reflexivity|]. reflexivity.
  - exists a. split; [reflexivity|]. reflexivity.
Qed.

Lemma vc_process_kb_report_snapshots dmctl report (k k' : kb_state)
    (s s' : vc_state) key_pressed key_released :
  generations_apart k ->
  vc_process_kb_report vc_device_rows dmctl report k s
    = Some (k', key_pressed, key_released, s') ->
  generations_apart k' /\
  cur_idx k' = prev_idx k /\ prev_idx k' = cur_idx k /\
  array_get (key_state k') (prev_idx k') = Some (hid_kbd_parse_report report) /\
  array_get (key_state k') (cur_idx k') = array_get (key_state k) (prev_idx k) /\
  exists old,
    array_get (key_state k) (prev_idx k) = Some old /\
    key_pressed = hid_kbd_pressed_keys old (hid_kbd_parse_report report) /\
    key_released = hid_kbd_released_keys old (hid_kbd_parse_report report) /\
    exists m1,
      press_keys vc_device_rows dmctl (hid_for_every_key key_pressed) (modifiers k) s
        = Some (m1, s') /\
      modifiers k' = release_keys (hid_for_every_key key_released) m1.
Proof.
  intros Hgen Hrun.
  destruct (vc_process_kb_report_run dmctl report k s Hgen) as (old & Hold & Heq).
  rewrite Heq in Hrun.
  destruct (press_keys _ _ _ _ _) as [[m1 s1]|] eqn:Hpress;
    cbn [mbind option_bind] in Hrun; [|discriminate].
  injection Hrun as <- <- <- <-.
  destruct k as [ks c p m]. unfold generations_apart in *. cbn in *.
  destruct Hgen as [Hlen Hidx].
  destruct ks as [|a [|b [|]]]; try discriminate Hlen.
  destruct Hidx as [[-> ->]|[-> ->]]; cbn in *;
    (split; [split; [reflexivity|auto]|]);
    (split; [reflexivity|]); (split; [reflexivity|]);
    (split; [reflexivity|]); (split; [reflexivity|]);
    exists old; (split; [exact Hold|]); (split; [reflexivity|]);
    (split; [reflexivity|]); exists m1; split; [exact Hpress|reflexivity|exact Hpress|reflexivity].
Qed.

(** The modifier mask after a report: the bits of every key the report
    pressed are added, then the bits of every key it released are taken
    away, whatever else the key presses did.  Keys other than the six
    modifier keys leave the mask alone. *)
Theorem report_modifier_mask dmctl report (k k' : kb_state) (s s' : vc_state)
    key_pressed key_released :
  vc_process_kb_report vc_device_rows dmctl report k s
    = Some (k', key_pressed, key_released, s') ->
  modifiers k' =
    Z.land (Z.lor (modifiers k) (modifier_bits (hid_for_every_key key_pressed)))
           (Z.lnot (modifier_bits (hid_for_every_key key_released))) /\
  (Forall (fun keycode => keycode ∉ modifier_switch_labels)
          (hid_for_every_key key_pressed ++ hid_for_every_key key_released) ->
   modifiers k' = modifiers k).
Proof.
  unfold vc_process_kb_report. intros Hrun.
  destruct (array_set _ _ _) as [ks|]; cbn [mbind option_bind] in Hrun; [|discriminate].
  destruct (array_get ks (prev_idx k)) as [prev|]; cbn [mbind option_bind] in Hrun;
    [|discriminate].
  destruct (array_get ks (cur_idx k)) as [cur|]; cbn [mbind option_bind] in Hrun;
    [|discriminate].
  destruct (press_keys _ _ _ _ _) as [[m1 s1]|] eqn:Hpress;
    cbn [mbind option_bind] in Hrun; [|discriminate].
  injection Hrun as <- <- <- <-. cbn [modifiers].
  apply press_keys_modifiers in Hpress. rewrite release_keys_modifiers, Hpress.
  split; [reflexivity|].
  intros Hall. apply Forall_app in Hall as [Hp Hr].
  rewrite (modifier_bits_none _ Hp), (modifier_bits_none _ Hr).
  change (Z.lnot 0) with (-1). rewrite Z.lor_0_r, Z.land_m1_r. reflexivity.
Qed.

(** The two snapshot generations change roles with every report.  After
    a call the `previous' slot holds the report just parsed and the
    `current' slot the snapshot it was compared with; the deltas handed
    back are those between that older snapshot and the new report, and
    the keys of the first are the ones pressed. *)
Theorem report_swaps_snapshots dmctl report (k k' : kb_state)
    (s s' : vc_state) key_pressed key_released :
  generations_apart k ->
  vc_process_kb_report vc_device_rows dmctl report k s
    = Some (k', key_pressed, key_released, s') ->
  generations_apart k' /\
  cur_idx k' = prev_idx k /\ prev_idx k' = cur_idx k /\
  array_get (key_state k') (prev_idx k') = Some (hid_kbd_parse_report report) /\
  array_get (key_state k') (cur_idx k') = array_get (key_state k) (prev_idx k) /\
  exists old,
    array_get (key_state k) (prev_idx k) = Some old /\
    key_pressed = hid_kbd_pressed_keys old (hid_kbd_parse_report report) /\
    key_released = hid_kbd_released_keys old (hid_kbd_parse_report report) /\
    exists m1,
      press_keys vc_device_rows dmctl (hid_for_every_key key_pressed) (modifiers k) s
        = Some (m1, s') /\
      modifiers k' = release_keys (hid_for_every_key key_released) m1.
Proof. exact (vc_process_kb_report_snapshots dmctl report k k' s s' key_pressed key_released). Qed.

Lemma press_keys_defined dmctl keys : forall m (s : vc_state),
  reachable vc_device_rows s -> g_active_vc s <> None ->
  exists m' s',
    press_keys vc_device_rows dmctl keys m s = Some (m', s') /\
    reachable vc_device_rows s' /\ g_active_vc s' <> None.
Proof.
  induction keys as [|k keys IH]; intros m s Hrun Ha; cbn [press_keys].
  - eauto.
  - pose proof (reachable_consistent vc_device_rows flag_bits_differ s Hrun) as Hc.
    destruct (vc_handle_key_press_defined vc_device_rows dmctl k
                (Z.lor m (modifiers_from_keycode k)) s Hc Ha) as [s1 Hpress].
    rewrite Hpress. cbn [mbind option_bind].
    apply IH.
    + eapply reachable_step; [exact Hrun|]. eapply step_key_press. exact Hpress.
    + eapply vc_handle_key_press_keeps_console; eassumption.
Qed.

(** With a console Active a report is always processed to the end: in a
    state a run of the driver reaches, every key of the delta finds a
    console to go to, also after a key of the same report has switched
    consoles, and the state afterwards is again one a run reaches, with a
    console Active. *)
Theorem report_processing_defined dmctl report (k : kb_state) (s : vc_state) :
  reachable vc_device_rows s -> g_active_vc s <> None -> generations_apart k ->
  exists k' key_pressed key_released s',
    vc_process_kb_report vc_device_rows dmctl report k s
      = Some (k', key_pressed, key_released, s') /\
    reachable vc_device_rows s' /\ g_active_vc s' <> None.
Proof.
  intros Hrun Ha Hgen.
  destruct (vc_process_kb_report_run dmctl report k s Hgen) as (old & _ & ->).
  destruct (press_keys_defined dmctl
              (hid_for_every_key (hid_kbd_pressed_keys old (hid_kbd_parse_report report)))
              (modifiers k) s Hrun Ha) as (m1 & s1 & -> & Hrun1 & Ha1).
  cbn [mbind option_bind]. eauto 10.
Qed.

(** What every thread state of a run satisfies: the indices name the
    two slots, and whenever the wait can expire the `previous' slot holds
    the parse of [report_buf]. *)
Lemma thread_held_snapshot repeat_enabled (t : input_thread) :
  thread_held vc_device_rows MX_TIME_INFINITE repeat_enabled t ->
  generations_apart (kb t) /\
  (repeat_interval t <> MX_TIME_INFINITE ->
   array_get (key_state (kb t)) (prev_idx (kb t))
     = Some (hid_kbd_parse_report (report_buf t))).
Proof.
  induction 1 as [previous report|dmctl w t s t' s' Hheld [Hgen Hsnap] Hfin Hturn].
  - split; [split; [reflexivity|left; split; reflexivity]|].
    intros Hne. cbn in Hne. contradiction.
  - destruct w as [|r data]; cbn [vc_input_turn] in Hturn.
    + destruct (vc_process_kb_report _ _ (previous_report_buf t) _ _)
        as [[[[k1 p1] r1] s1]|] eqn:Hfirst; cbn [mbind option_bind] in Hturn;
        [|discriminate].
      destruct (vc_process_kb_report _ _ (report_buf t) _ _)
        as [[[[k2 p2] r2] s2]|] eqn:Hsecond; cbn [mbind option_bind] in Hturn;
        [|discriminate].
      injection Hturn as <- _. cbn.
      destruct (vc_process_kb_report_snapshots _ _ _ _ _ _ _ _ Hgen Hfirst)
        as (Hgen1 & _).
      destruct (vc_process_kb_report_snapshots _ _ _ _ _ _ _ _ Hgen1 Hsecond)
        as (Hgen2 & _ & _ & Hprev & _).
      split; [exact Hgen2|]. intros _. exact Hprev.
    + destruct (r <? 0); [discriminate|].
      destruct (negb (r =? 8)).
      { injection Hturn as <- _. cbn. split; [exact Hgen|]. intros Hne. contradiction. }
      destruct (g_active_vc s).
      * destruct (vc_process_kb_report _ _ data _ _)
          as [[[[k1 p1] r1] s1]|] eqn:Hfirst; cbn [mbind option_bind] in Hturn;
          [|discriminate].
        injection Hturn as <- _. cbn.
        destruct (vc_process_kb_report_snapshots _ _ _ _ _ _ _ _ Hgen Hfirst)
          as (Hgen1 & _ & _ & Hprev & _).
        split; [exact Hgen1|]. intros _. exact Hprev.
      * injection Hturn as <- _. cbn. split; [exact Hgen|].
        intros Hne. contradiction.
Qed.

(** The invariant of the keyboard thread.  In every state the loop is in,
    the two indices name the two snapshot slots, one each; and whenever
    the repeat interval is finite, so that the wait can expire, the
    `previous' slot holds the parse of the report in [report_buf]. *)
Theorem thread_snapshot_invariant repeat_enabled (t : input_thread) :
  thread_held vc_device_rows MX_TIME_INFINITE repeat_enabled t ->
  generations_apart (kb t) /\
  (repeat_interval t <> MX_TIME_INFINITE ->
   array_get (key_state (kb t)) (prev_idx (kb t))
     = Some (hid_kbd_parse_report (report_buf t))).
Proof. exact (thread_held_snapshot repeat_enabled t). Qed.

(** A timeout processes both report buffers once more.  When the wait
    expires the thread first processes [previous_report_buf], which
    presses the keys the library reports as pressed in going from the
    report in [report_buf] to it, and then [report_buf], which presses
    the keys reported as pressed in going from [previous_report_buf] to
    it.  Afterwards the two buffers and the two indices are as before,
    the `previous' slot again holds the parse of [report_buf], the
    `current' slot holds the parse of [previous_report_buf], whatever it
    held before, and the interval has gone through one acceleration
    step. *)
Theorem timeout_reprocesses_buffers repeat_enabled dmctl (t t' : input_thread)
    (s s' : vc_state) :
  thread_held vc_device_rows MX_TIME_INFINITE repeat_enabled t ->
  repeat_interval t <> MX_TIME_INFINITE ->
  vc_input_turn vc_device_rows MX_TIME_INFINITE repeat_enabled dmctl wait_timed_out t s
    = Some (thread_continues t' s') ->
  let before := hid_kbd_parse_report (previous_report_buf t) in
  let last := hid_kbd_parse_report (report_buf t) in
  previous_report_buf t' = previous_report_buf t /\
  report_buf t' = report_buf t /\
  cur_idx (kb t') = cur_idx (kb t) /\ prev_idx (kb t') = prev_idx (kb t) /\
  array_get (key_state (kb t')) (prev_idx (kb t')) = Some last /\
  array_get (key_state (kb t')) (cur_idx (kb t')) = Some before /\
  repeat_interval t' = accelerate (repeat_interval t) /\
  exists m1 s1 m2,
    press_keys vc_device_rows dmctl
      (hid_for_every_key (hid_kbd_pressed_keys last before)) (modifiers (kb t)) s
      = Some (m1, s1) /\
    press_keys vc_device_rows dmctl
      (hid_for_every_key (hid_kbd_pressed_keys before last))
      (release_keys (hid_for_every_key (hid_kbd_released_keys last before)) m1) s1
      = Some (m2, s') /\
    modifiers (kb t') =
      release_keys (hid_for_every_key (hid_kbd_released_keys before last)) m2.
Proof.
  intros Hheld Hfin Hturn before last.
  destruct (thread_held_snapshot repeat_enabled t Hheld) as [Hgen Hsnap].
  specialize (Hsnap Hfin). cbn [vc_input_turn] in Hturn.
  destruct (vc_process_kb_report _ _ (previous_report_buf t) _ _)
    as [[[[k1 p1] r1] s1]|] eqn:Hfirst; cbn [mbind option_bind] in Hturn;
    [|discriminate].
  destruct (vc_process_kb_report _ _ (report_buf t) _ _)
    as [[[[k2 p2] r2] s2]|] eqn:Hsecond; cbn [mbind option_bind] in Hturn;
    [|discriminate].
  injection Hturn as <- <-. cbn.
  destruct (vc_process_kb_report_snapshots _ _ _ _ _ _ _ _ Hgen Hfirst)
    as (Hgen1 & Hc1 & Hp1 & Hprev1 & Hcur1 & old1 & Hold1 & -> & -> & m1 & Hpress1 & Hm1).
  destruct (vc_process_kb_report_snapshots _ _ _ _ _ _ _ _ Hgen1 Hsecond)
    as (Hgen2 & Hc2 & Hp2 & Hprev2 & Hcur2 & old2 & Hold2 & -> & -> & m2 & Hpress2 & Hm2).
  rewrite Hsnap in Hold1. injection Hold1 as <-.
  rewrite Hprev1 in Hold2. injection Hold2 as <-.
  split; [reflexivity|]. split; [reflexivity|].
  split; [congruence|]. split; [congruence|].
  split; [exact Hprev2|].
  split; [rewrite Hcur2; exact Hprev1|].
  split; [reflexivity|].
  exists m1, s1, m2. rewrite Hm1 in Hpress2. auto.
Qed.

(** The timeout turn with the array accesses resolved. *)
Lemma vc_input_turn_timeout_run repeat_enabled dmctl (t : input_thread)
    (s : vc_state) :
  thread_held vc_device_rows MX_TIME_INFINITE repeat_enabled t ->
  repeat_interval t <> MX_TIME_INFINITE ->
  let before := hid_kbd_parse_report (previous_report_buf t) in
  let last := hid_kbd_parse_report (report_buf t) in
  vc_input_turn vc_device_rows MX_TIME_INFINITE repeat_enabled dmctl
    wait_timed_out t s =
  ('(m1, s1) ← press_keys vc_device_rows dmctl
                 (hid_for_every_key (hid_kbd_pressed_keys last before))
                 (modifiers (kb t)) s;
   '(m2, s2) ← press_keys vc_device_rows dmctl
                 (hid_for_every_key (hid_kbd_pressed_keys before last))
                 (release_keys
                    (hid_for_every_key (hid_kbd_released_keys last before)) m1) s1;
   Some (thread_continues
           {| previous_report_buf := previous_report_buf t;
              report_buf := report_buf t;
              kb := {| key_state :=
                         <[Z.to_nat (prev_idx (kb t)) := last]>
                           (<[Z.to_nat (cur_idx (kb t)) := before]>
                              (key_state (kb t)));
                       cur_idx := cur_idx (kb t); prev_idx := prev_idx (kb t);
                       modifiers :=
                         release_keys
                           (hid_for_every_key (hid_kbd_released_keys before last))
                           m2 |};
              repeat_interval := accelerate (repeat_interval t) |} s2)).
Proof.
  intros Hheld Hfin before last.
  destruct (thread_held_snapshot repeat_enabled t Hheld) as [Hgen Hsnap].
  specialize (Hsnap Hfin). cbn [vc_input_turn].
  destruct (vc_process_kb_report_run dmctl (previous_report_buf t) (kb t) s Hgen)
    as (old & Hold & ->).
  rewrite Hsnap in Hold. injection Hold as <-.
  fold before last.
  destruct (press_keys _ _ (hid_for_every_key (hid_kbd_pressed_keys last before)) _ _)
    as [[m1 s1]|]; cbn [mbind option_bind]; [|reflexivity].
  match goal with
  | |- context [vc_process_kb_report _ _ _ ?k1 _] =>
      assert (Hgen1 : generations_apart k1)
  end.
  { destruct Hgen as [Hlen Hidx]. split; cbn.
    - rewrite length_insert. exact Hlen.
    - destruct Hidx as [[-> ->]|[-> ->]]; auto. }
  match goal with
  | |- context [vc_process_kb_report _ _ _ ?k1 _] =>
      destruct (vc_process_kb_report_run dmctl (report_buf t) k1 s1 Hgen1)
        as (old & Hold & ->)
  end.
  cbn [key_state prev_idx cur_idx modifiers] in Hold |- *.
  assert (Hbefore : old = before).
  { destruct Hgen as [Hlen Hidx].
    destruct (key_state (kb t)) as [|a [|b [|]]]; try discriminate Hlen.
    destruct Hidx as [[Hc Hp]|[Hc Hp]]; rewrite Hc in Hold; cbn in Hold;
      injection Hold as <-; reflexivity. }
  rewrite Hbefore. fold last.
  destruct (press_keys _ _ (hid_for_every_key (hid_kbd_pressed_keys before last)) _ _)
    as [[m2 s2]|]; reflexivity.
Qed.

(** The check for a console is made for a report that was read, not for
    a timeout.  With no console Active a report that arrives is dropped,
    whatever state the thread is in: nothing is parsed, snapshots and
    modifiers stay, the repeat is switched off and the driver state is
    as before.  If instead the wait expires with no console Active, both
    buffers are processed all the same.  That is harmless only if this
    presses no key, as with two equal reports; if the first key it
    presses is one the interceptor passes on, the key is handled through
    the null [g_active_vc], with no defined outcome. *)
Theorem timeout_without_console repeat_enabled dmctl (t : input_thread)
    (s : vc_state) :
  g_active_vc s = None ->
  (forall data,
     vc_input_turn vc_device_rows MX_TIME_INFINITE repeat_enabled dmctl
       (wait_readable 8 data) t s
       = Some (thread_continues
                 {| previous_report_buf := report_buf t; report_buf := data;
                    kb := kb t; repeat_interval := MX_TIME_INFINITE |} s)) /\
  (thread_held vc_device_rows MX_TIME_INFINITE repeat_enabled t ->
   repeat_interval t <> MX_TIME_INFINITE ->
   let before := hid_kbd_parse_report (previous_report_buf t) in
   let last := hid_kbd_parse_report (report_buf t) in
   let undone := hid_for_every_key (hid_kbd_pressed_keys last before) in
   let redone := hid_for_every_key (hid_kbd_pressed_keys before last) in
   let released :=
     release_keys (hid_for_every_key (hid_kbd_released_keys last before))
                  (modifiers (kb t)) in
   (undone = [] -> redone = [] ->
      exists t',
        vc_input_turn vc_device_rows MX_TIME_INFINITE repeat_enabled dmctl
          wait_timed_out t s = Some (thread_continues t' s)) /\
   (forall keycode rest,
      undone = keycode :: rest ->
      vc_handle_control_keys vc_device_rows dmctl keycode
        (Z.lor (modifiers (kb t)) (modifiers_from_keycode keycode)) s
        = Some (false, s) ->
      vc_input_turn vc_device_rows MX_TIME_INFINITE repeat_enabled dmctl
        wait_timed_out t s = None) /\
   (forall keycode rest,
      undone = [] -> redone = keycode :: rest ->
      vc_handle_control_keys vc_device_rows dmctl keycode
        (Z.lor released (modifiers_from_keycode keycode)) s = Some (false, s) ->
      vc_input_turn vc_device_rows MX_TIME_INFINITE repeat_enabled dmctl
        wait_timed_out t s = None)).
Proof.
  intros Hnone. split.
  - intros data. cbn [vc_input_turn]. rewrite Hnone. reflexivity.
  - intros Hheld Hfin before last undone redone released.
    pose proof (vc_input_turn_timeout_run repeat_enabled dmctl t s Hheld Hfin)
      as Hturn.
    cbv zeta in Hturn. fold before last in Hturn. fold undone redone in Hturn.
    split; [|split].
    + intros Hundo Hredo. rewrite Hturn, Hundo. cbn [press_keys mbind option_bind].
      rewrite Hredo. cbn [press_keys mbind option_bind]. eexists. reflexivity.
    + intros keycode rest Hundo Hkeys. rewrite Hturn, Hundo. cbn [press_keys].
      unfold vc_handle_key_press. rewrite Hkeys. cbn [mbind option_bind].
      rewrite Hnone. reflexivity.
    + intros keycode rest Hundo Hredo Hkeys. rewrite Hturn, Hundo.
      cbn [press_keys mbind option_bind]. fold released. rewrite Hredo.
      cbn [press_keys]. unfold vc_handle_key_press. rewrite Hkeys.
      cbn [mbind option_bind]. rewrite Hnone. reflexivity.
Qed.

End KeyboardFacts.

(** ** Binding *)

Section BindFacts.
Context `{hid_usages, vc_header, hid_keymaps, hid_fifo_capacity, mx_status_codes}.

#[local] Arguments vc_root_open : simpl never.

Lemma vc_root_bind_outcome e dev (r r' : root_state) st :
  0 <= status_code NO_ERROR -> ERR_NOT_SUPPORTED <> status_code NO_ERROR ->
  vc_root_bind e dev r = Some (st, r') ->
  (st = status_code NO_ERROR ->
     g_vc_initialized r = false /\ g_vc_initialized r' = true) /\
  (st <> status_code NO_ERROR ->
     g_vc_initialized r' = g_vc_initialized r /\ consoles r' = consoles r /\
     forall t, t ∈ spawned r' -> t ∈ spawned r \/ t = vc_inputdev_poll).
Proof.
  intros Hzero Hother. unfold vc_root_bind.
  destruct (g_vc_initialized r) eqn:Hinit.
  { intros [= <- <-]. split; [intros Heq; contradiction|]. auto. }
  destruct (Z.ltb_spec (got_protocol e) 0).
  { intros [= <- <-]. split; [intros Heq; lia|]. auto. }
  destruct (Z.ltb_spec (got_mode e) 0).
  { intros [= <- <-]. split; [intros Heq; lia|]. auto. }
  destruct (Z.ltb_spec (got_framebuffer e) 0).
  { intros [= <- <-]. split; [intros Heq; lia|]. auto. }
  destruct (Z.ltb_spec (surface_initialized e) 0).
  { intros [= <- <-]. split; [intros Heq; lia|]. auto. }
  destruct (Z.eqb_spec (device_created e) (status_code NO_ERROR)); cbn [negb].
  2:{ intros [= <- <-]. split; [intros Heq; contradiction|]. cbn. auto. }
  destruct (Z.eqb_spec (device_added e) (status_code NO_ERROR)); cbn [negb].
  2:{ intros [= <- <-]. split; [intros Heq; contradiction|]. cbn.
      intros _. split; [reflexivity|]. split; [reflexivity|].
      intros t Hin. apply elem_of_app in Hin as [Hin|Hin]; [auto|].
      apply list_elem_of_singleton in Hin. auto. }
  destruct (vc_root_open _ _ _ _) as [[status cs]|]; cbn [mbind option_bind];
    [|discriminate].
  intros [= <- <-]. split; [|intros Hne; contradiction].
  intros _. split; [reflexivity|].
  destruct status, (allocated e) as [?|[? ?]]; reflexivity.
Qed.

(** The driver binds once.  A bind that returns [NO_ERROR] sets the
    initialised flag, and from then on every bind, whatever the display
    answers, returns [ERR_NOT_SUPPORTED] and changes nothing.  A bind
    that returns anything else leaves the flag and the registry of
    consoles as they were, so it can be tried again; the only thread it
    may have started is the poller for input devices. *)
Theorem bind_only_once e dev (r r' : root_state) st :
  0 <= status_code NO_ERROR -> ERR_NOT_SUPPORTED <> status_code NO_ERROR ->
  vc_root_bind e dev r = Some (st, r') ->
  (st = status_code NO_ERROR ->
     g_vc_initialized r = false /\ g_vc_initialized r' = true /\
     forall e' dev', vc_root_bind e' dev' r' = Some (ERR_NOT_SUPPORTED, r')) /\
  (st <> status_code NO_ERROR ->
     g_vc_initialized r' = g_vc_initialized r /\ consoles r' = consoles r /\
     forall t, t ∈ spawned r' -> t ∈ spawned r \/ t = vc_inputdev_poll).
Proof.
  intros Hzero Hother Hrun.
  destruct (vc_root_bind_outcome e dev r r' st Hzero Hother Hrun) as [Hok Hfail].
  split; [|exact Hfail].
  intros Hst. destruct (Hok Hst) as [Hbefore Hafter].
  split; [exact Hbefore|]. split; [exact Hafter|].
  intros e' dev'. unfold vc_root_bind. rewrite Hafter. reflexivity.
Qed.

(** A bind in which the display answers every call with success opens
    the log console: with no console registered before, the new console
    is the only addition to the registry and is Active at index 0, and
    the threads started are the input-device poller, the log reader on
    that console and the poller for the battery device, in this order.
    If the console cannot be allocated the bind still returns [NO_ERROR]
    and sets the initialised flag, with no console and no log reader. *)
Theorem bind_opens_log_console e dev (r : root_state) :
  g_vc_initialized r = false ->
  0 <= got_protocol e -> 0 <= got_mode e -> 0 <= got_framebuffer e ->
  0 <= surface_initialized e ->
  device_created e = status_code NO_ERROR ->
  device_added e = status_code NO_ERROR ->
  registry_consistent (consoles r) -> g_active_vc (consoles r) = None ->
  (forall device d0,
     allocated e = inr (device, d0) ->
     heap (consoles r) !! device = None -> active d0 = false ->
     exists cs,
       vc_root_bind e dev r
         = Some (status_code NO_ERROR,
                 {| g_vc_initialized := true; g_fb_device := Some dev;
                    flush_hooked := if has_flush e then true else flush_hooked r;
                    spawned := spawned r ++ [vc_inputdev_poll; vc_log_reader device;
                                             vc_misc_poll];
                    consoles := cs |}) /\
       registry_consistent cs /\
       g_vc_list cs = [device] /\ g_vc_count cs = 1 /\
       g_active_vc cs = Some device /\ g_active_vc_index cs = 0 /\
       trace cs = trace (consoles r) ++ [ev_render device]) /\
  (forall status,
     allocated e = inl status -> status <> NO_ERROR ->
     vc_root_bind e dev r
       = Some (status_code NO_ERROR,
               {| g_vc_initialized := true; g_fb_device := Some dev;
                  flush_hooked := if has_flush e then true else flush_hooked r;
                  spawned := spawned r ++ [vc_inputdev_poll; vc_misc_poll];
                  consoles := consoles r |})).
Proof.
  intros Hinit Hp Hm Hf Hs Hc Ha Hcons Hnone.
  assert (Hempty : g_vc_list (consoles r) = []).
  { pose proof (rc_index _ Hcons) as Hi. rewrite Hnone in Hi. exact Hi. }
  assert (Hcount : g_vc_count (consoles r) = 0).
  { rewrite (rc_count _ Hcons), Hempty. reflexivity. }
  split.
  - intros device d0 Halloc Hfree Hoff.
    assert (Hroom : g_vc_count (consoles r) + 1 < 2 ^ 32) by (rewrite Hcount; lia).
    destruct (vc_root_open_outcome device d0 false (consoles r) Hcons Hfree Hoff Hroom)
      as (cs & Hopen & Hcs & Hl & Hn & Hfirst & _).
    destruct (Hfirst Hnone) as (Hact & Hidx & Htrace).
    exists cs. split.
    + unfold vc_root_bind. rewrite Hinit.
      destruct (Z.ltb_spec (got_protocol e) 0); [lia|].
      destruct (Z.ltb_spec (got_mode e) 0); [lia|].
      destruct (Z.ltb_spec (got_framebuffer e) 0); [lia|].
      destruct (Z.ltb_spec (surface_initialized e) 0); [lia|].
      rewrite Hc, Ha, Z.eqb_refl. cbn [negb spawn consoles].
      rewrite Halloc, Hopen. cbn [mbind option_bind]. unfold spawn. cbn.
      rewrite <- !app_assoc. reflexivity.
    + split; [exact Hcs|]. rewrite Hl, Hn, Hempty, Hcount. auto.
  - intros status Halloc Hfail.
    unfold vc_root_bind. rewrite Hinit.
    destruct (Z.ltb_spec (got_protocol e) 0); [lia|].
    destruct (Z.ltb_spec (got_mode e) 0); [lia|].
    destruct (Z.ltb_spec (got_framebuffer e) 0); [lia|].
    destruct (Z.ltb_spec (surface_initialized e) 0); [lia|].
    rewrite Hc, Ha, Z.eqb_refl. cbn [negb spawn consoles].
    rewrite Halloc. unfold vc_root_open. cbn [mbind option_bind].
    destruct status; [contradiction|..]; unfold spawn; cbn; rewrite <- !app_assoc;
      reflexivity.
Qed.

End BindFacts.

(** ** The status line *)

Section StatusFacts.
Context `{hid_usages, vc_header, hid_keymaps, hid_fifo_capacity}.
Variable title : nat -> list Z.
Variable vpy : nat -> Z.
Variable vc_device_get_scrollback_lines : nat -> Z.

#[local] Notation "'entry'" := (status_entry title vpy vc_device_get_scrollback_lines).
#[local] Notation "'loop'" := (status_loop title vpy vc_device_get_scrollback_lines).
#[local] Notation "'text'" := (status_text title vpy vc_device_get_scrollback_lines).

Lemma status_loop_exhausted devices (s : vc_state) str ptr n i :
  n <= 0 -> loop devices s str ptr n i = Some str.
Proof.
  intros Hn. destruct devices as [|device devices]; [reflexivity|].
  cbn [status_loop]. destruct (Z.leb_spec n 0); [reflexivity|lia].
Qed.

Lemma snprintf_at_end (A B : list Z) (N : nat) (E : list Z) :
  (0 < N)%nat -> (N <= length B)%nat ->
  snprintf (A ++ B) (Z.of_nat (length A)) (Z.of_nat N) E
    = Some (A ++ take (N - 1) E ++ 0 :: drop (S (Nat.min (N - 1) (length E))) B,
            Z.of_nat (length E)).
Proof.
  intros Hpos Hfit. unfold snprintf.
  replace (Z.to_nat (Z.of_nat N - 1)) with (N - 1)%nat by lia.
  rewrite length_app, length_take. cbn [length].
  destruct (Z.leb_spec 0 (Z.of_nat (length A))); [|lia]. cbn [andb].
  destruct (Z.leb_spec
              (Z.of_nat (length A) + Z.of_nat (Nat.min (N - 1) (length E) + 1))
              (Z.of_nat (length (A ++ B)))) as [_|Hover];
    [|rewrite length_app in Hover; lia].
  rewrite Nat2Z.id, take_app_length.
  rewrite drop_app_add'; [|reflexivity].
  rewrite <- app_assoc. cbn [app].
  replace (Nat.min (N - 1) (length E) + 1)%nat
    with (S (Nat.min (N - 1) (length E))) by lia.
  reflexivity.
Qed.

Lemma status_loop_run devices : forall (s : vc_state) (A B : list Z) (N : nat) i,
  (forall p, p ∈ devices -> is_Some (heap s !! p)) ->
  devices <> [] -> (0 < N)%nat -> (N <= length B)%nat ->
  loop devices s (A ++ B) (Z.of_nat (length A)) (Z.of_nat N) i
    = Some (A ++ take (N - 1) (text devices s i)
              ++ 0 :: drop (S (Nat.min (N - 1) (length (text devices s i)))) B).
Proof.
  induction devices as [|device devices IH]; intros s A B N i Hlive Hne Hpos Hfit;
    [contradiction|].
  cbn [status_loop status_text].
  destruct (Z.leb_spec (Z.of_nat N) 0); [lia|].
  destruct (Hlive device) as [d Hd]; [apply list_elem_of_here|].
  rewrite Hd. cbn [mbind option_bind].
  rewrite (snprintf_at_end A B N (entry device d i) Hpos Hfit).
  cbn [mbind option_bind].
  set (E := entry device d i). set (T := text devices s (wrap32 (i + 1))).
  destruct (Nat.lt_ge_cases (length E) N) as [Hshort|Hlong].
  - (* the entry fits and leaves room for its terminator *)
    rewrite (take_ge E) by lia.
    replace (Nat.min (N - 1) (length E)) with (length E) by lia.
    replace (Z.of_nat (length A) + Z.of_nat (length E))
      with (Z.of_nat (length (A ++ E))) by (rewrite length_app; lia).
    replace (Z.of_nat N - Z.of_nat (length E))
      with (Z.of_nat (N - length E)) by lia.
    replace (A ++ E ++ 0 :: drop (S (length E)) B)
      with ((A ++ E) ++ 0 :: drop (S (length E)) B)
      by (rewrite <- app_assoc; reflexivity).
    destruct (decide (devices = [])) as [Hnil|Hmore].
    + subst devices. cbn [status_loop]. subst T. cbn [status_text].
      rewrite app_nil_r, (take_ge E) by lia.
      replace (Nat.min (N - 1) (length E)) with (length E) by lia.
      rewrite <- app_assoc. reflexivity.
    + rewrite IH.
      * fold T.
        assert (Htake : take (N - 1) (E ++ T) = E ++ take (N - length E - 1) T).
        { rewrite take_app, (take_ge E) by lia. f_equal. f_equal. lia. }
        assert (Hdrop : drop (S (Nat.min (N - length E - 1) (length T)))
                          (0 :: drop (S (length E)) B)
                        = drop (S (Nat.min (N - 1) (length (E ++ T)))) B).
        { cbn [drop]. rewrite drop_drop. f_equal. rewrite length_app. lia. }
        rewrite Htake, Hdrop, <- !app_assoc. reflexivity.
      * intros p Hp. apply Hlive. apply list_elem_of_further. exact Hp.
      * exact Hmore.
      * lia.
      * cbn [length]. rewrite length_drop. lia.
  - (* the entry is cut off: nothing is left for the next console *)
    rewrite status_loop_exhausted by lia.
    rewrite take_app, length_app.
    replace (N - 1 - length E)%nat with 0%nat by lia.
    rewrite take_0, app_nil_r.
    replace (Nat.min (N - 1) (length E + length T)) with (Nat.min (N - 1) (length E))
      by lia.
    reflexivity.
Qed.

(** The status line never overruns its buffer.  With a buffer of at
    least [n] bytes and at least one console, the buffer afterwards holds
    the first [n - 1] bytes of the consoles' entries, in the order of the
    registry, then a terminator, and after that what it held before; in
    particular nothing from offset [n] on is written.  With no console,
    or with [n <= 0], the buffer is not written at all, not even a
    terminator. *)
Theorem status_line_fits str n (s : vc_state) :
  (forall p, p ∈ g_vc_list s -> is_Some (heap s !! p)) ->
  (g_vc_list s = [] \/ n <= 0 ->
     vc_get_status_line title vpy vc_device_get_scrollback_lines str n s = Some str) /\
  (g_vc_list s <> [] -> 0 < n <= Z.of_nat (length str) ->
     let line := take (Z.to_nat n - 1) (text (g_vc_list s) s 0) in
     vc_get_status_line title vpy vc_device_get_scrollback_lines str n s
       = Some (line ++ 0 :: drop (S (length line)) str) /\
     length (line ++ 0 :: drop (S (length line)) str) = length str /\
     drop (Z.to_nat n) (line ++ 0 :: drop (S (length line)) str)
       = drop (Z.to_nat n) str).
Proof.
  intros Hlive. split.
  - unfold vc_get_status_line. intros [Hnil|Hn].
    + rewrite Hnil. reflexivity.
    + apply status_loop_exhausted. exact Hn.
  - intros Hne [Hpos Hfit] line. unfold vc_get_status_line.
    assert (Hline : length line = Nat.min (Z.to_nat n - 1)
                                    (length (text (g_vc_list s) s 0))).
    { unfold line. rewrite length_take. reflexivity. }
    split; [|split].
    + pose proof (status_loop_run (g_vc_list s) s [] str (Z.to_nat n) 0
                    Hlive Hne ltac:(lia) ltac:(lia)) as Hrun.
      cbn [app length] in Hrun. rewrite Z2Nat.id in Hrun by lia.
      change (Z.of_nat 0) with 0 in Hrun. rewrite Hrun, Hline. reflexivity.
    + rewrite length_app. cbn [length]. rewrite length_drop. lia.
    + rewrite drop_app_ge by lia.
      replace (Z.to_nat n - length line)%nat
        with (S (Z.to_nat n - length line - 1)) by lia.
      cbn [drop]. rewrite drop_drop. f_equal. lia.
Qed.

End StatusFacts.

(** ** New input devices *)

Section InputDeviceFacts.
Context `{input_protocols}.

(** A descriptor that was opened has one owner afterwards: it is either
    closed, once, or handed to a keyboard thread that started, never both
    and never neither.  The thread is started for every device that is
    not known to be something other than a keyboard, which includes the
    devices whose protocol query fails; and the directory watcher is
    always told [NO_ERROR], so it goes on watching. *)
Theorem input_descriptor_has_one_owner fd fn rc answer started :
  0 <= fd ->
  let result := vc_input_device_added fd fn rc answer started in
  let closes := filter (fun e => e = in_close fd) (snd result) in
  let threads := filter (fun e => thread_on fd e) (snd result) in
  fst result = NO_ERROR /\
  (length closes + length threads = 1)%nat /\
  (threads <> [] <->
     started = true /\
     (rc <= 0 \/ default INPUT_PROTO_NONE answer = INPUT_PROTO_KBD)) /\
  (forall fd' tname, in_thread fd' tname ∈ snd result ->
     fd' = fd /\ tname = take 63 (literal "vc-input-" ++ fn)).
Proof.
  intros Hfd result closes threads. subst closes threads result.
  unfold vc_input_device_added.
  destruct (Z.ltb_spec fd 0) as [|_]; [lia|].
  assert (Hself : thread_on fd (in_thread fd (take 63 (literal "vc-input-" ++ fn)))
                  = true) by apply Z.eqb_refl.
  destruct (Z.ltb_spec 0 rc) as [Hrc|Hrc];
    destruct (Z.eqb_spec (default INPUT_PROTO_NONE answer) INPUT_PROTO_KBD) as [Hp|Hp];
    destruct started; cbn [andb negb fst snd];
    rewrite ?filter_cons, ?filter_nil, ?Hself;
    cbn [thread_on];
    repeat match goal with
    | |- context [decide ?P] => destruct (decide P) as [?|?]
    end;
    try (exfalso; match goal with
         | Hd : Is_true false |- _ => exact Hd
         | Hd : ~ Is_true true |- _ => exact (Hd I)
         | Hd : _ = _ |- _ => discriminate Hd
         | Hd : _ <> _ |- _ => apply Hd; reflexivity
         end);
    (split; [reflexivity|]); (split; [reflexivity|]).
  all: split.
  all: try (split;
            [intros Hne;
             first [exfalso; apply Hne; reflexivity
                   |split; [reflexivity|first [left; lia|right; assumption]]]
            |intros [Hs Hwhy];
             first [discriminate Hs
                   |destruct Hwhy; [lia|contradiction]
                   |discriminate]]).
  all: intros fd' tname Hin;
    repeat (apply elem_of_cons in Hin as [Hin|Hin]; [try discriminate Hin|]);
    try (apply elem_of_nil in Hin; contradiction);
    injection Hin as -> ->; split; reflexivity.
Qed.

End InputDeviceFacts.

(** * The statements at concrete inputs *)

Section Evaluations.
#[local] Existing Instance usb_usages.
#[local] Existing Instance bit_masks.
#[local] Existing Instance table_keymaps.
#[local] Existing Instance small_fifo.

Lemma usb_ansi_labels_distinct : NoDup ansi_switch_labels.
Proof. apply (bool_decide_unpack _). vm_compute. exact I. Qed.

Lemma usb_control_labels_distinct : NoDup control_switch_labels.
Proof. apply (bool_decide_unpack _). vm_compute. exact I. Qed.

Lemma reachable_one_console : reachable sample_rows one_console.
Proof.
  apply rtc_once.
  apply (step_open sample_rows vc_initial 1%nat sample_console false NO_ERROR NO_ERROR);
    reflexivity.
Qed.

Lemma reachable_three_consoles : reachable sample_rows three_consoles.
Proof.
  eapply rtc_r; [eapply rtc_r; [eapply rtc_r; [exact reachable_one_console|]|]|].
  - apply (step_open sample_rows _ 2%nat sample_console false NO_ERROR NO_ERROR);
      reflexivity.
  - apply (step_open sample_rows _ 3%nat sample_console false NO_ERROR NO_ERROR);
      reflexivity.
  - apply (step_set_active_console sample_rows _ 1 NO_ERROR); [lia | reflexivity].
Qed.

Lemma registry_invariant_reachable_witness :
  Z.land VC_FLAG_RESETSCROLL VC_FLAG_HASINPUT = 0 /\
  reachable sample_rows three_consoles /\
  registry_invariant three_consoles.
Proof.
  split; [reflexivity|]. split; [exact reachable_three_consoles|].
  exact (registry_invariant_reachable sample_rows eq_refl three_consoles
           reachable_three_consoles).
Defined.

Lemma release_replacement_policy_witness :
  reachable sample_rows three_consoles /\
  g_vc_list three_consoles = [1; 2; 3]%nat /\
  g_active_vc three_consoles = Some 2%nat /\
  list_delete 2%nat (g_vc_list three_consoles) <> [] /\
  (g_active_vc_index three_consoles = 1 /\
   exists s',
     vc_device_release 2%nat three_consoles = Some (NO_ERROR, s') /\
     g_vc_list s' = [1; 3]%nat /\
     g_active_vc s' = Some 3%nat /\
     marked_active s' 3%nat /\
     g_active_vc_index s' = 1 /\
     trace s' = trace three_consoles ++ [ev_render 3%nat]) /\
  (exists s' b,
     vc_device_release 2%nat three_consoles = Some (NO_ERROR, s') /\
     g_vc_list s' = list_delete 2%nat (g_vc_list three_consoles) /\
     g_active_vc s' = Some b /\
     marked_active s' b /\
     (forall p, p ∈ g_vc_list s' -> marked_active s' p -> p = b) /\
     trace s' = trace three_consoles ++ [ev_render b] /\
     (g_active_vc_index three_consoles < Z.of_nat (length (g_vc_list s')) ->
        g_vc_list s' !! Z.to_nat (g_active_vc_index three_consoles) = Some b /\
        g_active_vc_index s' = g_active_vc_index three_consoles) /\
     (Z.of_nat (length (g_vc_list s')) <= g_active_vc_index three_consoles ->
        last (g_vc_list s') = Some b /\
        g_active_vc_index s' = g_vc_count s' - 1)).
Proof.
  assert (Hrest : list_delete 2%nat (g_vc_list three_consoles) <> [])
    by discriminate.
  assert (Hlist : g_vc_list three_consoles = [1; 2; 3]%nat) by reflexivity.
  assert (Hactive : g_active_vc three_consoles = Some 2%nat) by reflexivity.
  split; [exact reachable_three_consoles|].
  split; [exact Hlist|]. split; [exact Hactive|]. split; [exact Hrest|].
  split.
  - exact (proj1 (release_replacement_policy sample_rows eq_refl)
             three_consoles 1%nat 2%nat 3%nat reachable_three_consoles
             eq_refl eq_refl).
  - exact (proj2 (release_replacement_policy sample_rows eq_refl)
             three_consoles 2%nat reachable_three_consoles Hactive Hrest).
Defined.

Lemma keystroke_write_all_or_nothing_witness :
  let f := {| fifo_data := [1; 2; 3; 4; 5; 6] |} in
  let d := set_fifo f (activated sample_console) in
  0 <= 3 <= Z.of_nat (length [27; 91; 65]) /\
  mx_hid_fifo_free f = 2 /\
  vc_handle_control_keys sample_rows false HID_USAGE_KEY_UP 0 nearly_full
    = Some (false, nearly_full) /\
  g_active_vc nearly_full = Some 1%nat /\
  heap nearly_full !! 1%nat = Some d /\
  snd (mx_hid_fifo_write f [27; 91; 65] 3) = f /\
  exists d',
    vc_handle_key_press sample_rows false HID_USAGE_KEY_UP 0 nearly_full
      = Some (with_heap (<[1%nat := d']> (heap nearly_full)) nearly_full) /\
    fifo d' = fifo d.
Proof.
  intros f d.
  assert (Hlen : 0 <= 3 <= Z.of_nat (length [27; 91; 65])) by (cbn; lia).
  assert (Hfree : mx_hid_fifo_free f = 2) by reflexivity.
  pose proof (keystroke_write_all_or_nothing sample_rows) as (Hwrite & Hthree & Hkey).
  destruct (Hwrite f [27; 91; 65] 3 Hlen) as [Hfull _].
  assert (Hpass : vc_handle_control_keys sample_rows false HID_USAGE_KEY_UP 0
                    nearly_full = Some (false, nearly_full)) by reflexivity.
  assert (Ha : g_active_vc nearly_full = Some 1%nat) by reflexivity.
  assert (Hd : heap nearly_full !! 1%nat = Some d) by reflexivity.
  destruct (Hkey false HID_USAGE_KEY_UP 0 nearly_full nearly_full 1%nat d
              Hpass Ha Hd) as (d' & Hrun & Hkeep & _).
  split; [exact Hlen|]. split; [exact Hfree|].
  split; [exact Hpass|]. split; [exact Ha|]. split; [exact Hd|].
  split; [exact (Hthree f 27 91 65 Hfree)|].
  exists d'. split; [exact Hrun|]. apply Hkeep. vm_compute. reflexivity.
Defined.

(** C4.  One console, Active, and a call to make it active by its handle:
    the call succeeds and changes no field of the registry or of the
    console, yet it calls the renderer for the console once more, so the
    trace grows by one render and the call is not the no-op that the call
    by index is. *)
Lemma set_active_by_handle_renders :
  reachable sample_rows one_console /\
  g_active_vc one_console = Some 1%nat /\
  vc_set_console_to_active (Some 1%nat) one_console
    = Some (NO_ERROR, emit (ev_render 1%nat) one_console) /\
  trace (emit (ev_render 1%nat) one_console) = [ev_render 1%nat; ev_render 1%nat] /\
  trace one_console = [ev_render 1%nat] /\
  vc_set_console_to_active (Some 1%nat) one_console
    <> Some (NO_ERROR, one_console) /\
  vc_set_active_console (g_active_vc_index one_console) one_console
    = Some (NO_ERROR, one_console).
Proof.
  split; [exact reachable_one_console|].
  repeat split; try reflexivity.
  intros Hsame.
  apply (f_equal (fun r => match r with
                           | Some (_, s') => length (trace s')
                           | None => 0%nat
                           end)) in Hsame.
  vm_compute in Hsame. discriminate Hsame.
Qed.

Lemma ansi_translator_table_witness :
  length output_array = 4%nat /\
  NoDup ansi_switch_labels /\
  ansi_bytes HID_USAGE_KEY_UP 0 letters_map output_array = [27; 91; 65] /\
  ansi_bytes HID_USAGE_KEY_DELETE 0 letters_map output_array = [27; 91; 51; 126] /\
  ansi_bytes 6 MOD_CTRL letters_map output_array = [3] /\
  ansi_bytes 6 (Z.lor MOD_CTRL MOD_SHIFT) letters_map output_array = [3] /\
  ansi_bytes 6 0 letters_map output_array = [99] /\
  ansi_bytes 6 MOD_SHIFT letters_map output_array = [67] /\
  ansi_bytes 100 0 letters_map output_array = [].
Proof.
  pose proof usb_ansi_labels_distinct as Hlabels.
  assert (Hfresh : 100 ∉ ansi_switch_labels).
  { intros Hin. apply (bool_decide_pack _) in Hin. vm_compute in Hin. exact Hin. }
  split; [reflexivity|]. split; [exact Hlabels|].
  split; [exact (proj1 (proj2 (proj2 (proj2
            (ansi_translator_table HID_USAGE_KEY_UP 0 letters_map output_array
               eq_refl Hlabels)))) eq_refl eq_refl)|].
  split; [exact (proj1 (proj2 (proj2 (proj2 (proj2
            (ansi_translator_table HID_USAGE_KEY_DELETE 0 letters_map output_array
               eq_refl Hlabels))))) eq_refl eq_refl)|].
  split; [exact (proj1
            (ansi_translator_table 6 MOD_CTRL letters_map output_array
               eq_refl Hlabels) ltac:(discriminate) eq_refl eq_refl)|].
  split; [exact (proj1 (proj2
            (ansi_translator_table 6 (Z.lor MOD_CTRL MOD_SHIFT) letters_map
               output_array eq_refl Hlabels)) ltac:(discriminate) eq_refl eq_refl)|].
  split; [exact (proj1 (proj2 (proj2
            (ansi_translator_table 6 0 letters_map output_array
               eq_refl Hlabels))) ltac:(discriminate) eq_refl)|].
  split; [exact (proj1 (proj2 (proj2
            (ansi_translator_table 6 MOD_SHIFT letters_map output_array
               eq_refl Hlabels))) ltac:(discriminate) eq_refl)|].
  exact (proj2 (proj2 (proj2 (proj2 (proj2
           (ansi_translator_table 100 0 letters_map output_array
              eq_refl Hlabels))))) eq_refl Hfresh).
Defined.

Lemma ctrl_alt_delete_intercepted_witness :
  let modifiers := Z.lor MOD_CTRL MOD_ALT in
  Z.land modifiers MOD_CTRL <> 0 /\
  Z.land modifiers MOD_ALT <> 0 /\
  NoDup control_switch_labels /\
  ~ (HID_USAGE_KEY_F1 <= HID_USAGE_KEY_DELETE <= HID_USAGE_KEY_F10) /\
  vc_handle_control_keys sample_rows true HID_USAGE_KEY_DELETE modifiers one_console
    = Some (true, emit ev_reboot one_console) /\
  vc_handle_key_press sample_rows true HID_USAGE_KEY_DELETE modifiers one_console
    = Some (emit ev_reboot one_console).
Proof.
  intros modifiers.
  assert (Hctrl : Z.land modifiers MOD_CTRL <> 0) by discriminate.
  assert (Halt : Z.land modifiers MOD_ALT <> 0) by discriminate.
  assert (Hrange : ~ (HID_USAGE_KEY_F1 <= HID_USAGE_KEY_DELETE <= HID_USAGE_KEY_F10)).
  { intros [_ Hle]. apply Hle. reflexivity. }
  split; [exact Hctrl|]. split; [exact Halt|].
  split; [exact usb_control_labels_distinct|]. split; [exact Hrange|].
  exact (ctrl_alt_delete_intercepted sample_rows true modifiers one_console
           Hctrl Halt usb_control_labels_distinct Hrange).
Defined.

(** With CTRL and ALT held and the control channel not to be opened,
    Delete is consumed and no reboot request is written. *)
Lemma ctrl_alt_delete_without_channel :
  let modifiers := Z.lor MOD_CTRL MOD_ALT in
  Z.land modifiers MOD_CTRL <> 0 /\
  Z.land modifiers MOD_ALT <> 0 /\
  vc_handle_key_press sample_rows false HID_USAGE_KEY_DELETE modifiers one_console
    = Some one_console /\
  ev_reboot ∉ trace one_console.
Proof.
  intros modifiers. split; [discriminate|]. split; [discriminate|].
  split; [reflexivity|].
  intros Hin. apply list_elem_of_singleton in Hin. discriminate Hin.
Qed.

Lemma vc_device_read_drains_witness :
  let vc := set_fifo {| fifo_data := [1; 2; 3; 4; 5; 6] |} (activated sample_console) in
  heap nearly_full !! 1%nat = Some vc /\
  0 <= 4 /\
  exists result buf vc',
    vc_device_read 1%nat 4 nearly_full
      = Some (result, buf, with_heap (<[1%nat := vc']> (heap nearly_full)) nearly_full) /\
    fifo_data (fifo vc) = buf ++ fifo_data (fifo vc') /\
    Z.of_nat (length buf) = Z.min 4 (mx_hid_fifo_size (fifo vc)) /\
    Z.of_nat (length buf) <= 4 /\
    (mx_hid_fifo_size (fifo vc') = 0 -> readable vc' = false) /\
    (mx_hid_fifo_size (fifo vc') <> 0 -> readable vc' = readable vc) /\
    (buf = [] -> result = Status ERR_SHOULD_WAIT) /\
    (buf <> [] -> result = Bytes (Z.of_nat (length buf))) /\
    (mx_hid_fifo_size (fifo vc) = 0 -> result = Status ERR_SHOULD_WAIT) /\
    active vc' = active vc /\ flags vc' = flags vc /\ keymap vc' = keymap vc.
Proof.
  intros vc.
  assert (Hcount : 0 <= 4) by discriminate.
  assert (Hlive : heap nearly_full !! 1%nat = Some vc) by reflexivity.
  split; [exact Hlive|]. split; [exact Hcount|].
  exact (vc_device_read_drains 1%nat 4 nearly_full vc Hlive Hcount).
Defined.

Lemma hid_key_to_ansi_code_needs_four_bytes_witness :
  3 <> 4 /\
  hid_key_to_ansi_code HID_USAGE_KEY_ENTER 0 letters_map [0; 0; 0] 3 = (0, [0; 0; 0]).
Proof.
  assert (Hsize : 3 <> 4) by discriminate.
  split; [exact Hsize|].
  exact (hid_key_to_ansi_code_needs_four_bytes HID_USAGE_KEY_ENTER 0 letters_map
           [0; 0; 0] 3 Hsize).
Defined.

End Evaluations.

Lemma repeat_acceleration_witness :
  let inf := 2 ^ 64 - 1 in
  interval_held inf true LOW_REPEAT_KEY_FREQUENCY_MICRO /\
  LOW_REPEAT_KEY_FREQUENCY_MICRO <> inf /\
  accelerate LOW_REPEAT_KEY_FREQUENCY_MICRO = 187500000 /\
  accelerate LOW_REPEAT_KEY_FREQUENCY_MICRO <= LOW_REPEAT_KEY_FREQUENCY_MICRO.
Proof.
  intros inf.
  assert (Hheld : interval_held inf true LOW_REPEAT_KEY_FREQUENCY_MICRO).
  { exact (held_turn inf true (Report [4] []) inf (held_start inf true)
             ltac:(discriminate)). }
  assert (Hfin : LOW_REPEAT_KEY_FREQUENCY_MICRO <> inf) by discriminate.
  split; [exact Hheld|]. split; [exact Hfin|].
  destruct (repeat_acceleration inf true LOW_REPEAT_KEY_FREQUENCY_MICRO Hheld Hfin)
    as (Hstep & Hle & _).
  split; [exact Hstep | exact Hle].
Defined.

(** The fourth timeout after a key press starts from 105468750, three
    quarters of which is not a whole number: the new interval is 79101562,
    not 79101562.5. *)
Lemma accelerate_rounds_down :
  after_timeouts 3 = 105468750 /\
  accelerate 105468750 = 79101562 /\
  ~ (inject_Z (accelerate 105468750) == three_quarters_or_high 105468750)%Q.
Proof.
  split; [reflexivity|]. split; [reflexivity|].
  vm_compute. intros Heq. discriminate Heq.
Qed.

Lemma battery_parse_witness :
  "6"%char <> "e"%char /\ "6"%char <> "c"%char /\
  Forall (fun d => (d < 10)%nat) [4; 2]%nat /\
  decimal_value [4; 2]%nat < 2 ^ 31 /\
  vc_battery_poll_update "67" = {| state := NOT_CHARGING; pct := atoi "67" |} /\
  atoi (decimal_string [4; 2]%nat) = decimal_value [4; 2]%nat /\
  Forall (fun d => (d < 10)%nat) (replicate 11 9%nat) /\
  atoi "99999999999" = 1215752191.
Proof.
  assert (He : "6"%char <> "e"%char) by discriminate.
  assert (Hc : "6"%char <> "c"%char) by discriminate.
  assert (Hds : Forall (fun d => (d < 10)%nat) [4; 2]%nat)
    by (repeat constructor).
  assert (Hsmall : decimal_value [4; 2]%nat < 2 ^ 31) by reflexivity.
  assert (Hnines : Forall (fun d => (d < 10)%nat) (replicate 11 9%nat))
    by (repeat constructor).
  destruct battery_parse as (_ & _ & _ & _ & _ & Hother & Hdec).
  split; [exact He|]. split; [exact Hc|]. split; [exact Hds|].
  split; [exact Hsmall|].
  split; [exact (Hother "6"%char "7"%string He Hc)|].
  split; [exact (proj2 (proj2 (Hdec _ Hds)) Hsmall)|].
  split; [exact Hnines|].
  exact (proj1 (Hdec _ Hnines)).
Defined.

Section MoreEvaluations.
#[local] Existing Instance usb_usages.
#[local] Existing Instance bit_masks.
#[local] Existing Instance table_keymaps.
#[local] Existing Instance small_fifo.
#[local] Existing Instance usb_modifier_usages.
#[local] Existing Instance side_masks.
#[local] Existing Instance listing_keyboard.
#[local] Existing Instance plain_codes.
#[local] Existing Instance boot_protocols.

Lemma sample_flag_bits : Z.land VC_FLAG_RESETSCROLL VC_FLAG_HASINPUT = 0.
Proof. reflexivity. Qed.

Lemma consistent_three_consoles : registry_consistent three_consoles.
Proof.
  exact (reachable_consistent sample_rows sample_flag_bits three_consoles
           reachable_three_consoles).
Qed.

Lemma vc_set_active_console_selects_witness :
  registry_consistent three_consoles /\
  vc_set_active_console 3 three_consoles = Some (ERR_INVALID_ARGS, three_consoles) /\
  exists s',
    vc_set_active_console 2 three_consoles = Some (NO_ERROR, s') /\
    g_active_vc s' = Some 3%nat /\ g_active_vc_index s' = 2.
Proof.
  pose proof consistent_three_consoles as Hc.
  assert (Hpos3 : 0 <= 3) by discriminate.
  assert (Hpos2 : 0 <= 2) by discriminate.
  assert (Hout : g_vc_count three_consoles <= 3) by (vm_compute; discriminate).
  assert (Hin : 2 < g_vc_count three_consoles) by reflexivity.
  split; [exact Hc|]. split.
  - exact (proj1 (vc_set_active_console_selects 3 three_consoles Hc Hpos3) Hout).
  - destruct (proj2 (vc_set_active_console_selects 2 three_consoles Hc Hpos2) Hin)
      as (device & s' & Hl & Hrun & _ & _ & _ & Ha & Hi & _).
    exists s'. split; [exact Hrun|]. split; [|exact Hi].
    rewrite Ha, <- Hl. reflexivity.
Defined.

Lemma vc_set_console_to_active_selects_witness :
  registry_consistent three_consoles /\
  vc_set_console_to_active None three_consoles
    = Some (ERR_INVALID_ARGS, three_consoles) /\
  vc_set_console_to_active (Some 7%nat) three_consoles
    = Some (ERR_INVALID_ARGS, three_consoles) /\
  exists s',
    vc_set_console_to_active (Some 3%nat) three_consoles = Some (NO_ERROR, s') /\
    g_active_vc s' = Some 3%nat /\
    trace s' = trace three_consoles ++ [ev_render 3%nat].
Proof.
  pose proof consistent_three_consoles as Hc.
  assert (Hout : 7%nat ∉ g_vc_list three_consoles).
  { intros Hin. apply (bool_decide_pack _) in Hin. vm_compute in Hin. exact Hin. }
  assert (Hin : 3%nat ∈ g_vc_list three_consoles).
  { apply (bool_decide_unpack _). vm_compute. exact I. }
  split; [exact Hc|].
  split; [exact (proj1 (vc_set_console_to_active_selects None three_consoles Hc)
                   eq_refl)|].
  split; [exact (proj1 (proj2 (vc_set_console_to_active_selects (Some 7%nat)
                                 three_consoles Hc)) 7%nat eq_refl Hout)|].
  destruct (proj2 (proj2 (vc_set_console_to_active_selects (Some 3%nat)
                            three_consoles Hc)) 3%nat eq_refl Hin)
    as (s' & Hrun & _ & _ & Ha & _ & _ & Ht).
  exists s'. split; [exact Hrun|]. split; [exact Ha|exact Ht].
Defined.

Lemma tab_is_no_function_key :
  ~ (HID_USAGE_KEY_F1 <= HID_USAGE_KEY_TAB <= HID_USAGE_KEY_F10).
Proof. intros [Hle _]. apply Hle. reflexivity. Qed.

Lemma alt_tab_cycles_witness :
  reachable sample_rows three_consoles /\
  g_active_vc_index three_consoles = 1 /\
  exists s',
    vc_handle_key_press sample_rows false HID_USAGE_KEY_TAB MOD_ALT three_consoles
      = Some s' /\
    g_active_vc_index s' = 2 /\
    g_active_vc s' = Some 3%nat /\
    fifo_view s' 2%nat = fifo_view three_consoles 2%nat /\
    fifo_view s' 3%nat = fifo_view three_consoles 3%nat.
Proof.
  assert (Ha : g_active_vc three_consoles <> None) by discriminate.
  assert (Halt : Z.land MOD_ALT MOD_ALT <> 0) by discriminate.
  assert (Hf11 : HID_USAGE_KEY_TAB <> HID_USAGE_KEY_F11) by discriminate.
  split; [exact reachable_three_consoles|]. split; [reflexivity|].
  destruct (alt_tab_cycles sample_rows sample_flag_bits false MOD_ALT three_consoles
              reachable_three_consoles Ha Halt tab_is_no_function_key Hf11)
    as (s' & Hrun & _ & _ & _ & Hi & Hact & _ & Hview).
  exists s'. split; [exact Hrun|]. split; [exact Hi|]. split; [exact Hact|].
  split; [exact (Hview 2%nat)|exact (Hview 3%nat)].
Defined.

Lemma alt_tab_there_and_back_witness :
  reachable sample_rows three_consoles /\
  exists s1 s2,
    vc_handle_key_press sample_rows false HID_USAGE_KEY_TAB MOD_ALT three_consoles
      = Some s1 /\
    vc_handle_key_press sample_rows false HID_USAGE_KEY_TAB
      (Z.lor MOD_ALT MOD_SHIFT) s1 = Some s2 /\
    g_active_vc_index s2 = 1 /\
    g_active_vc s2 = Some 2%nat.
Proof.
  assert (Ha : g_active_vc three_consoles <> None) by discriminate.
  assert (Hfa : Z.land MOD_ALT MOD_ALT <> 0) by discriminate.
  assert (Hfs : Z.land MOD_ALT MOD_SHIFT = 0) by reflexivity.
  assert (Hba : Z.land (Z.lor MOD_ALT MOD_SHIFT) MOD_ALT <> 0) by discriminate.
  assert (Hbs : Z.land (Z.lor MOD_ALT MOD_SHIFT) MOD_SHIFT <> 0) by discriminate.
  assert (Hf11 : HID_USAGE_KEY_TAB <> HID_USAGE_KEY_F11) by discriminate.
  split; [exact reachable_three_consoles|].
  destruct (alt_tab_there_and_back sample_rows sample_flag_bits false false MOD_ALT
              (Z.lor MOD_ALT MOD_SHIFT) three_consoles reachable_three_consoles
              Ha Hfa Hfs Hba Hbs tab_is_no_function_key Hf11)
    as (s1 & s2 & Hrun1 & Hrun2 & _ & Hi & Hact).
  exists s1, s2. split; [exact Hrun1|]. split; [exact Hrun2|].
  split; [exact Hi|exact Hact].
Defined.

Lemma alt_function_key_selects_witness :
  reachable sample_rows three_consoles /\
  (exists s',
     vc_handle_key_press sample_rows false (HID_USAGE_KEY_F1 + 2) MOD_ALT
       three_consoles = Some s' /\
     g_active_vc s' = Some 3%nat /\ g_active_vc_index s' = 2) /\
  vc_handle_key_press sample_rows false HID_USAGE_KEY_F10 MOD_ALT three_consoles
    = Some three_consoles.
Proof.
  assert (Hr3 : HID_USAGE_KEY_F1 <= HID_USAGE_KEY_F1 + 2 <= HID_USAGE_KEY_F10)
    by (split; discriminate).
  assert (Hr10 : HID_USAGE_KEY_F1 <= HID_USAGE_KEY_F10 <= HID_USAGE_KEY_F10)
    by (split; discriminate).
  assert (Hpos : 0 <= HID_USAGE_KEY_F1) by discriminate.
  assert (Hb3 : HID_USAGE_KEY_F1 + 2 < 256) by reflexivity.
  assert (Hb10 : HID_USAGE_KEY_F10 < 256) by reflexivity.
  assert (Halt : Z.land MOD_ALT MOD_ALT <> 0) by discriminate.
  assert (Hin : HID_USAGE_KEY_F1 + 2 - HID_USAGE_KEY_F1 < g_vc_count three_consoles)
    by reflexivity.
  assert (Hout : g_vc_count three_consoles <= HID_USAGE_KEY_F10 - HID_USAGE_KEY_F1)
    by (vm_compute; discriminate).
  split; [exact reachable_three_consoles|]. split.
  - destruct (proj1 (alt_function_key_selects sample_rows sample_flag_bits false
                       (HID_USAGE_KEY_F1 + 2) MOD_ALT three_consoles
                       reachable_three_consoles Hr3 Hpos Hb3 Halt) Hin)
      as (device & s' & Hl & Hrun & _ & Ha & Hi).
    exists s'. split; [exact Hrun|]. split; [|exact Hi].
    rewrite Ha, <- Hl. reflexivity.
  - exact (proj2 (alt_function_key_selects sample_rows sample_flag_bits false
                    HID_USAGE_KEY_F10 MOD_ALT three_consoles
                    reachable_three_consoles Hr10 Hpos Hb10 Halt) Hout).
Defined.

Lemma control_keys_leave_fifos_witness :
  exists b s',
    vc_handle_control_keys sample_rows false HID_USAGE_KEY_TAB MOD_ALT nearly_full
      = Some (b, s') /\
    g_vc_list s' = g_vc_list nearly_full /\
    fifo_view s' 1%nat = fifo_view nearly_full 1%nat.
Proof.
  destruct (vc_handle_control_keys sample_rows false HID_USAGE_KEY_TAB MOD_ALT
              nearly_full) as [[b s']|] eqn:Hrun;
    [|vm_compute in Hrun; discriminate Hrun].
  destruct (control_keys_leave_fifos sample_rows false HID_USAGE_KEY_TAB MOD_ALT
              nearly_full s' b Hrun) as (Hl & _ & Hview).
  exists b, s'. split; [reflexivity|]. split; [exact Hl|exact (Hview 1%nat)].
Defined.

Lemma key_press_needs_active_console_witness :
  reachable sample_rows one_console /\
  (exists s', vc_handle_key_press sample_rows false 4 0 one_console = Some s' /\
              reachable sample_rows s' /\ g_active_vc s' <> None) /\
  g_active_vc vc_initial = None /\
  vc_handle_key_press sample_rows false 4 0 vc_initial = None.
Proof.
  assert (Ha : g_active_vc one_console <> None) by discriminate.
  assert (Hnone : g_active_vc vc_initial = None) by reflexivity.
  assert (Hpass : vc_handle_control_keys sample_rows false 4 0 vc_initial
                    = Some (false, vc_initial)) by reflexivity.
  split; [exact reachable_one_console|]. split.
  - destruct (proj1 (key_press_needs_active_console sample_rows sample_flag_bits false 4 0
                       one_console) reachable_one_console Ha) as (s' & Hrun & Hrest).
    exists s'. split; [exact Hrun|exact Hrest].
  - split; [exact Hnone|].
    exact (proj2 (key_press_needs_active_console sample_rows sample_flag_bits false 4 0
                    vc_initial) Hnone Hpass).
Defined.

Lemma key_press_then_read_witness :
  g_active_vc one_console = Some 1%nat /\
  heap one_console !! 1%nat = Some (activated sample_console) /\
  ansi_bytes 4 0 letters_map output_array = [97] /\
  exists s1 s2,
    vc_handle_key_press sample_rows false 4 0 one_console = Some s1 /\
    vc_device_read 1%nat 4 s1 = Some (Bytes 1, [97], s2) /\
    fifo_view s2 1%nat = Some ({| fifo_data := [] |}, false).
Proof.
  assert (Hpass : vc_handle_control_keys sample_rows false 4 0 one_console
                    = Some (false, one_console)) by reflexivity.
  assert (Ha : g_active_vc one_console = Some 1%nat) by reflexivity.
  assert (Hd : heap one_console !! 1%nat = Some (activated sample_console))
    by reflexivity.
  assert (Hcount : 0 <= 4) by discriminate.
  assert (Hseq : ansi_bytes 4 0 letters_map output_array = [97]) by reflexivity.
  assert (Hroom : Z.of_nat (length (ansi_bytes 4 0 (keymap (activated sample_console))
                                      output_array))
                  <= mx_hid_fifo_free (fifo (activated sample_console)))
    by (vm_compute; discriminate).
  split; [exact Ha|]. split; [exact Hd|]. split; [exact Hseq|].
  destruct (key_press_then_read sample_rows false 4 0 one_console one_console
              1%nat (activated sample_console) 4 Hpass Ha Hd Hcount Hroom)
    as (s1 & result & s2 & Hrun & _ & _ & Hwhole).
  assert (Hne : ansi_bytes 4 0 (keymap (activated sample_console)) output_array <> [])
    by discriminate.
  assert (Hfit : Z.of_nat (length (ansi_bytes 4 0 (keymap (activated sample_console))
                                     output_array)) <= 4)
    by (vm_compute; discriminate).
  destruct (Hwhole eq_refl Hne Hfit) as [Hread Hview].
  exists s1, s2. split; [exact Hrun|]. split; [exact Hread|exact Hview].
Defined.

Lemma key_press_signals_witness :
  let d := set_fifo {| fifo_data := [1; 2; 3; 4; 5; 6] |} (activated sample_console) in
  g_active_vc nearly_full = Some 1%nat /\
  heap nearly_full !! 1%nat = Some d /\
  exists d',
    vc_handle_key_press sample_rows false HID_USAGE_KEY_UP 0 nearly_full
      = Some (with_heap (<[1%nat := d']> (heap nearly_full)) nearly_full) /\
    readable d' = true /\ fifo d' = fifo d /\ flags d' = flags d.
Proof.
  intros d.
  assert (Hpass : vc_handle_control_keys sample_rows false HID_USAGE_KEY_UP 0
                    nearly_full = Some (false, nearly_full)) by reflexivity.
  assert (Ha : g_active_vc nearly_full = Some 1%nat) by reflexivity.
  assert (Hd : heap nearly_full !! 1%nat = Some d) by reflexivity.
  split; [exact Ha|]. split; [exact Hd|].
  destruct (key_press_signals sample_rows false HID_USAGE_KEY_UP 0 nearly_full
              nearly_full 1%nat d Hpass Ha Hd)
    as (d' & Hrun & Hsig & _ & Hfull & Hflags & _).
  exists d'. split; [exact Hrun|].
  split; [apply Hsig; discriminate|].
  split; [apply Hfull; reflexivity|exact Hflags].
Defined.


Lemma vc_root_open_appends_witness :
  reachable sample_rows three_consoles /\
  heap three_consoles !! 4%nat = None /\
  exists s',
    vc_root_open (inr (4%nat, sample_console)) true NO_ERROR three_consoles
      = Some (NO_ERROR, s') /\
    g_vc_list s' = [1; 2; 3; 4]%nat /\
    g_active_vc s' = Some 2%nat.
Proof.
  assert (Hfree : heap three_consoles !! 4%nat = None) by reflexivity.
  assert (Hoff : active sample_console = false) by reflexivity.
  assert (Hroom : g_vc_count three_consoles + 1 < 2 ^ 32) by reflexivity.
  split; [exact reachable_three_consoles|]. split; [exact Hfree|].
  destruct (vc_root_open_appends sample_rows sample_flag_bits 4%nat sample_console true
              three_consoles reachable_three_consoles Hfree Hoff Hroom)
    as (s' & Hrun & _ & Hl & _ & _ & Hkeep).
  exists s'. split; [exact Hrun|]. split; [exact Hl|].
  exact (proj1 (Hkeep 2%nat eq_refl)).
Defined.

Lemma vc_root_open_failure_restores_witness :
  heap three_consoles !! 4%nat = None /\
  ERR_IO <> NO_ERROR /\
  vc_root_open (inl ERR_NO_MEMORY) true NO_ERROR three_consoles
    = Some (ERR_NO_MEMORY, three_consoles) /\
  vc_root_open (inr (4%nat, sample_console)) true ERR_IO three_consoles
    = Some (ERR_IO, three_consoles).
Proof.
  assert (Hfree : heap three_consoles !! 4%nat = None) by reflexivity.
  assert (Hfail : ERR_IO <> NO_ERROR) by discriminate.
  split; [exact Hfree|]. split; [exact Hfail|].
  split.
  - exact (proj1 (vc_root_open_failure_restores true NO_ERROR 4%nat sample_console
                    ERR_NO_MEMORY three_consoles)).
  - exact (proj2 (vc_root_open_failure_restores true ERR_IO 4%nat sample_console
                    ERR_NO_MEMORY three_consoles) Hfree Hfail).
Defined.

Lemma release_inactive_keeps_focus_witness :
  reachable sample_rows three_consoles /\
  g_active_vc three_consoles = Some 2%nat /\
  exists s',
    vc_device_release 1%nat three_consoles = Some (NO_ERROR, s') /\
    g_vc_list s' = [2; 3]%nat /\
    g_active_vc s' = Some 2%nat /\
    g_vc_list s' !! Z.to_nat (g_active_vc_index s') = Some 2%nat.
Proof.
  assert (Hin : 1%nat ∈ g_vc_list three_consoles).
  { apply (bool_decide_unpack _). vm_compute. exact I. }
  assert (Ha : g_active_vc three_consoles = Some 2%nat) by reflexivity.
  assert (Hne : 2%nat <> 1%nat) by discriminate.
  split; [exact reachable_three_consoles|]. split; [exact Ha|].
  destruct (release_inactive_keeps_focus sample_rows sample_flag_bits 1%nat 2%nat
              three_consoles reachable_three_consoles Hin Ha Hne)
    as (k & s' & _ & Hrun & Hl & _ & Hact & _ & Hidx & _).
  exists s'. split; [exact Hrun|]. split; [exact Hl|].
  split; [exact Hact|exact Hidx].
Defined.

Lemma open_then_close_restores_witness :
  reachable sample_rows three_consoles /\
  heap three_consoles !! 4%nat = None /\
  exists s1 s2,
    vc_root_open (inr (4%nat, sample_console)) true NO_ERROR three_consoles
      = Some (NO_ERROR, s1) /\
    vc_device_release 4%nat s1 = Some (NO_ERROR, s2) /\
    heap s2 = heap three_consoles /\
    g_vc_list s2 = g_vc_list three_consoles /\
    g_active_vc s2 = g_active_vc three_consoles.
Proof.
  assert (Ha : g_active_vc three_consoles = Some 2%nat) by reflexivity.
  assert (Hfree : heap three_consoles !! 4%nat = None) by reflexivity.
  assert (Hoff : active sample_console = false) by reflexivity.
  assert (Hroom : g_vc_count three_consoles + 1 < 2 ^ 32) by reflexivity.
  split; [exact reachable_three_consoles|]. split; [exact Hfree|].
  destruct (open_then_close_restores sample_rows sample_flag_bits 4%nat sample_console true
              2%nat three_consoles reachable_three_consoles Ha Hfree Hoff Hroom)
    as (s1 & s2 & Hopen & Hclose & Hheap & Hl & _ & Hact & _).
  exists s1, s2. split; [exact Hopen|]. split; [exact Hclose|].
  split; [exact Hheap|]. split; [exact Hl|exact Hact].
Defined.

Lemma release_last_console_witness :
  reachable sample_rows one_console /\
  g_vc_list one_console = [1%nat] /\
  exists s1 s2,
    vc_device_release 1%nat one_console = Some (NO_ERROR, s1) /\
    g_active_vc s1 = None /\
    g_active_vc_index s1 = 4294967295 /\
    vc_root_open (inr (2%nat, sample_console)) true NO_ERROR s1
      = Some (NO_ERROR, s2) /\
    g_active_vc s2 = Some 2%nat /\ g_active_vc_index s2 = 0.
Proof.
  assert (Hl : g_vc_list one_console = [1%nat]) by reflexivity.
  assert (Hfree : heap one_console !! 2%nat = None) by reflexivity.
  assert (Hoff : active sample_console = false) by reflexivity.
  split; [exact reachable_one_console|]. split; [exact Hl|].
  destruct (release_last_console sample_rows sample_flag_bits 1%nat 2%nat sample_console
              true one_console reachable_one_console Hl Hfree Hoff)
    as (s1 & s2 & Hrel & _ & _ & Hnone & Hidx & _ & _ & Hopen & _ & Hact & Hzero).
  exists s1, s2. split; [exact Hrel|]. split; [exact Hnone|].
  split; [exact Hidx|]. split; [exact Hopen|]. split; [exact Hact|exact Hzero].
Defined.

Lemma ansi_special_keys_witness :
  length output_array = 4%nat /\
  wrap8 (hid_map_key HID_USAGE_KEY_PAGEUP (c_true (Z.land MOD_CTRL MOD_SHIFT))
                     letters_map) = 0 /\
  ansi_bytes HID_USAGE_KEY_PAGEUP MOD_CTRL letters_map output_array
    = [27; chr "["; chr "5"; chr "~"].
Proof.
  assert (Hlen : length output_array = 4%nat) by reflexivity.
  assert (Hnone : wrap8 (hid_map_key HID_USAGE_KEY_PAGEUP
                           (c_true (Z.land MOD_CTRL MOD_SHIFT)) letters_map) = 0)
    by reflexivity.
  split; [exact Hlen|]. split; [exact Hnone|].
  apply (ansi_special_keys MOD_CTRL (letters_map : @keychar_t table_keymaps) output_array HID_USAGE_KEY_PAGEUP
           Hlen usb_ansi_labels_distinct Hnone).
  do 12 apply list_elem_of_further. apply list_elem_of_here.
Defined.

Lemma ctrl_codes_witness :
  Z.land MOD_CTRL MOD_CTRL <> 0 /\
  wrap8 (hid_map_key 6 false letters_map) = chr "c" /\
  ansi_bytes 6 MOD_CTRL letters_map output_array = [3] /\
  wrap8 (hid_map_key 6 true letters_map) = chr "C" /\
  ansi_bytes 6 (Z.lor MOD_CTRL MOD_SHIFT) letters_map output_array = [3].
Proof.
  assert (Hlen : length output_array = 4%nat) by reflexivity.
  assert (Hctrl : Z.land MOD_CTRL MOD_CTRL <> 0) by discriminate.
  assert (Hboth : Z.land (Z.lor MOD_CTRL MOD_SHIFT) MOD_CTRL <> 0) by discriminate.
  split; [exact Hctrl|]. split; [reflexivity|].
  split.
  - refine (proj1 (proj1 (ctrl_codes 6 MOD_CTRL (letters_map : @keychar_t table_keymaps) output_array
                            Hlen Hctrl _) _)).
    + discriminate.
    + split; discriminate.
  - split; [reflexivity|].
    refine (proj1 (proj1 (ctrl_codes 6 (Z.lor MOD_CTRL MOD_SHIFT)
                            (letters_map : @keychar_t table_keymaps)
                            output_array Hlen Hboth _) _)).
    + discriminate.
    + split; discriminate.
Defined.

Lemma translator_stores_what_it_reports_witness :
  length output_array = 4%nat /\ length [9; 9; 9; 9] = 4%nat /\
  hid_key_to_ansi_code HID_USAGE_KEY_UP 0 letters_map [9; 9; 9; 9] 4
    = (3, [27; 91; 65; 9]) /\
  ansi_bytes HID_USAGE_KEY_UP 0 letters_map output_array
    = ansi_bytes HID_USAGE_KEY_UP 0 letters_map [9; 9; 9; 9].
Proof.
  assert (Hlen : length output_array = 4%nat) by reflexivity.
  assert (Hlen' : length [9; 9; 9; 9] = 4%nat) by reflexivity.
  split; [exact Hlen|]. split; [exact Hlen'|]. split; [reflexivity|].
  pose proof (translator_stores_what_it_reports HID_USAGE_KEY_UP 0
                (letters_map : @keychar_t table_keymaps)
                output_array [9; 9; 9; 9] Hlen Hlen') as Hsame.
  exact (proj2 (proj2 (proj2 (proj2 Hsame)))).
Defined.

Lemma report_modifier_mask_witness :
  let k := kb (vc_input_thread_start (2 ^ 64 - 1) [] []) in
  vc_process_kb_report sample_rows false shift_a_report k one_console
    = Some (kb shift_a_thread, [225; 4], [], after_keys [225; 4] 0 one_console) /\
  modifiers (kb shift_a_thread) = MOD_LSHIFT /\
  modifiers (kb shift_a_thread)
    = Z.land (Z.lor (modifiers k) (modifier_bits [225; 4])) (Z.lnot (modifier_bits [])).
Proof.
  intros k.
  assert (Hrun : vc_process_kb_report sample_rows false shift_a_report k one_console
                 = Some (kb shift_a_thread, [225; 4], [],
                         after_keys [225; 4] 0 one_console)) by reflexivity.
  split; [exact Hrun|]. split; [reflexivity|].
  exact (proj1 (report_modifier_mask sample_rows false shift_a_report k
                  (kb shift_a_thread) one_console
                  (after_keys [225; 4] 0 one_console) [225; 4] [] Hrun)).
Defined.

Lemma report_swaps_snapshots_witness :
  let k := kb (vc_input_thread_start (2 ^ 64 - 1) [] []) in
  generations_apart k /\
  vc_process_kb_report sample_rows false shift_a_report k one_console
    = Some (kb shift_a_thread, [225; 4], [], after_keys [225; 4] 0 one_console) /\
  array_get (key_state (kb shift_a_thread)) (prev_idx (kb shift_a_thread))
    = Some [225; 4] /\
  cur_idx (kb shift_a_thread) = 1 /\ prev_idx (kb shift_a_thread) = 0.
Proof.
  intros k.
  assert (Hgen : generations_apart k)
    by (split; [reflexivity|left; split; reflexivity]).
  assert (Hrun : vc_process_kb_report sample_rows false shift_a_report k one_console
                 = Some (kb shift_a_thread, [225; 4], [],
                         after_keys [225; 4] 0 one_console)) by reflexivity.
  split; [exact Hgen|]. split; [exact Hrun|].
  destruct (report_swaps_snapshots sample_rows false shift_a_report k
              (kb shift_a_thread) one_console
              (after_keys [225; 4] 0 one_console) [225; 4] [] Hgen Hrun)
    as (_ & Hc & Hp & Hprev & _).
  split; [exact Hprev|]. split; [exact Hc|exact Hp].
Defined.

Lemma report_processing_defined_witness :
  let k := kb (vc_input_thread_start (2 ^ 64 - 1) [] []) in
  reachable sample_rows one_console /\
  generations_apart k /\
  exists k' key_pressed key_released s',
    vc_process_kb_report sample_rows false shift_a_report k one_console
      = Some (k', key_pressed, key_released, s') /\
    reachable sample_rows s' /\ g_active_vc s' <> None.
Proof.
  intros k.
  assert (Hgen : generations_apart k)
    by (split; [reflexivity|left; split; reflexivity]).
  assert (Ha : g_active_vc one_console <> None) by discriminate.
  split; [exact reachable_one_console|]. split; [exact Hgen|].
  exact (report_processing_defined sample_rows sample_flag_bits false shift_a_report
           k one_console reachable_one_console Ha Hgen).
Defined.

Lemma shift_a_thread_held :
  thread_held sample_rows (2 ^ 64 - 1) true shift_a_thread.
Proof.
  apply (thread_turned sample_rows (2 ^ 64 - 1) true false
           (wait_readable 8 shift_a_report)
           (vc_input_thread_start (2 ^ 64 - 1) [] []) one_console
           shift_a_thread (after_keys [225; 4] 0 one_console)).
  - apply thread_started.
  - discriminate.
  - reflexivity.
Qed.

Lemma thread_snapshot_invariant_witness :
  thread_held sample_rows (2 ^ 64 - 1) true shift_a_thread /\
  repeat_interval shift_a_thread <> 2 ^ 64 - 1 /\
  generations_apart (kb shift_a_thread) /\
  array_get (key_state (kb shift_a_thread)) (prev_idx (kb shift_a_thread))
    = Some (keys_down shift_a_report).
Proof.
  assert (Hfin : repeat_interval shift_a_thread <> 2 ^ 64 - 1) by discriminate.
  split; [exact shift_a_thread_held|]. split; [exact Hfin|].
  destruct (thread_snapshot_invariant sample_rows (2 ^ 64 - 1) true shift_a_thread
              shift_a_thread_held) as [Hgen Hsnap].
  split; [exact Hgen|exact (Hsnap Hfin)].
Defined.

Lemma timeout_reprocesses_buffers_witness :
  let s := after_keys [225; 4] 0 one_console in
  let t' := {| previous_report_buf := []; report_buf := shift_a_report;
               kb := kb shift_a_thread; repeat_interval := 187500000 |} in
  thread_held sample_rows (2 ^ 64 - 1) true shift_a_thread /\
  repeat_interval shift_a_thread <> 2 ^ 64 - 1 /\
  vc_input_turn sample_rows (2 ^ 64 - 1) true false wait_timed_out shift_a_thread s
    = Some (thread_continues t' (after_keys [225; 4] 0 s)) /\
  exists m1 s1 m2,
    press_keys sample_rows false [] 1 s = Some (m1, s1) /\
    press_keys sample_rows false [225; 4] (release_keys [225; 4] m1) s1
      = Some (m2, after_keys [225; 4] 0 s) /\
    modifiers (kb t') = release_keys [] m2.
Proof.
  intros s t'.
  assert (Hfin : repeat_interval shift_a_thread <> 2 ^ 64 - 1) by discriminate.
  assert (Hturn : vc_input_turn sample_rows (2 ^ 64 - 1) true false wait_timed_out
                    shift_a_thread s
                  = Some (thread_continues t' (after_keys [225; 4] 0 s)))
    by reflexivity.
  split; [exact shift_a_thread_held|]. split; [exact Hfin|]. split; [exact Hturn|].
  exact (proj2 (proj2 (proj2 (proj2 (proj2 (proj2 (proj2
           (timeout_reprocesses_buffers sample_rows (2 ^ 64 - 1) true false
              shift_a_thread t' s (after_keys [225; 4] 0 s)
              shift_a_thread_held Hfin Hturn)))))))).
Defined.

Lemma timeout_without_console_witness :
  let same := {| previous_report_buf := shift_a_report;
                 report_buf := shift_a_report;
                 kb := {| key_state := [[225; 4]; [225; 4]]; cur_idx := 0;
                          prev_idx := 1; modifiers := 1 |};
                 repeat_interval := LOW_REPEAT_KEY_FREQUENCY_MICRO |} in
  g_active_vc vc_initial = None /\
  thread_held sample_rows (2 ^ 64 - 1) true shift_a_thread /\
  repeat_interval shift_a_thread <> 2 ^ 64 - 1 /\
  thread_held sample_rows (2 ^ 64 - 1) true same /\
  vc_input_turn sample_rows (2 ^ 64 - 1) true false
    (wait_readable 8 shift_a_report) shift_a_thread vc_initial
    = Some (thread_continues
              {| previous_report_buf := shift_a_report; report_buf := shift_a_report;
                 kb := kb shift_a_thread; repeat_interval := 2 ^ 64 - 1 |}
              vc_initial) /\
  vc_input_turn sample_rows (2 ^ 64 - 1) true false wait_timed_out
    shift_a_thread vc_initial = None /\
  exists t',
    vc_input_turn sample_rows (2 ^ 64 - 1) true false wait_timed_out same vc_initial
      = Some (thread_continues t' vc_initial).
Proof.
  intros same.
  assert (Hnone : g_active_vc vc_initial = None) by reflexivity.
  assert (Hfin : repeat_interval shift_a_thread <> 2 ^ 64 - 1) by discriminate.
  assert (Hfin' : repeat_interval same <> 2 ^ 64 - 1) by discriminate.
  assert (Hsame : thread_held sample_rows (2 ^ 64 - 1) true same).
  { apply (thread_turned sample_rows (2 ^ 64 - 1) true false
             (wait_readable 8 shift_a_report) shift_a_thread
             (after_keys [225; 4] 0 one_console) same
             (after_keys [225; 4] 0 one_console)).
    - exact shift_a_thread_held.
    - discriminate.
    - reflexivity. }
  assert (Hundo : hid_for_every_key
                    (hid_kbd_pressed_keys
                       (hid_kbd_parse_report (report_buf shift_a_thread))
                       (hid_kbd_parse_report (previous_report_buf shift_a_thread)))
                  = []) by reflexivity.
  assert (Hredo : hid_for_every_key
                    (hid_kbd_pressed_keys
                       (hid_kbd_parse_report (previous_report_buf shift_a_thread))
                       (hid_kbd_parse_report (report_buf shift_a_thread)))
                  = [225; 4]) by reflexivity.
  assert (Hpass : vc_handle_control_keys sample_rows false 225
                    (Z.lor (release_keys
                              (hid_for_every_key
                                 (hid_kbd_released_keys
                                    (hid_kbd_parse_report (report_buf shift_a_thread))
                                    (hid_kbd_parse_report
                                       (previous_report_buf shift_a_thread))))
                              (modifiers (kb shift_a_thread)))
                           (modifiers_from_keycode 225)) vc_initial
                  = Some (false, vc_initial)) by reflexivity.
  assert (Hundo' : hid_for_every_key
                     (hid_kbd_pressed_keys
                        (hid_kbd_parse_report (report_buf same))
                        (hid_kbd_parse_report (previous_report_buf same)))
                   = []) by reflexivity.
  split; [exact Hnone|]. split; [exact shift_a_thread_held|]. split; [exact Hfin|].
  split; [exact Hsame|].
  split; [exact (proj1 (timeout_without_console sample_rows (2 ^ 64 - 1) true false
                          shift_a_thread vc_initial Hnone) shift_a_report)|].
  split.
  - exact (proj2 (proj2 (proj2 (timeout_without_console sample_rows (2 ^ 64 - 1) true
                                  false shift_a_thread vc_initial Hnone)
                           shift_a_thread_held Hfin))
             225 [4] Hundo Hredo Hpass).
  - exact (proj1 (proj2 (timeout_without_console sample_rows (2 ^ 64 - 1) true
                           false same vc_initial Hnone) Hsame Hfin')
             Hundo' Hundo').
Defined.

Lemma bind_only_once_witness :
  0 <= status_code NO_ERROR /\
  ERR_NOT_SUPPORTED <> status_code NO_ERROR /\
  vc_root_bind all_succeed 9%nat root_initial = Some (status_code NO_ERROR, bound_root) /\
  g_vc_initialized bound_root = true /\
  vc_root_bind all_succeed 9%nat bound_root = Some (ERR_NOT_SUPPORTED, bound_root).
Proof.
  assert (Hzero : 0 <= status_code NO_ERROR) by discriminate.
  assert (Hother : ERR_NOT_SUPPORTED <> status_code NO_ERROR) by discriminate.
  assert (Hrun : vc_root_bind all_succeed 9%nat root_initial
                 = Some (status_code NO_ERROR, bound_root)) by reflexivity.
  split; [exact Hzero|]. split; [exact Hother|]. split; [exact Hrun|].
  destruct (proj1 (bind_only_once all_succeed 9%nat root_initial bound_root
                     (status_code NO_ERROR) Hzero Hother Hrun) eq_refl)
    as (_ & Hflag & Hagain).
  split; [exact Hflag|exact (Hagain all_succeed 9%nat)].
Defined.

Lemma bind_opens_log_console_witness :
  registry_consistent (consoles root_initial) /\
  exists cs,
    vc_root_bind all_succeed 9%nat root_initial
      = Some (status_code NO_ERROR,
              {| g_vc_initialized := true; g_fb_device := Some 9%nat;
                 flush_hooked := true;
                 spawned := [vc_inputdev_poll; vc_log_reader 1%nat; vc_misc_poll];
                 consoles := cs |}) /\
    g_vc_list cs = [1%nat] /\ g_active_vc cs = Some 1%nat /\
    g_active_vc_index cs = 0.
Proof.
  assert (Hcons : registry_consistent (consoles root_initial))
    by exact consistent_initial.
  assert (Hp : 0 <= got_protocol all_succeed) by discriminate.
  assert (Hm : 0 <= got_mode all_succeed) by discriminate.
  assert (Hf : 0 <= got_framebuffer all_succeed) by discriminate.
  assert (Hs : 0 <= surface_initialized all_succeed) by discriminate.
  assert (Hc : device_created all_succeed = status_code NO_ERROR) by reflexivity.
  assert (Ha : device_added all_succeed = status_code NO_ERROR) by reflexivity.
  assert (Hnone : g_active_vc (consoles root_initial) = None) by reflexivity.
  assert (Hfree : heap (consoles root_initial) !! 1%nat = None) by reflexivity.
  assert (Hoff : active sample_console = false) by reflexivity.
  split; [exact Hcons|].
  destruct (proj1 (bind_opens_log_console all_succeed 9%nat root_initial eq_refl
                     Hp Hm Hf Hs Hc Ha Hcons Hnone)
              1%nat sample_console eq_refl Hfree Hoff)
    as (cs & Hrun & _ & Hl & _ & Hact & Hidx & _).
  exists cs. split; [exact Hrun|]. split; [exact Hl|]. split; [exact Hact|exact Hidx].
Defined.

Lemma status_line_fits_witness :
  let str := replicate 24 7 in
  let still := fun _ : nat => 0 in
  (forall p, p ∈ g_vc_list three_consoles -> is_Some (heap three_consoles !! p)) /\
  g_vc_list three_consoles <> [] /\
  0 < 20 <= Z.of_nat (length str) /\
  vc_get_status_line sample_title still still str 20 three_consoles
    = Some (literal "[0] vc1        " ++ 27 :: literal "[m" ++ [27; 0; 7; 7; 7; 7]) /\
  vc_get_status_line sample_title still still str 20 vc_initial = Some str /\
  vc_get_status_line sample_title still still str 0 three_consoles = Some str.
Proof.
  intros str still.
  assert (Hlive : forall p, p ∈ g_vc_list three_consoles ->
                            is_Some (heap three_consoles !! p))
    by exact (rc_live _ consistent_three_consoles).
  assert (Hne : g_vc_list three_consoles <> []) by discriminate.
  assert (Hfit : 0 < 20 <= Z.of_nat (length str)) by (split; [reflexivity|discriminate]).
  split; [exact Hlive|]. split; [exact Hne|]. split; [exact Hfit|].
  split; [|split].
  - exact (proj1 (proj2 (status_line_fits sample_title still still str 20
                           three_consoles Hlive) Hne Hfit)).
  - refine (proj1 (status_line_fits sample_title still still str 20 vc_initial _)
                  (or_introl eq_refl)).
    intros p Hp. apply elem_of_nil in Hp. contradiction.
  - refine (proj1 (status_line_fits sample_title still still str 0 three_consoles
                     Hlive) (or_intror _)).
    discriminate.
Defined.

Lemma input_descriptor_has_one_owner_witness :
  0 <= 5 /\
  vc_input_device_added 5 (literal "000") 0 None true
    = (NO_ERROR, [in_thread 5 (literal "vc-input-000"); in_detach]) /\
  length (filter (fun e => e = in_close 5)
            (snd (vc_input_device_added 5 (literal "000") 0 None true))) = 0%nat /\
  length (filter (fun e => thread_on 5 e)
            (snd (vc_input_device_added 5 (literal "000") 0 None true))) = 1%nat.
Proof.
  assert (Hfd : 0 <= 5) by discriminate.
  split; [exact Hfd|]. split; [reflexivity|].
  destruct (input_descriptor_has_one_owner 5 (literal "000") 0 None true Hfd)
    as (_ & Hone & _).
  split; [reflexivity|]. 
  assert (Hclosed : length (filter (fun e => e = in_close 5)
            (snd (vc_input_device_added 5 (literal "000") 0 None true))) = 0%nat)
    by reflexivity.
  rewrite Hclosed in Hone. exact Hone.
Defined.

End MoreEvaluations.

Lemma repeat_interval_bounds_witness :
  let inf := 2 ^ 64 - 1 in
  interval_held inf true (accelerate LOW_REPEAT_KEY_FREQUENCY_MICRO) /\
  (accelerate LOW_REPEAT_KEY_FREQUENCY_MICRO = inf \/
   HIGH_REPEAT_KEY_FREQUENCY_MICRO <= accelerate LOW_REPEAT_KEY_FREQUENCY_MICRO
     <= LOW_REPEAT_KEY_FREQUENCY_MICRO).
Proof.
  intros inf.
  assert (Hheld : interval_held inf true (accelerate LOW_REPEAT_KEY_FREQUENCY_MICRO)).
  { apply (held_turn inf true TimedOut LOW_REPEAT_KEY_FREQUENCY_MICRO).
    - exact (held_turn inf true (Report [4] []) inf (held_start inf true)
               ltac:(discriminate)).
    - discriminate. }
  split; [exact Hheld|].
  exact (repeat_interval_bounds inf true _ Hheld).
Defined.

Lemma repeat_disabled_never_fires_witness :
  let inf := 2 ^ 64 - 1 in
  interval_held inf false (next_repeat_interval inf false (Report [4] []) inf) /\
  next_repeat_interval inf false (Report [4] []) inf = inf.
Proof.
  intros inf.
  assert (Hheld : interval_held inf false
                    (next_repeat_interval inf false (Report [4] []) inf)).
  { exact (held_turn inf false (Report [4] []) inf (held_start inf false)
             ltac:(discriminate)). }
  split; [exact Hheld|].
  exact (repeat_disabled_never_fires inf _ Hheld).
Defined.
